(** * startups.org.ai: the generation and orchestration core

    A shallow embedding of the TypeScript sources of startups.org.ai
    (the AI enrichment functions, the startup generator, the workflow
    schemas) and the properties stated about them.

    Conventions of the embedding:
    - a JavaScript string is a [string]; non-ASCII text is its UTF-8
      encoding;
    - an [async] function is a value of the [async] monad below: the time
      the returned promise takes to settle and the way it settles;
    - the AI collaborator ([AI({...})] of ai-functions) is a record of
      oracle functions from the prompt to an [async] response, typed by
      the response shapes the sources cast to;
    - [ensureConfigured()] is called without [await] at the top of every
      AI function: it adds neither latency nor failure to its caller and
      is left out. *)

From Stdlib Require Import Ascii String NArith ZArith QArith Qround.
From stdpp Require Import base option list strings gmap pretty.

Open Scope string_scope.

(** ** JavaScript string and array primitives *)

Module JS.

(** [Array.prototype.join] on an array of strings. *)
Fixpoint join (sep : string) (parts : list string) : string :=
  match parts with
  | [] => ""
  | [p] => p
  | p :: rest => p +:+ sep +:+ join sep rest
  end.

(** [xs.slice(i, j)] for [0 <= i <= j]. *)
Definition slice {A} (i j : nat) (xs : list A) : list A :=
  take (j - i) (drop i xs).

(** Interpolation [${x}] of a possibly undefined string. *)
Definition tpl (x : option string) : string :=
  match x with Some s => s | None => "undefined" end.

(** [x || d] on a possibly undefined string: the empty string is falsy. *)
Definition or_else (x : option string) (d : string) : string :=
  match x with
  | Some s => if bool_decide (s = "") then d else s
  | None => d
  end.

(** [[...new Set(xs)]]: the first occurrence of every element, in
    insertion order. *)
Fixpoint set_order (seen xs : list string) : list string :=
  match xs with
  | [] => []
  | x :: rest =>
      if bool_decide (x ∈ seen) then set_order seen rest
      else x :: set_order (x :: seen) rest
  end.

Definition is_upper (n : N) : bool := ((65 <=? n) && (n <=? 90))%N.
Definition is_lower (n : N) : bool := ((97 <=? n) && (n <=? 122))%N.
Definition is_digit (n : N) : bool := ((48 <=? n) && (n <=? 57))%N.

(** [String.prototype.toLowerCase], on UTF-8 text.  ASCII capitals are
    shifted; U+212A KELVIN SIGN (E2 84 AA) becomes [k] and U+0130
    (C4 B0) becomes [i] followed by U+0307 (CC 87): these are the only
    characters outside ASCII whose lower case contains an ASCII
    character.  Every other character outside ASCII is left as it is:
    its lower case is outside ASCII too, and the only use of
    [toLowerCase] below is followed by the removal of everything outside
    [a-z0-9-]. *)
Fixpoint toLowerCase (s : string) : string :=
  match s with
  | EmptyString => EmptyString
  | String a rest =>
      let n := N_of_ascii a in
      if is_upper n then String (ascii_of_N (n + 32)) (toLowerCase rest)
      else
        match n, rest with
        | 226%N, String b (String c rest') =>
            if ((N_of_ascii b =? 132) && (N_of_ascii c =? 170))%N
            then String "k" (toLowerCase rest')
            else String a (toLowerCase rest)
        | 196%N, String b rest' =>
            if (N_of_ascii b =? 176)%N
            then String "i" (String (ascii_of_N 204)
                   (String (ascii_of_N 135) (toLowerCase rest')))
            else String a (toLowerCase rest)
        | _, _ => String a (toLowerCase rest)
        end
  end.

(** [s.replace(/[^a-z0-9-]/g, '')]. *)
Definition keeps (a : ascii) : bool :=
  let n := N_of_ascii a in
  is_lower n || is_digit n || (n =? 45)%N.

Fixpoint strip (s : string) : string :=
  match s with
  | EmptyString => EmptyString
  | String a rest => if keeps a then String a (strip rest) else strip rest
  end.

(** One digit of [Number.prototype.toString(36)]. *)
Definition digit36 (d : N) : ascii :=
  if (d <? 10)%N then ascii_of_N (48 + d) else ascii_of_N (87 + d).

Fixpoint toString36_aux (fuel : nat) (n : N) (acc : string) : string :=
  match fuel with
  | O => acc
  | S fuel' =>
      let acc' := String (digit36 (n mod 36)) acc in
      if (n <? 36)%N then acc' else toString36_aux fuel' (n / 36) acc'
  end.

(** [n.toString(36)] for a non-negative integer [n]; the fuel is the
    number of binary digits of [n], more than its base-36 digits. *)
Definition toString36 (n : N) : string :=
  toString36_aux (S (N.to_nat (N.log2 n))) n "".

End JS.

(** ** Promises *)

Definition error := string.

Inductive outcome (A : Type) : Type :=
| Fulfilled (a : A)
| Rejected (e : error).
Arguments Fulfilled {A} a.
Arguments Rejected {A} e.

(** An [async] computation started at some instant: [elapsed] is the time
    until its promise settles, [settled] is how it settles. *)
Record async (A : Type) : Type := Async {
  elapsed : nat;
  settled : outcome A;
}.
Arguments Async {A} _ _.
Arguments elapsed {A} _.
Arguments settled {A} _.

(** [return a] inside an async function. *)
#[export] Instance async_ret : MRet async := fun A a => Async 0 (Fulfilled a).

(** [const x = await m; k x]: [k] starts when [m] has settled; a rejection
    of [m] is thrown at the [await] and rejects the whole function. *)
#[export] Instance async_bind : MBind async := fun A B k m =>
  match settled m with
  | Fulfilled a => Async (elapsed m + elapsed (k a)) (settled (k a))
  | Rejected e => Async (elapsed m) (Rejected e)
  end.

Module Promise.

(** The earliest rejection among promises started together, the first
    one in array order among those that reject at the same instant. *)
Fixpoint first_rejection {A} (ps : list (async A)) : option (nat * error) :=
  match ps with
  | [] => None
  | p :: rest =>
      match settled p, first_rejection rest with
      | Rejected e, Some (t', e') =>
          if (elapsed p <=? t')%nat then Some (elapsed p, e) else Some (t', e')
      | Rejected e, None => Some (elapsed p, e)
      | Fulfilled _, r => r
      end
  end.

Fixpoint values {A} (ps : list (async A)) : list A :=
  match ps with
  | [] => []
  | p :: rest =>
      match settled p with
      | Fulfilled a => a :: values rest
      | Rejected _ => values rest
      end
  end.

(** [Promise.all(ps)] for promises started together: fulfilled with all
    the values, in array order, once the slowest has fulfilled; rejected
    with the first rejection as soon as it happens. *)
Definition all {A} (ps : list (async A)) : async (list A) :=
  match first_rejection ps with
  | Some (t, e) => Async t (Rejected e)
  | None => Async (max_list (elapsed <$> ps)) (Fulfilled (values ps))
  end.

End Promise.


#[export] Instance async_fmap : FMap async := fun A B f m =>
  a ← m; mret (f a).

(** ** Ontology entities (ontology.ts)

    Records carry the source's field names inside a module named after the
    TypeScript type.  A hierarchy [level] is a whole number and prints in
    a prompt as its decimal digits. *)

Module Industry.
Record t : Type := {
  ns : string;
  type : string;
  id : string;
  name : string;
  description : string;
  code : string;
  shortName : string;
  sourceType : string;
  level : Z;
}.
End Industry.

Module Occupation.
Record t : Type := {
  ns : string;
  type : string;
  id : string;
  name : string;
  description : string;
  code : string;
  shortName : string;
  sourceType : string;
  occupationCode : string;
}.
End Occupation.

Module Process.
Record t : Type := {
  ns : string;
  type : string;
  id : string;
  name : string;
  description : string;
  code : string;
  shortName : string;
  sourceType : string;
  level : Z;
}.
End Process.

(** ** Industry enrichment shapes (enrichments.ts, and the [industryAI]
    schema of enrich-industry.ts)

    Fields that the schema describes as [One of: ...] hold whatever string
    the collaborator answered: the sources cast, they do not validate. *)

Module MarketDynamics.
Record t : Type := {
  competitiveness : string;
  consolidation : string;
  barriers : string;
  regulation : string;
}.
End MarketDynamics.

Module Economics.
Record t : Type := {
  typicalMargins : string;
  capitalIntensity : string;
  timeToRevenue : string;
  scalability : string;
}.
End Economics.

Module TypicalGTM.
Record t : Type := {
  salesCycle : string;
  aov : string;
  channels : list string;
  buyerPersonas : list string;
}.
End TypicalGTM.

Module AIOpportunity.
Record t : Type := {
  automationPotential : string;
  disruptionRisk : string;
  aiUseCases : list string;
}.
End AIOpportunity.

Module BusinessType.
Record t : Type := {
  id : string;
  name : string;
  category : string;
  description : string;
  marketDynamics : MarketDynamics.t;
  economics : Economics.t;
  typicalGTM : TypicalGTM.t;
  aiOpportunity : AIOpportunity.t;
}.
End BusinessType.

Module CustomerSegmentCanvas.
Record t : Type := {
  segment : string;
  description : string;
  size : string;
  willingness : string;
  accessibility : string;
}.
End CustomerSegmentCanvas.

Module ValuePropositionCanvas.
Record t : Type := {
  proposition : string;
  customerJobs : list string;
  pains : list string;
  gains : list string;
}.
End ValuePropositionCanvas.

Module Channel.
Record t : Type := {
  type : string;
  effectiveness : string;
  cost : string;
}.
End Channel.

Module CustomerRelationship.
Record t : Type := {
  type : string;
  description : string;
}.
End CustomerRelationship.

Module RevenueStream.
Record t : Type := {
  type : string;
  description : string;
  percentage : string;
}.
End RevenueStream.

Module CostStructure.
Record t : Type := {
  type : string;
  fixedCosts : list string;
  variableCosts : list string;
}.
End CostStructure.

Module BusinessModelCanvas.
Record t : Type := {
  customerSegments : list CustomerSegmentCanvas.t;
  valuePropositions : list ValuePropositionCanvas.t;
  channels : list Channel.t;
  customerRelationships : list CustomerRelationship.t;
  revenueStreams : list RevenueStream.t;
  keyResources : list string;
  keyActivities : list string;
  keyPartners : list string;
  costStructure : CostStructure.t;
}.
End BusinessModelCanvas.

Module CompetitiveLandscape.
Record t : Type := {
  marketLeaders : list string;
  emergingPlayers : list string;
  disruptors : list string;
  consolidationTrends : string;
}.
End CompetitiveLandscape.

Module IndustryTrend.
Record t : Type := {
  trend : string;
  description : string;
  impact : string;
  timeframe : string;
  opportunity : string;
}.
End IndustryTrend.

Module AIReadiness.
Record t : Type := {
  dataAvailability : string;
  processStandardization : string;
  aiAdoption : string;
  topAIUseCases : list string;
}.
End AIReadiness.

Module MarketSize.
Record t : Type := {
  tam : string;
  sam : string;
  growth : string;
}.
End MarketSize.

Inductive TechnologyAdoption : Type :=
| laggard
| early_majority
| late_majority
| innovator.

Module EnrichedIndustry.
Record t : Type := {
  industryId : string;
  businessTypes : list BusinessType.t;
  businessModelCanvas : BusinessModelCanvas.t;
  competitiveLandscape : CompetitiveLandscape.t;
  trends : list IndustryTrend.t;
  painPoints : list string;
  regulations : list string;
  technologyAdoption : TechnologyAdoption;
  marketSize : MarketSize.t;
  aiReadiness : AIReadiness.t;
}.
End EnrichedIndustry.

(** The fields of [EnrichedOccupation] that the modelled functions read. *)
Module EnrichedOccupation.
Record t : Type := {
  occupationId : string;
  topProblemIds : list string;
  topPainPointIds : list string;
  budgetAuthority : string;
  decisionRole : string;
  aiOpportunity_aiReadiness : string;
}.
End EnrichedOccupation.

(** ** enrich-industry.ts *)

Module BusinessTypesResponse.
Record t : Type := { types : list BusinessType.t }.
End BusinessTypesResponse.

Module IndustryTrendsResponse.
Record t : Type := { trends : list IndustryTrend.t }.
End IndustryTrendsResponse.

(** [const industryAI = AI({...})]: one oracle per schema entry. *)
Module IndustryAI.
Record t : Type := {
  businessTypes : string -> async BusinessTypesResponse.t;
  businessModelCanvas : string -> async BusinessModelCanvas.t;
  competitiveLandscape : string -> async CompetitiveLandscape.t;
  industryTrends : string -> async IndustryTrendsResponse.t;
  aiReadiness : string -> async AIReadiness.t;
  marketSize : string -> async MarketSize.t;
}.
End IndustryAI.

Inductive Depth : Type := basic | standard | comprehensive.

Module EnrichIndustryOptions.
Record t : Type := {
  depth : option Depth;
  includeCompetitors : option bool;
  includeTrends : option bool;
  includeAIAnalysis : option bool;
}.
End EnrichIndustryOptions.

(** [options = {}]. *)
Definition noOptions : EnrichIndustryOptions.t :=
  {| EnrichIndustryOptions.depth := None;
     EnrichIndustryOptions.includeCompetitors := None;
     EnrichIndustryOptions.includeTrends := None;
     EnrichIndustryOptions.includeAIAnalysis := None |}.

Definition industryContext (industry : Industry.t) : string :=
"
Industry: " +:+ Industry.name industry +:+ "
Description: " +:+ Industry.description industry +:+ "
NAICS Code: " +:+ Industry.code industry +:+ "
Level: " +:+ pretty (Industry.level industry) +:+ " (1=sector, 2=subsector, 3=industry group, 4=industry, 5=national industry)
".

(** [depth === 'basic' ? '3-5' : depth === 'standard' ? '5-8' : '8-12']. *)
Definition depthRange (depth : Depth) : string :=
  match depth with
  | basic => "3-5"
  | standard => "5-8"
  | comprehensive => "8-12"
  end.

Definition businessTypesPrompt (industry : Industry.t) (depth : Depth) : string :=
"
Analyze the " +:+ Industry.name industry +:+ " industry and identify the " +:+ depthRange depth +:+ " most common business types operating in this space.

" +:+ industryContext industry +:+ "

For each business type, provide detailed analysis of market dynamics, economics, go-to-market approach, and AI opportunity.
Focus on business types that would be relevant for a startup to consider entering.
".

Definition canvasPrompt (industry : Industry.t) : string :=
"
Create a comprehensive Business Model Canvas for a typical successful business in the " +:+ Industry.name industry +:+ " industry.

" +:+ industryContext industry +:+ "

This should represent the most common/successful business model pattern in this industry.
Be specific with real examples where possible.
".

Definition competitorsPrompt (industry : Industry.t) : string :=
"
Analyze the competitive landscape of the " +:+ Industry.name industry +:+ " industry.

" +:+ industryContext industry +:+ "

Identify market leaders, emerging players, and disruptors. Describe consolidation trends.
Focus on companies that are relevant benchmarks for a new entrant.
".

Definition trendsPrompt (industry : Industry.t) (depth : Depth) : string :=
"
Identify the " +:+ depthRange depth +:+ " most important trends shaping the " +:+ Industry.name industry +:+ " industry.

" +:+ industryContext industry +:+ "

For each trend, explain the impact, timeline, and startup opportunities it creates.
Focus on trends that create opportunities for new entrants.
".

Definition aiPrompt (industry : Industry.t) : string :=
"
Assess the AI readiness and opportunity in the " +:+ Industry.name industry +:+ " industry.

" +:+ industryContext industry +:+ "

Evaluate data availability, process standardization, current AI adoption, and the most promising AI use cases.
Be specific about where AI can create the most value.
".

Definition marketSizePrompt (industry : Industry.t) : string :=
"
Estimate the market size for the " +:+ Industry.name industry +:+ " industry.

" +:+ industryContext industry +:+ "

Provide TAM (total addressable market), SAM (serviceable addressable market for a typical startup), and growth rate.
Base estimates on publicly available data and industry reports.
".

Definition extractPainPoints (canvas : BusinessModelCanvas.t) : list string :=
  JS.set_order []
    (concat (ValuePropositionCanvas.pains <$> BusinessModelCanvas.valuePropositions canvas)).

Definition extractRegulations (businessTypes : list BusinessType.t) : list string :=
  omap (fun bt =>
          let regulation := MarketDynamics.regulation (BusinessType.marketDynamics bt) in
          if bool_decide (regulation = "heavy") || bool_decide (regulation = "moderate")
          then Some (BusinessType.name bt +:+ ": Significant regulatory requirements")
          else None)
       businessTypes.

Definition determineTechAdoption (aiReadiness : option AIReadiness.t) : TechnologyAdoption :=
  match aiReadiness with
  | None => early_majority
  | Some r =>
      let adoption := AIReadiness.aiAdoption r in
      if bool_decide (adoption = "embedded") || bool_decide (adoption = "scaling")
      then innovator
      else if bool_decide (adoption = "piloting") then early_majority
      else if bool_decide (adoption = "experimenting") then late_majority
      else laggard
  end.

Definition enrichIndustry (industryAI : IndustryAI.t) (industry : Industry.t)
    (options : EnrichIndustryOptions.t) : async EnrichedIndustry.t :=
  let depth := default standard (EnrichIndustryOptions.depth options) in
  let includeCompetitors := default true (EnrichIndustryOptions.includeCompetitors options) in
  let includeTrends := default true (EnrichIndustryOptions.includeTrends options) in
  let includeAIAnalysis := default true (EnrichIndustryOptions.includeAIAnalysis options) in
  businessTypes ← IndustryAI.businessTypes industryAI (businessTypesPrompt industry depth);
  businessModelCanvas ← IndustryAI.businessModelCanvas industryAI (canvasPrompt industry);
  competitiveLandscape ←
    (if includeCompetitors
     then Some <$> IndustryAI.competitiveLandscape industryAI (competitorsPrompt industry)
     else mret None);
  trends ←
    (if includeTrends
     then IndustryTrendsResponse.trends <$>
            IndustryAI.industryTrends industryAI (trendsPrompt industry depth)
     else mret []);
  aiReadiness ←
    (if includeAIAnalysis
     then Some <$> IndustryAI.aiReadiness industryAI (aiPrompt industry)
     else mret None);
  marketSize ← IndustryAI.marketSize industryAI (marketSizePrompt industry);
  let businessTypesArray := BusinessTypesResponse.types businessTypes in
  mret
    {| EnrichedIndustry.industryId := Industry.id industry;
       EnrichedIndustry.businessTypes := businessTypesArray;
       EnrichedIndustry.businessModelCanvas := businessModelCanvas;
       EnrichedIndustry.competitiveLandscape :=
         default
           {| CompetitiveLandscape.marketLeaders := [];
              CompetitiveLandscape.emergingPlayers := [];
              CompetitiveLandscape.disruptors := [];
              CompetitiveLandscape.consolidationTrends := "Not analyzed" |}
           competitiveLandscape;
       EnrichedIndustry.trends := trends;
       EnrichedIndustry.painPoints := extractPainPoints businessModelCanvas;
       EnrichedIndustry.regulations := extractRegulations businessTypesArray;
       EnrichedIndustry.technologyAdoption := determineTechAdoption aiReadiness;
       EnrichedIndustry.marketSize := marketSize;
       EnrichedIndustry.aiReadiness :=
         default
           {| AIReadiness.dataAvailability := "moderate";
              AIReadiness.processStandardization := "defined";
              AIReadiness.aiAdoption := "experimenting";
              AIReadiness.topAIUseCases := [] |}
           aiReadiness |}.

(** ** Batch enrichment

    [enrichIndustriesBatch], [enrichOccupationsBatch] and
    [enrichProcessesBatch] are one loop, up to the item type, the per-item
    function and the constant [concurrency]:
<<
    for (let i = 0; i < items.length; i += concurrency) {
      const batch = items.slice(i, i + concurrency)
      const enriched = await Promise.all(batch.map(x => work(x, options)))
      for (let j = 0; j < batch.length; j++) results.set(batch[j].id, enriched[j])
    }
    return results
>>
    The model also returns the log of the calls of [work] that the loop
    starts: which item, when it starts and when its promise settles, on
    the clock that reads 0 when the batch function is called. *)

Record call : Type := Call {
  call_index : nat;
  call_item : string;
  call_start : nat;
  call_end : nat;
}.

(** Number of logged calls that have started and not yet settled at
    instant [at_]. *)
Definition in_flight (log : list call) (at_ : nat) : nat :=
  length (filter (fun c => call_start c <= at_ < call_end c) log).

Section Batch.

Context {T R : Type}.
Variable key : T -> string.
Variable work : T -> async R.
Variable concurrency : nat.

(** The calls that [batch.map(x => work(x))] starts at instant [now], for
    the chunk that begins at index [i]. *)
Definition startAll (i now : nat) (batch : list T) : list call :=
  imap (fun j x => Call (i + j) (key x) now (now + elapsed (work x))) batch.

(** [for (j ...) results.set(batch[j].id, enriched[j])]. *)
Definition setAll (results : gmap string R) (batch : list T) (enriched : list R)
    : gmap string R :=
  foldl (fun m xv => <[key xv.1 := xv.2]> m) results (zip batch enriched).

(** The loop from index [i] on, entered at instant [now].  [None] only
    when the fuel runs out, which needs [concurrency = 0] (the source loop
    would then not terminate either). *)
Fixpoint batchFrom (fuel : nat) (items : list T) (i now : nat)
    (results : gmap string R) : option (list call * async (gmap string R)) :=
  if bool_decide (i < length items) then
    match fuel with
    | O => None
    | S fuel' =>
        let batch := JS.slice i (i + concurrency) items in
        let enriched := Promise.all (work <$> batch) in
        let calls := startAll i now batch in
        match settled enriched with
        | Rejected e => Some (calls, Async (now + elapsed enriched) (Rejected e))
        | Fulfilled values =>
            match batchFrom fuel' items (i + concurrency)
                    (now + elapsed enriched) (setAll results batch values) with
            | Some (later, r) => Some ((calls ++ later)%list, r)
            | None => None
            end
        end
    end
  else Some ([], Async now (Fulfilled results)).

Definition runBatch (items : list T) : option (list call * async (gmap string R)) :=
  batchFrom (length items) items 0 0 ∅.

End Batch.

Definition enrichIndustriesBatch (industryAI : IndustryAI.t)
    (industries : list Industry.t) (options : EnrichIndustryOptions.t)
    : option (list call * async (gmap string EnrichedIndustry.t)) :=
  runBatch Industry.id (fun industry => enrichIndustry industryAI industry options)
    5 industries.

(** [enrichOccupation] and [enrichProcess] are taken as they are called:
    async functions of the item and the options. *)
Definition enrichOccupationsBatch {Options Enriched : Type}
    (enrichOccupation : Occupation.t -> Options -> async Enriched)
    (occupations : list Occupation.t) (options : Options)
    : option (list call * async (gmap string Enriched)) :=
  runBatch Occupation.id (fun occupation => enrichOccupation occupation options)
    3 occupations.

Definition enrichProcessesBatch {Options Enriched : Type}
    (enrichProcess : Process.t -> Options -> async Enriched)
    (processes : list Process.t) (options : Options)
    : option (list call * async (gmap string Enriched)) :=
  runBatch Process.id (fun process => enrichProcess process options)
    3 processes.

(** ** Hypothesis (hypothesis.ts) *)

Module DimensionFilter.
Record t : Type := {
  ids : option (list string);
  excludeIds : option (list string);
  levels : option (list Z);
  namePattern : option string;
  limit : option nat;
}.
End DimensionFilter.

Module OntologyDimensionConfig.
Record t : Type := {
  enabled : bool;
  filter : option DimensionFilter.t;
  priority : Z;
}.
End OntologyDimensionConfig.

Module HypothesisDimensions.
Record t : Type := {
  occupations : OntologyDimensionConfig.t;
  industries : OntologyDimensionConfig.t;
  processes : OntologyDimensionConfig.t;
  tasks : OntologyDimensionConfig.t;
  services : OntologyDimensionConfig.t;
  technologies : OntologyDimensionConfig.t;
}.
End HypothesisDimensions.

Module HypothesisConstraints.
Record t : Type := {
  minScore : Q;
  maxStartups : option Z;
  requireIndustry : bool;
  requireOccupation : bool;
}.
End HypothesisConstraints.

(** [businessModel], [primaryVerticals], [primarySegments], [status], the
    timestamps and [tags] are read by none of the modelled functions and
    are left out. *)
(** The TypeScript type is [Hypothesis], a reserved word here. *)
Module StartupHypothesis.
Record t : Type := {
  id : string;
  name : string;
  thesis : string;
  description : string;
  dimensions : HypothesisDimensions.t;
  constraints : HypothesisConstraints.t;
}.
End StartupHypothesis.

(** ** Viability score (startup.ts) *)

Module ViabilityDimension.
Record t : Type := {
  dimension : string;
  score : Q;
  weight : Q;
  rationale : string;
  signals : list string;
}.
End ViabilityDimension.

Module ViabilityDimensions.
Record t : Type := {
  marketSize : ViabilityDimension.t;
  problemSeverity : ViabilityDimension.t;
  solutionFit : ViabilityDimension.t;
  competition : ViabilityDimension.t;
  gtmEase : ViabilityDimension.t;
  monetization : ViabilityDimension.t;
  defensibility : ViabilityDimension.t;
  timing : ViabilityDimension.t;
}.
End ViabilityDimensions.

Inductive Tier : Type := TierS | TierA | TierB | TierC | TierD.

Inductive Recommendation : Type :=
| pursue_aggressively
| test_hypothesis
| explore_further
| deprioritize
| skip.

Definition Recommendation_label (r : Recommendation) : string :=
  match r with
  | pursue_aggressively => "pursue-aggressively"
  | test_hypothesis => "test-hypothesis"
  | explore_further => "explore-further"
  | deprioritize => "deprioritize"
  | skip => "skip"
  end.

Module ViabilityScore.
Record t : Type := {
  overall : Q;
  dimensions : ViabilityDimensions.t;
  tier : Tier;
  recommendation : Recommendation;
}.
End ViabilityScore.

(** ** generate-startup.ts *)

Module StartupName.
Record t : Type := {
  name : string;
  tagline : string;
  domain : string;
}.
End StartupName.

Module OntologyTarget.
Record t : Type := {
  occupationId : option string;
  occupationName : option string;
  industryId : option string;
  industryName : option string;
  processId : option string;
  processName : option string;
}.
End OntologyTarget.

Module BusinessModel.
Record t : Type := {
  type : string;
  targetCustomer : string;
  moat : string;
}.
End BusinessModel.

(** [Partial<StartupConcept>], with the fields that [scoreStartupConcept]
    reads. *)
Module StartupConcept.
Record t : Type := {
  name : option StartupName.t;
  oneLiner : option string;
  pitch : option string;
  ontologyTarget : option OntologyTarget.t;
  businessModel : option BusinessModel.t;
  serviceType : option string;
}.
End StartupConcept.

Module Idea.
Record t : Type := {
  title : string;
  oneLiner : string;
  targetOccupation : option string;
  targetIndustry : option string;
  targetProcess : option string;
  serviceType : string;
  uniqueAngle : string;
  estimatedViability : string;
}.
End Idea.

Module StartupIdeasResponse.
Record t : Type := { ideas : option (list Idea.t) }.
End StartupIdeasResponse.

(** The entries of [const startupAI = AI({...})] that the modelled
    functions call. *)
Module StartupAI.
Record t : Type := {
  viabilityScore : string -> async ViabilityScore.t;
  startupIdeas : string -> async StartupIdeasResponse.t;
}.
End StartupAI.

Module GenerateIdeasInput.
Record t : Type := {
  hypothesis : StartupHypothesis.t;
  occupations : option (list Occupation.t);
  industries : option (list Industry.t);
  processes : option (list Process.t);
  count : option Z;
}.
End GenerateIdeasInput.

(** [xs.length > 0 ? `Label: ${xs.slice(0, 20).map(x => x.name).join(', ')}` : '']. *)
Definition dimensionLine (label : string) (names : list string) : string :=
  if bool_decide (0 < length names)
  then label +:+ ": " +:+ JS.join ", " (JS.slice 0 20 names)
  else "".

Definition ideasPrompt (input : GenerateIdeasInput.t) : string :=
  let hypothesis := GenerateIdeasInput.hypothesis input in
  let occupations := default [] (GenerateIdeasInput.occupations input) in
  let industries := default [] (GenerateIdeasInput.industries input) in
  let processes := default [] (GenerateIdeasInput.processes input) in
  let count := default 10%Z (GenerateIdeasInput.count input) in
"
Generate " +:+ pretty count +:+ " unique startup ideas based on this hypothesis:

Hypothesis: " +:+ StartupHypothesis.name hypothesis +:+ "
" +:+ StartupHypothesis.thesis hypothesis +:+ "

Available dimensions to combine:
" +:+ dimensionLine "Occupations" (Occupation.name <$> occupations) +:+ "
" +:+ dimensionLine "Industries" (Industry.name <$> industries) +:+ "
" +:+ dimensionLine "Processes" (Process.name <$> processes) +:+ "

Generate diverse ideas that:
1. Target different combinations of occupation × industry × process
2. Use different AI service types (full-automation, augmentation, overlay, platform, api)
3. Have different unique angles
4. Range from safe bets to moonshots

Each idea should be distinct and viable.
".

Definition generateStartupIdeas (startupAI : StartupAI.t)
    (input : GenerateIdeasInput.t) : async (list Idea.t) :=
  result ← StartupAI.startupIdeas startupAI (ideasPrompt input);
  mret (default [] (StartupIdeasResponse.ideas result)).

Definition industryIntelligence (enrichedIndustry : option EnrichedIndustry.t) : string :=
  match enrichedIndustry with
  | Some ei => "
Industry Intelligence:
- Market Size: " +:+ MarketSize.tam (EnrichedIndustry.marketSize ei) +:+ "
- Growth: " +:+ MarketSize.growth (EnrichedIndustry.marketSize ei) +:+ "
- AI Readiness: " +:+ AIReadiness.aiAdoption (EnrichedIndustry.aiReadiness ei) +:+ "
- Top Trends: " +:+ JS.join ", " (IndustryTrend.trend <$> JS.slice 0 3 (EnrichedIndustry.trends ei)) +:+ "
"
  | None => ""
  end.

Definition occupationIntelligence (enrichedOccupation : option EnrichedOccupation.t) : string :=
  match enrichedOccupation with
  | Some eo => "
Occupation Intelligence:
- Budget Authority: " +:+ EnrichedOccupation.budgetAuthority eo +:+ "
- Decision Role: " +:+ EnrichedOccupation.decisionRole eo +:+ "
- AI Readiness: " +:+ EnrichedOccupation.aiOpportunity_aiReadiness eo +:+ "
- Top Problems: " +:+ JS.join ", " (JS.slice 0 3 (EnrichedOccupation.topProblemIds eo)) +:+ "
"
  | None => ""
  end.

Definition scorePrompt (concept : StartupConcept.t)
    (enrichedIndustry : option EnrichedIndustry.t)
    (enrichedOccupation : option EnrichedOccupation.t) : string :=
"
Score the viability of this startup concept:

Name: " +:+ JS.or_else (StartupName.name <$> StartupConcept.name concept) "Unnamed" +:+ "
" +:+ JS.tpl (StartupConcept.oneLiner concept) +:+ "
" +:+ JS.tpl (StartupConcept.pitch concept) +:+ "

Target Occupation: " +:+ JS.or_else (StartupConcept.ontologyTarget concept ≫= OntologyTarget.occupationName) "General" +:+ "
Target Industry: " +:+ JS.or_else (StartupConcept.ontologyTarget concept ≫= OntologyTarget.industryName) "Various" +:+ "
Business Model: " +:+ JS.tpl (BusinessModel.type <$> StartupConcept.businessModel concept) +:+ "
Service Type: " +:+ JS.tpl (StartupConcept.serviceType concept) +:+ "

" +:+ industryIntelligence enrichedIndustry +:+ "

" +:+ occupationIntelligence enrichedOccupation +:+ "

Score across all 8 dimensions with specific rationale and signals.
".

Definition scoreStartupConcept (startupAI : StartupAI.t) (concept : StartupConcept.t)
    (enrichedIndustry : option EnrichedIndustry.t)
    (enrichedOccupation : option EnrichedOccupation.t) : async ViabilityScore.t :=
  result ← StartupAI.viabilityScore startupAI
              (scorePrompt concept enrichedIndustry enrichedOccupation);
  mret result.

(** [task] and [problemStack] are read only by [generateStartupConcept]
    and are left out. *)
Module GenerateConceptInput.
Record t : Type := {
  hypothesis : StartupHypothesis.t;
  occupation : option Occupation.t;
  industry : option Industry.t;
  process : option Process.t;
  enrichedOccupation : option EnrichedOccupation.t;
  enrichedIndustry : option EnrichedIndustry.t;
}.
End GenerateConceptInput.

(** [now] is the value that [Date.now()] returns during the call. *)
Definition generateConceptId (input : GenerateConceptInput.t) (now : N) : string :=
  let parts :=
    [ StartupHypothesis.id (GenerateConceptInput.hypothesis input);
      JS.or_else (Occupation.id <$> GenerateConceptInput.occupation input) "gen";
      JS.or_else (Industry.id <$> GenerateConceptInput.industry input) "gen";
      JS.or_else (Process.id <$> GenerateConceptInput.process input) "gen";
      JS.toString36 now ] in
  JS.strip (JS.toLowerCase (JS.join "-" parts)).

(** ** Workflow schemas (workflow.ts) *)

(** [status: z.enum(['pending', 'running', 'completed', 'failed', 'skipped'])]
    of [PipelineStep]. *)
Inductive StepStatus : Type :=
| step_pending
| step_running
| step_completed
| step_failed
| step_skipped.

(** [z.record(z.string(), z.unknown())]: the values are opaque to the
    workflow and are kept as text. *)
Abbreviation payload := (gmap string string).

Module PipelineStep.
Record t : Type := {
  id : string;
  name : string;
  phase : string;
  function : string;
  input : payload;
  dependsOn : option (list string);
  output : option payload;
  status : StepStatus;
  error : option string;
}.
End PipelineStep.

(** [status: z.enum(['pending', 'running', 'completed', 'failed', 'paused'])]
    of [WorkflowExecution]. *)
Inductive WorkflowExecutionStatus : Type :=
| run_pending
| run_running
| run_completed
| run_failed
| run_paused.

Definition WorkflowExecutionStatus_values : list string :=
  ["pending"; "running"; "completed"; "failed"; "paused"].

Definition WorkflowExecutionStatus_label (s : WorkflowExecutionStatus) : string :=
  match s with
  | run_pending => "pending"
  | run_running => "running"
  | run_completed => "completed"
  | run_failed => "failed"
  | run_paused => "paused"
  end.

(** What the [status] field of the [WorkflowExecution] schema accepts: a
    zod enum parses exactly its listed strings. *)
Definition parseWorkflowExecutionStatus (s : string) : option WorkflowExecutionStatus :=
  if bool_decide (s = "pending") then Some run_pending
  else if bool_decide (s = "running") then Some run_running
  else if bool_decide (s = "completed") then Some run_completed
  else if bool_decide (s = "failed") then Some run_failed
  else if bool_decide (s = "paused") then Some run_paused
  else None.

(** ** Pipeline orchestrator

    workflow.ts declares [executeWorkflow] as a typed signature
    ([z.function().args(...).returns(...)]) and gives it no body. *)

(** Modelled from the spec: the operation that a step invokes, missing
    from the sources, which only name it in [PipelineStep.function].
    Given the function name and the structured input it answers with an
    error or an output (spec section 4.7: a step is marked completed on
    success or failed on error, capturing the error). *)
Definition operations : Type := string -> payload -> string + payload.

Definition stepById (id : string) (steps : list PipelineStep.t) : option PipelineStep.t :=
  List.find (fun s => bool_decide (PipelineStep.id s = id)) steps.

Definition dependencies (s : PipelineStep.t) : list string :=
  default [] (PipelineStep.dependsOn s).

Definition settle (s : PipelineStep.t) (status : StepStatus)
    (output : option payload) (error : option string) : PipelineStep.t :=
  {| PipelineStep.id := PipelineStep.id s;
     PipelineStep.name := PipelineStep.name s;
     PipelineStep.phase := PipelineStep.phase s;
     PipelineStep.function := PipelineStep.function s;
     PipelineStep.input := PipelineStep.input s;
     PipelineStep.dependsOn := PipelineStep.dependsOn s;
     PipelineStep.output := output;
     PipelineStep.status := status;
     PipelineStep.error := error |}.

Definition dependencyBroken (steps : list PipelineStep.t) (d : string) : bool :=
  match stepById d steps with
  | Some a =>
      match PipelineStep.status a with
      | step_failed | step_skipped => true
      | _ => false
      end
  | None => false
  end.

Definition dependencyCompleted (steps : list PipelineStep.t) (d : string) : bool :=
  match stepById d steps with
  | Some a =>
      match PipelineStep.status a with
      | step_completed => true
      | _ => false
      end
  | None => false
  end.

(** Modelled from the spec: the transition rule of the Pipeline
    Orchestrator (spec section 4.7), whose implementation is missing from
    the sources.  A pending step whose dependencies contain a failed or
    skipped step becomes skipped; a pending step all of whose dependencies
    are completed is eligible: it is launched and ends completed, with its
    output, or failed, with the error.  A launched step passes through
    [running] inside the scan and is never left in it. *)
Definition advance (ops : operations) (steps : list PipelineStep.t)
    (s : PipelineStep.t) : PipelineStep.t :=
  match PipelineStep.status s with
  | step_pending =>
      if existsb (dependencyBroken steps) (dependencies s)
      then settle s step_skipped None None
      else if forallb (dependencyCompleted steps) (dependencies s)
      then
        match ops (PipelineStep.function s) (PipelineStep.input s) with
        | inr out => settle s step_completed (Some out) None
        | inl err => settle s step_failed None (Some err)
        end
      else s
  | _ => s
  end.

(** Modelled from the spec: one scan of the orchestrator over the steps
    (spec section 4.7, "repeatedly scans for eligible steps, launches
    each"), missing from the sources.  Eligibility is read from the state
    the scan starts in. *)
Definition scan (ops : operations) (steps : list PipelineStep.t) : list PipelineStep.t :=
  advance ops steps <$> steps.

Fixpoint scans (ops : operations) (n : nat) (steps : list PipelineStep.t)
    : list PipelineStep.t :=
  match n with
  | O => steps
  | S n' => scans ops n' (scan ops steps)
  end.

(** Modelled from the spec: the run of the Pipeline Orchestrator (spec
    section 4.7), for which workflow.ts has only the signature of
    [executeWorkflow].  The run is created with every step pending and is
    scanned until no step moves: one scan per step is enough, since a
    scan that moves something settles at least one pending step. *)
Definition executeWorkflow (ops : operations) (steps : list PipelineStep.t)
    : list PipelineStep.t :=
  scans ops (length steps) ((fun s => settle s step_pending None None) <$> steps).

Definition succeeded (r : string + payload) : bool :=
  match r with inr _ => true | inl _ => false end.

(** The step [id] and everything upstream of it, through at most [depth]
    dependency edges, exist and have operations that succeed: the "valid
    inputs" of an independent branch. *)
Fixpoint upstreamValid (ops : operations) (steps : list PipelineStep.t)
    (depth : nat) (id : string) : bool :=
  match stepById id steps with
  | None => false
  | Some s =>
      succeeded (ops (PipelineStep.function s) (PipelineStep.input s))
      && match depth with
         | O => bool_decide (dependencies s = [])
         | S depth' => forallb (upstreamValid ops steps depth') (dependencies s)
         end
  end.

(** ** Filter engine

    hypothesis.ts declares the filter of a dimension
    ([OntologyDimensionConfig.filter], [DimensionFilter.t] above) and no
    function that applies it. *)

(** [DimensionEntity] of the specification (section 3): id, display name,
    hierarchy level and description. *)
Module DimensionEntity.
Record t : Type := {
  id : string;
  name : string;
  level : Z;
  description : string;
}.
End DimensionEntity.

(** Whether [name] contains [pattern], ASCII case aside. *)
Definition includesIgnoringCase (pattern name : string) : bool :=
  bool_decide (is_Some (String.index 0 (JS.toLowerCase pattern) (JS.toLowerCase name))).

Definition keepIf {A B} (criterion : option B) (test : B -> A -> bool)
    (entities : list A) : list A :=
  match criterion with
  | Some c => List.filter (test c) entities
  | None => entities
  end.

(** Modelled from the spec: [apply] of the Filter Engine (spec section
    4.1), missing from the sources, on the filter record that
    hypothesis.ts declares.  In order: allow-list [ids], deny-list
    [excludeIds], [levels], [namePattern] (as a case-insensitive
    substring), then truncation to the first [limit] entities. *)
Definition apply (entities : list DimensionEntity.t) (f : DimensionFilter.t)
    : list DimensionEntity.t :=
  let allowed :=
    keepIf (DimensionFilter.ids f)
      (fun ids e => bool_decide (DimensionEntity.id e ∈ ids)) entities in
  let notDenied :=
    keepIf (DimensionFilter.excludeIds f)
      (fun ids e => negb (bool_decide (DimensionEntity.id e ∈ ids))) allowed in
  let atLevel :=
    keepIf (DimensionFilter.levels f)
      (fun levels e => bool_decide (DimensionEntity.level e ∈ levels)) notDenied in
  let named :=
    keepIf (DimensionFilter.namePattern f)
      (fun pattern e => includesIgnoringCase pattern (DimensionEntity.name e)) atLevel in
  match DimensionFilter.limit f with
  | Some cap => take cap named
  | None => named
  end.

(** The filter that holds a result cap and nothing else. *)
Definition capOnly (n : nat) : DimensionFilter.t :=
  {| DimensionFilter.ids := None;
     DimensionFilter.excludeIds := None;
     DimensionFilter.levels := None;
     DimensionFilter.namePattern := None;
     DimensionFilter.limit := Some n |}.

(** ** The scoring rules of the specification

    The sources hold no scoring arithmetic: [scoreStartupConcept] returns
    the collaborator's answer.  The rules of the specification (section
    4.4) are written down here as functions of their own, to compare that
    answer with. *)

Definition spec_tier (overall : Q) : Tier :=
  if Qle_bool 90 overall then TierS
  else if Qle_bool 75 overall then TierA
  else if Qle_bool 60 overall then TierB
  else if Qle_bool 40 overall then TierC
  else TierD.

Definition spec_recommendation (t : Tier) : Recommendation :=
  match t with
  | TierS => pursue_aggressively
  | TierA => test_hypothesis
  | TierB => explore_further
  | TierC => deprioritize
  | TierD => skip
  end.

Definition dimensionList (d : ViabilityDimensions.t) : list ViabilityDimension.t :=
  [ ViabilityDimensions.marketSize d; ViabilityDimensions.problemSeverity d;
    ViabilityDimensions.solutionFit d; ViabilityDimensions.competition d;
    ViabilityDimensions.gtmEase d; ViabilityDimensions.monetization d;
    ViabilityDimensions.defensibility d; ViabilityDimensions.timing d ].

Definition Qsum (xs : list Q) : Q := foldr Qplus 0%Q xs.

(** [round(x)]: to the nearest integer, halves upwards. *)
Definition spec_round (x : Q) : Z := Qfloor (x + (1 # 2))%Q.

(** [round(sum (score_i * weight_i) / sum weight_i)]. *)
Definition spec_aggregate (ds : list ViabilityDimension.t) : Z :=
  spec_round
    (Qsum ((fun d => ViabilityDimension.score d * ViabilityDimension.weight d)%Q <$> ds)
     / Qsum (ViabilityDimension.weight <$> ds))%Q.

(** The score with every weight multiplied by [k]. *)
Definition scaleWeight (k : Q) (d : ViabilityDimension.t) : ViabilityDimension.t :=
  {| ViabilityDimension.dimension := ViabilityDimension.dimension d;
     ViabilityDimension.score := ViabilityDimension.score d;
     ViabilityDimension.weight := (k * ViabilityDimension.weight d)%Q;
     ViabilityDimension.rationale := ViabilityDimension.rationale d;
     ViabilityDimension.signals := ViabilityDimension.signals d |}.

Definition scaleWeights (k : Q) (v : ViabilityScore.t) : ViabilityScore.t :=
  let d := ViabilityScore.dimensions v in
  {| ViabilityScore.overall := ViabilityScore.overall v;
     ViabilityScore.dimensions :=
       {| ViabilityDimensions.marketSize := scaleWeight k (ViabilityDimensions.marketSize d);
          ViabilityDimensions.problemSeverity := scaleWeight k (ViabilityDimensions.problemSeverity d);
          ViabilityDimensions.solutionFit := scaleWeight k (ViabilityDimensions.solutionFit d);
          ViabilityDimensions.competition := scaleWeight k (ViabilityDimensions.competition d);
          ViabilityDimensions.gtmEase := scaleWeight k (ViabilityDimensions.gtmEase d);
          ViabilityDimensions.monetization := scaleWeight k (ViabilityDimensions.monetization d);
          ViabilityDimensions.defensibility := scaleWeight k (ViabilityDimensions.defensibility d);
          ViabilityDimensions.timing := scaleWeight k (ViabilityDimensions.timing d) |};
     ViabilityScore.tier := ViabilityScore.tier v;
     ViabilityScore.recommendation := ViabilityScore.recommendation v |}.

(** ** Sample data

    Concrete entities and collaborators, for running the definitions. *)

Definition sampleIndustry (id name : string) : Industry.t :=
  {| Industry.ns := "industries.org.ai";
     Industry.type := "Industry";
     Industry.id := id;
     Industry.name := name;
     Industry.description := "Establishments of the " +:+ name +:+ " industry";
     Industry.code := "62";
     Industry.shortName := id;
     Industry.sourceType := "NAICS";
     Industry.level := 3 |}.

Definition sixIndustries : list Industry.t :=
  [ sampleIndustry "Healthcare" "Healthcare";
    sampleIndustry "Mining" "Mining";
    sampleIndustry "Retail" "Retail Trade";
    sampleIndustry "Utilities" "Utilities";
    sampleIndustry "Finance" "Finance and Insurance";
    sampleIndustry "Education" "Educational Services" ].

Definition sampleCanvas : BusinessModelCanvas.t :=
  {| BusinessModelCanvas.customerSegments := [];
     BusinessModelCanvas.valuePropositions :=
       [ {| ValuePropositionCanvas.proposition := "Faster billing";
            ValuePropositionCanvas.customerJobs := ["Send invoices"];
            ValuePropositionCanvas.pains := ["Late payments"; "Manual entry"];
            ValuePropositionCanvas.gains := ["Cash flow"] |};
         {| ValuePropositionCanvas.proposition := "Fewer errors";
            ValuePropositionCanvas.customerJobs := [];
            ValuePropositionCanvas.pains := ["Manual entry"; "Audit risk"];
            ValuePropositionCanvas.gains := [] |} ];
     BusinessModelCanvas.channels := [];
     BusinessModelCanvas.customerRelationships := [];
     BusinessModelCanvas.revenueStreams := [];
     BusinessModelCanvas.keyResources := [];
     BusinessModelCanvas.keyActivities := [];
     BusinessModelCanvas.keyPartners := [];
     BusinessModelCanvas.costStructure :=
       {| CostStructure.type := "value-driven";
          CostStructure.fixedCosts := [];
          CostStructure.variableCosts := [] |} |}.

Definition sampleBusinessType (name regulation : string) : BusinessType.t :=
  {| BusinessType.id := name;
     BusinessType.name := name;
     BusinessType.category := "b2b-saas";
     BusinessType.description := "";
     BusinessType.marketDynamics :=
       {| MarketDynamics.competitiveness := "growing";
          MarketDynamics.consolidation := "fragmented";
          MarketDynamics.barriers := "medium";
          MarketDynamics.regulation := regulation |};
     BusinessType.economics :=
       {| Economics.typicalMargins := "high";
          Economics.capitalIntensity := "low";
          Economics.timeToRevenue := "short";
          Economics.scalability := "superlinear" |};
     BusinessType.typicalGTM :=
       {| TypicalGTM.salesCycle := "months";
          TypicalGTM.aov := "medium";
          TypicalGTM.channels := [];
          TypicalGTM.buyerPersonas := [] |};
     BusinessType.aiOpportunity :=
       {| AIOpportunity.automationPotential := "high";
          AIOpportunity.disruptionRisk := "medium";
          AIOpportunity.aiUseCases := [] |} |}.

Definition sampleLandscape : CompetitiveLandscape.t :=
  {| CompetitiveLandscape.marketLeaders := ["Acme"];
     CompetitiveLandscape.emergingPlayers := ["Nova"];
     CompetitiveLandscape.disruptors := [];
     CompetitiveLandscape.consolidationTrends := "Steady consolidation" |}.

Definition sampleTrend : IndustryTrend.t :=
  {| IndustryTrend.trend := "Automation";
     IndustryTrend.description := "Back offices automate";
     IndustryTrend.impact := "high";
     IndustryTrend.timeframe := "now";
     IndustryTrend.opportunity := "Agents for billing" |}.

Definition sampleReadiness : AIReadiness.t :=
  {| AIReadiness.dataAvailability := "abundant";
     AIReadiness.processStandardization := "managed";
     AIReadiness.aiAdoption := "scaling";
     AIReadiness.topAIUseCases := ["Triage"] |}.

Definition sampleMarketSize : MarketSize.t :=
  {| MarketSize.tam := "$50B globally";
     MarketSize.sam := "$2B";
     MarketSize.growth := "15% CAGR" |}.

Definition mentions (word prompt : string) : bool :=
  bool_decide (is_Some (String.index 0 word prompt)).

(** A collaborator that answers every prompt, the business types after 3
    ticks and the rest after 1. *)
Definition steadyAI : IndustryAI.t :=
  {| IndustryAI.businessTypes := fun _ =>
       Async 3 (Fulfilled
         {| BusinessTypesResponse.types :=
              [sampleBusinessType "Clinics" "heavy"; sampleBusinessType "Apps" "light"] |});
     IndustryAI.businessModelCanvas := fun _ => Async 1 (Fulfilled sampleCanvas);
     IndustryAI.competitiveLandscape := fun _ => Async 1 (Fulfilled sampleLandscape);
     IndustryAI.industryTrends := fun _ =>
       Async 1 (Fulfilled {| IndustryTrendsResponse.trends := [sampleTrend] |});
     IndustryAI.aiReadiness := fun _ => Async 1 (Fulfilled sampleReadiness);
     IndustryAI.marketSize := fun _ => Async 1 (Fulfilled sampleMarketSize) |}.

(** The same collaborator, except that its first call fails after 2 ticks
    for the Mining industry. *)
Definition flakyAI : IndustryAI.t :=
  {| IndustryAI.businessTypes := fun prompt =>
       if mentions "Mining" prompt
       then Async 2 (Rejected "model unavailable")
       else IndustryAI.businessTypes steadyAI prompt;
     IndustryAI.businessModelCanvas := IndustryAI.businessModelCanvas steadyAI;
     IndustryAI.competitiveLandscape := IndustryAI.competitiveLandscape steadyAI;
     IndustryAI.industryTrends := IndustryAI.industryTrends steadyAI;
     IndustryAI.aiReadiness := IndustryAI.aiReadiness steadyAI;
     IndustryAI.marketSize := IndustryAI.marketSize steadyAI |}.

Definition bareOptions : EnrichIndustryOptions.t :=
  {| EnrichIndustryOptions.depth := Some basic;
     EnrichIndustryOptions.includeCompetitors := Some false;
     EnrichIndustryOptions.includeTrends := Some false;
     EnrichIndustryOptions.includeAIAnalysis := Some false |}.

Definition sampleDimensionConfig (enabled : bool) (priority : Z) : OntologyDimensionConfig.t :=
  {| OntologyDimensionConfig.enabled := enabled;
     OntologyDimensionConfig.filter := None;
     OntologyDimensionConfig.priority := priority |}.

(** The hypothesis of test/minimal-test.ts: the occupation dimension is
    required. *)
Definition sampleHypothesis : StartupHypothesis.t :=
  {| StartupHypothesis.id := "ai-services";
     StartupHypothesis.name := "AI-Delivered Services";
     StartupHypothesis.thesis :=
       "Transform traditional consulting services into AI-delivered on-demand services.";
     StartupHypothesis.description :=
       "Use AI to productize expert knowledge and deliver it at scale.";
     StartupHypothesis.dimensions :=
       {| HypothesisDimensions.occupations := sampleDimensionConfig true 9;
          HypothesisDimensions.industries := sampleDimensionConfig true 7;
          HypothesisDimensions.processes := sampleDimensionConfig true 8;
          HypothesisDimensions.tasks := sampleDimensionConfig false 5;
          HypothesisDimensions.services := sampleDimensionConfig false 4;
          HypothesisDimensions.technologies := sampleDimensionConfig false 3 |};
     StartupHypothesis.constraints :=
       {| HypothesisConstraints.minScore := 50;
          HypothesisConstraints.maxStartups := None;
          HypothesisConstraints.requireIndustry := false;
          HypothesisConstraints.requireOccupation := true |} |}.

Definition sampleIdea : Idea.t :=
  {| Idea.title := "LedgerBot";
     Idea.oneLiner := "Bookkeeping done by agents";
     Idea.targetOccupation := None;
     Idea.targetIndustry := Some "Finance";
     Idea.targetProcess := None;
     Idea.serviceType := "full-automation";
     Idea.uniqueAngle := "No seats, only outcomes";
     Idea.estimatedViability := "high" |}.

Definition sampleDimension (name : string) (score weight : Q) : ViabilityDimension.t :=
  {| ViabilityDimension.dimension := name;
     ViabilityDimension.score := score;
     ViabilityDimension.weight := weight;
     ViabilityDimension.rationale := "";
     ViabilityDimension.signals := [] |}.

(** An answer of the collaborator whose overall score, tier and
    recommendation do not follow from its own dimension scores: every
    dimension scores 100, the overall score is 95, the tier D. *)
Definition incoherentScore : ViabilityScore.t :=
  {| ViabilityScore.overall := 95;
     ViabilityScore.dimensions :=
       {| ViabilityDimensions.marketSize := sampleDimension "Market Size" 100 (1 # 5);
          ViabilityDimensions.problemSeverity := sampleDimension "Problem Severity" 100 (1 # 5);
          ViabilityDimensions.solutionFit := sampleDimension "Solution Fit" 100 (1 # 5);
          ViabilityDimensions.competition := sampleDimension "Competition" 100 (1 # 10);
          ViabilityDimensions.gtmEase := sampleDimension "GTM Ease" 100 (1 # 10);
          ViabilityDimensions.monetization := sampleDimension "Monetization" 100 (1 # 10);
          ViabilityDimensions.defensibility := sampleDimension "Defensibility" 100 (1 # 20);
          ViabilityDimensions.timing := sampleDimension "Timing" 100 (1 # 20) |};
     ViabilityScore.tier := TierD;
     ViabilityScore.recommendation := pursue_aggressively |}.

(** The score of the specification's end-to-end scenario 2. *)
Definition scenarioScore : ViabilityScore.t :=
  {| ViabilityScore.overall := 66;
     ViabilityScore.dimensions :=
       {| ViabilityDimensions.marketSize := sampleDimension "Market Size" 90 (1 # 5);
          ViabilityDimensions.problemSeverity := sampleDimension "Problem Severity" 80 (1 # 5);
          ViabilityDimensions.solutionFit := sampleDimension "Solution Fit" 70 (1 # 5);
          ViabilityDimensions.competition := sampleDimension "Competition" 60 (1 # 10);
          ViabilityDimensions.gtmEase := sampleDimension "GTM Ease" 50 (1 # 10);
          ViabilityDimensions.monetization := sampleDimension "Monetization" 40 (1 # 10);
          ViabilityDimensions.defensibility := sampleDimension "Defensibility" 30 (1 # 20);
          ViabilityDimensions.timing := sampleDimension "Timing" 20 (1 # 20) |};
     ViabilityScore.tier := TierB;
     ViabilityScore.recommendation := explore_further |}.

(** A collaborator for generate-startup.ts that answers after 4 ticks
    with the given score and the given ideas. *)
Definition cannedStartupAI (v : ViabilityScore.t) (ideas : option (list Idea.t)) : StartupAI.t :=
  {| StartupAI.viabilityScore := fun _ => Async 4 (Fulfilled v);
     StartupAI.startupIdeas := fun _ =>
       Async 4 (Fulfilled {| StartupIdeasResponse.ideas := ideas |}) |}.

Definition downStartupAI : StartupAI.t :=
  {| StartupAI.viabilityScore := fun _ => Async 1 (Rejected "model unavailable");
     StartupAI.startupIdeas := fun _ => Async 1 (Rejected "model unavailable") |}.

Definition sampleConcept : StartupConcept.t :=
  {| StartupConcept.name :=
       Some {| StartupName.name := "LedgerBot";
               StartupName.tagline := "Books that keep themselves";
               StartupName.domain := "ledgerbot.ai" |};
     StartupConcept.oneLiner := Some "Bookkeeping done by agents";
     StartupConcept.pitch := None;
     StartupConcept.ontologyTarget := None;
     StartupConcept.businessModel := None;
     StartupConcept.serviceType := Some "full-automation" |}.

(** No occupation candidates, for a hypothesis that requires the
    occupation dimension. *)
Definition ideasWithoutOccupations : GenerateIdeasInput.t :=
  {| GenerateIdeasInput.hypothesis := sampleHypothesis;
     GenerateIdeasInput.occupations := Some [];
     GenerateIdeasInput.industries := Some [sampleIndustry "Finance" "Finance and Insurance"];
     GenerateIdeasInput.processes := None;
     GenerateIdeasInput.count := Some 3%Z |}.

Definition sampleConceptInput : GenerateConceptInput.t :=
  {| GenerateConceptInput.hypothesis := sampleHypothesis;
     GenerateConceptInput.occupation := None;
     GenerateConceptInput.industry := Some (sampleIndustry "Healthcare" "Healthcare");
     GenerateConceptInput.process := None;
     GenerateConceptInput.enrichedOccupation := None;
     GenerateConceptInput.enrichedIndustry := None |}.

(** The same seed, described in other words. *)
Definition sampleConceptInput' : GenerateConceptInput.t :=
  {| GenerateConceptInput.hypothesis := sampleHypothesis;
     GenerateConceptInput.occupation := None;
     GenerateConceptInput.industry := Some (sampleIndustry "Healthcare" "Health Care and Social Assistance");
     GenerateConceptInput.process := None;
     GenerateConceptInput.enrichedOccupation := None;
     GenerateConceptInput.enrichedIndustry := None |}.

Definition sampleStep (id function : string) (dependsOn : option (list string)) : PipelineStep.t :=
  {| PipelineStep.id := id;
     PipelineStep.name := "Step " +:+ id;
     PipelineStep.phase := "enrichment";
     PipelineStep.function := function;
     PipelineStep.input := ∅;
     PipelineStep.dependsOn := dependsOn;
     PipelineStep.output := None;
     PipelineStep.status := step_pending;
     PipelineStep.error := None |}.

(** The DAG of the specification's end-to-end scenario 3 (A -> B, A -> C,
    B and C -> D, where A fails), with an unrelated step E next to it. *)
Definition diamond : list PipelineStep.t :=
  [ sampleStep "A" "enrichIndustry" None;
    sampleStep "B" "generateConcepts" (Some ["A"]);
    sampleStep "C" "scoreConcept" (Some ["A"]);
    sampleStep "D" "rankConcepts" (Some ["B"; "C"]);
    sampleStep "E" "generateName" None ].

Definition enrichmentDown : operations := fun function _ =>
  if bool_decide (function = "enrichIndustry") then inl "model unavailable" else inr ∅.

Definition sampleEntities : list DimensionEntity.t :=
  [ {| DimensionEntity.id := "62"; DimensionEntity.name := "Healthcare";
       DimensionEntity.level := 1; DimensionEntity.description := "" |};
    {| DimensionEntity.id := "21"; DimensionEntity.name := "Mining";
       DimensionEntity.level := 1; DimensionEntity.description := "" |};
    {| DimensionEntity.id := "44"; DimensionEntity.name := "Retail Trade";
       DimensionEntity.level := 1; DimensionEntity.description := "" |} ].

Definition sampleOccupation (id name : string) : Occupation.t :=
  {| Occupation.ns := "jobs.org.ai";
     Occupation.type := "Job";
     Occupation.id := id;
     Occupation.name := name;
     Occupation.description := "";
     Occupation.code := "11-3031.00";
     Occupation.shortName := id;
     Occupation.sourceType := "ONET";
     Occupation.occupationCode := "11-3031.00" |}.

Definition fourOccupations : list Occupation.t :=
  [ sampleOccupation "ChiefFinancialOfficer" "Chief Financial Officer";
    sampleOccupation "Accountant" "Accountant";
    sampleOccupation "Auditor" "Auditor";
    sampleOccupation "Controller" "Controller" ].

(** An occupation enrichment that takes as many ticks as the name of the
    occupation has characters, and answers with that name. *)
Definition nameOccupation (occupation : Occupation.t) (_ : unit) : async string :=
  Async (String.length (Occupation.name occupation))
        (Fulfilled (Occupation.name occupation)).

Definition sampleProcess (id name : string) : Process.t :=
  {| Process.ns := "process.org.ai";
     Process.type := "Process";
     Process.id := id;
     Process.name := name;
     Process.description := "";
     Process.code := "80000";
     Process.shortName := id;
     Process.sourceType := "APQC";
     Process.level := 1 |}.

Definition fourProcesses : list Process.t :=
  [ sampleProcess "Plan" "Plan the Budget";
    sampleProcess "Bill" "Bill the Customers";
    sampleProcess "Pay" "Pay the Suppliers";
    sampleProcess "Close" "Close the Books" ].

(** A process enrichment that fails for the process [Pay] after 2 ticks
    and answers for the others after 6. *)
Definition payFails (process : Process.t) (_ : unit) : async string :=
  if bool_decide (Process.id process = "Pay")
  then Async 2 (Rejected "model unavailable")
  else Async 6 (Fulfilled (Process.name process)).

(** ** Vocabulary of the statements *)

Definition fulfils {A} (m : async A) : Prop := exists a, settled m = Fulfilled a.

(** Every call of the collaborator is answered. *)
Definition answers (industryAI : IndustryAI.t) : Prop :=
  forall prompt,
    fulfils (IndustryAI.businessTypes industryAI prompt) /\
    fulfils (IndustryAI.businessModelCanvas industryAI prompt) /\
    fulfils (IndustryAI.competitiveLandscape industryAI prompt) /\
    fulfils (IndustryAI.industryTrends industryAI prompt) /\
    fulfils (IndustryAI.aiReadiness industryAI prompt) /\
    fulfils (IndustryAI.marketSize industryAI prompt).

(** The collaborator whose scores are those of [startupAI] with every
    weight multiplied by [k]. *)
Definition rescaled (k : Q) (startupAI : StartupAI.t) : StartupAI.t :=
  {| StartupAI.viabilityScore := fun prompt =>
       scaleWeights k <$> StartupAI.viabilityScore startupAI prompt;
     StartupAI.startupIdeas := StartupAI.startupIdeas startupAI |}.

Definition withConstraints (input : GenerateIdeasInput.t)
    (constraints : HypothesisConstraints.t) : GenerateIdeasInput.t :=
  let h := GenerateIdeasInput.hypothesis input in
  {| GenerateIdeasInput.hypothesis :=
       {| StartupHypothesis.id := StartupHypothesis.id h;
          StartupHypothesis.name := StartupHypothesis.name h;
          StartupHypothesis.thesis := StartupHypothesis.thesis h;
          StartupHypothesis.description := StartupHypothesis.description h;
          StartupHypothesis.dimensions := StartupHypothesis.dimensions h;
          StartupHypothesis.constraints := constraints |};
     GenerateIdeasInput.occupations := GenerateIdeasInput.occupations input;
     GenerateIdeasInput.industries := GenerateIdeasInput.industries input;
     GenerateIdeasInput.processes := GenerateIdeasInput.processes input;
     GenerateIdeasInput.count := GenerateIdeasInput.count input |}.

(** The steps that a scan can still move. *)
Definition isPending (s : PipelineStep.t) : bool :=
  match PipelineStep.status s with step_pending => true | _ => false end.

Definition pendingCount (steps : list PipelineStep.t) : nat :=
  length (List.filter isPending steps).

(** A step that has been launched: it ended completed or failed. *)
Definition launched (s : PipelineStep.t) : Prop :=
  PipelineStep.status s = step_completed \/ PipelineStep.status s = step_failed.

(** The invariant of a run: no step is left running, and a launched step
    has all its dependencies completed. *)
Definition consistent (steps : list PipelineStep.t) : Prop :=
  forall s, In s steps ->
    PipelineStep.status s <> step_running /\
    (launched s -> forall d, In d (dependencies s) -> dependencyCompleted steps d = true).

(** The state in which a run is created. *)
Definition created (steps : list PipelineStep.t) : list PipelineStep.t :=
  (fun s => settle s step_pending None None) <$> steps.

Section BatchRuns.

Context {T R : Type}.
Variable key : T -> string.
Variable work : T -> async R.
Variable concurrency : nat.
Variable items : list T.

(** The [q]-th chunk of the loop: [items.slice(i, i + concurrency)] at
    [i = q * concurrency]. *)
Definition chunk (q : nat) : list T :=
  JS.slice (q * concurrency) (q * concurrency + concurrency) items.

(** The runs of the loop as a relation, one rule per way an iteration
    goes: [Run q now results log r] when the loop, entering chunk [q] at
    instant [now] with the map [results], starts the calls [log] and
    settles as [r]. *)
Inductive Run : nat -> nat -> gmap string R -> list call -> async (gmap string R) -> Prop :=
| Run_done q now results :
    length items <= q * concurrency ->
    Run q now results [] (Async now (Fulfilled results))
| Run_rejected q now results e :
    q * concurrency < length items ->
    settled (Promise.all (work <$> chunk q)) = Rejected e ->
    Run q now results
      (startAll key work (q * concurrency) now (chunk q))
      (Async (now + elapsed (Promise.all (work <$> chunk q))) (Rejected e))
| Run_next q now results values later r :
    q * concurrency < length items ->
    settled (Promise.all (work <$> chunk q)) = Fulfilled values ->
    Run (S q) (now + elapsed (Promise.all (work <$> chunk q)))
      (setAll key results (chunk q) values) later r ->
    Run q now results
      (startAll key work (q * concurrency) now (chunk q) ++ later)%list r.

End BatchRuns.

(** * The rest of the enrichment and generation code *)

(** ** More JavaScript primitives *)

Module JSText.

(** [s.includes(pattern)]. *)
Fixpoint includes (pattern s : string) : bool :=
  String.prefix pattern s
  || match s with
     | EmptyString => false
     | String _ rest => includes pattern rest
     end.

(** The double quote, for the prompts that quote a name. *)
Definition quote : string := String (ascii_of_nat 34) EmptyString.

(** [x ? render(x) : ''] on a possibly undefined string: the empty string
    is falsy. *)
Definition whenSet (x : option string) (render : string -> string) : string :=
  match x with
  | Some s => if bool_decide (s = "") then "" else render s
  | None => ""
  end.

(** The value of a digit of base 36, as [parseInt(s, 36)] reads it. *)
Definition digitValue (a : ascii) : N :=
  let n := N_of_ascii a in
  if JS.is_digit n then n - 48 else n - 87.

(** [parseInt(s, 36)] on a string of digits [0-9a-z], continuing from the
    value [v] of the digits already read. *)
Fixpoint parse36 (s : string) (v : N) : N :=
  match s with
  | EmptyString => v
  | String a rest => parse36 rest (36 * v + digitValue a)
  end.

End JSText.

(** ** Tasks (ontology.ts) *)

Module Task.
Record t : Type := {
  ns : string;
  type : string;
  id : string;
  name : string;
  description : string;
  code : string;
  shortName : string;
  sourceType : string;
  verb : string;
  object : string;
  preposition : option string;
  prepObject : option string;
  source : string;
}.
End Task.

(** ** Process and task enrichment shapes (enrichments.ts, and the
    [processAI] and [taskAI] schemas of enrich-process.ts) *)

Module MermaidDiagramType.
Inductive t : Type :=
| flowchart
| sequence
| stateDiagram
| erDiagram
| classDiagram
| gantt
| journey
| mindmap.
End MermaidDiagramType.

Module MermaidDiagram.
Record t : Type := {
  type : MermaidDiagramType.t;
  title : string;
  description : string;
  code : string;
}.
End MermaidDiagram.

(** What the collaborator answers for a diagram: the schema asks for no
    [type]. *)
Module DiagramResponse.
Record t : Type := {
  title : string;
  description : string;
  code : string;
}.
End DiagramResponse.

Module ProcessDiagrams.
Record t : Type := {
  flowchart : MermaidDiagram.t;
  sequence : MermaidDiagram.t;
  stateDiagram : MermaidDiagram.t;
  erDiagram : MermaidDiagram.t;
  journey : MermaidDiagram.t;
}.
End ProcessDiagrams.

Module TaskDiagrams.
Record t : Type := {
  flowchart : MermaidDiagram.t;
  sequence : option MermaidDiagram.t;
  stateDiagram : option MermaidDiagram.t;
}.
End TaskDiagrams.

Module ProcessBottleneck.
Record t : Type := {
  location : string;
  cause : string;
  impact : string;
  solutionApproaches : list string;
}.
End ProcessBottleneck.

Module HandoffPoint.
Record t : Type := {
  from : string;
  to : string;
  friction : string;
}.
End HandoffPoint.

Module AutomationOpportunity.
Record t : Type := {
  step : string;
  approach : string;
  effort : string;
  impact : string;
}.
End AutomationOpportunity.

Module DataFlow.
Record t : Type := {
  from : string;
  to : string;
  format : string;
  frequency : string;
}.
End DataFlow.

Module ProcessCharacteristics.
Record t : Type := {
  maturityLevel : string;
  variability : string;
  documentation : string;
  cycleTime : string;
  throughput : string;
  qualityRate : string;
  costPerExecution : string;
}.
End ProcessCharacteristics.

Module BottlenecksResponse.
Record t : Type := {
  bottlenecks : list ProcessBottleneck.t;
  handoffPoints : list HandoffPoint.t;
}.
End BottlenecksResponse.

Module AutomationResponse.
Record t : Type := {
  opportunities : list AutomationOpportunity.t;
  systemsTouched : list string;
  dataFlows : list DataFlow.t;
}.
End AutomationResponse.

(** [const processAI = AI({...})]. *)
Module ProcessAI.
Record t : Type := {
  processCharacteristics : string -> async ProcessCharacteristics.t;
  bottlenecks : string -> async BottlenecksResponse.t;
  automationOpportunities : string -> async AutomationResponse.t;
  flowchartDiagram : string -> async DiagramResponse.t;
  sequenceDiagram : string -> async DiagramResponse.t;
  stateDiagram : string -> async DiagramResponse.t;
  erDiagram : string -> async DiagramResponse.t;
  journeyDiagram : string -> async DiagramResponse.t;
}.
End ProcessAI.

Module EnrichedProcess.
Record t : Type := {
  processId : string;
  maturityLevel : string;
  variability : string;
  documentation : string;
  cycleTime : string;
  throughput : string;
  qualityRate : string;
  costPerExecution : string;
  bottlenecks : list ProcessBottleneck.t;
  handoffPoints : list HandoffPoint.t;
  automationOpportunities : list AutomationOpportunity.t;
  systemsTouched : list string;
  dataFlows : list DataFlow.t;
  diagrams : ProcessDiagrams.t;
}.
End EnrichedProcess.

Module EnrichProcessOptions.
Record t : Type := {
  depth : option Depth;
  industryContext : option string;
  occupationContext : option string;
  includeDiagrams : option bool;
}.
End EnrichProcessOptions.

Module TaskCharacteristics.
Record t : Type := {
  averageTime : string;
  frequency : string;
  complexity : string;
  errorRate : string;
  businessImpact : string;
  skillRequired : string;
}.
End TaskCharacteristics.

Module TaskDependencies.
Record t : Type := {
  prerequisites : list string;
  blockedBy : list string;
  enables : list string;
}.
End TaskDependencies.

Module TaskAutomation.
Record t : Type := {
  level : string;
  currentState : string;
  barriers : list string;
  aiApproach : string;
}.
End TaskAutomation.

(** [const taskAI = AI({...})]. *)
Module TaskAI.
Record t : Type := {
  taskCharacteristics : string -> async TaskCharacteristics.t;
  taskDependencies : string -> async TaskDependencies.t;
  taskAutomation : string -> async TaskAutomation.t;
  taskFlowchart : string -> async DiagramResponse.t;
  taskSequence : string -> async DiagramResponse.t;
}.
End TaskAI.

Module EnrichedTask.
Record t : Type := {
  taskId : string;
  averageTime : string;
  frequency : string;
  complexity : string;
  errorRate : string;
  businessImpact : string;
  skillRequired : string;
  prerequisites : list string;
  blockedBy : list string;
  enables : list string;
  automationPotential : TaskAutomation.t;
  diagrams : TaskDiagrams.t;
}.
End EnrichedTask.

Module EnrichTaskOptions.
Record t : Type := {
  depth : option Depth;
  processContext : option string;
  occupationContext : option string;
  includeDiagrams : option bool;
}.
End EnrichTaskOptions.

(** ** enrich-process.ts *)

(** [{ ...response, type }]. *)
Definition withType (response : DiagramResponse.t) (type : MermaidDiagramType.t)
    : MermaidDiagram.t :=
  {| MermaidDiagram.type := type;
     MermaidDiagram.title := DiagramResponse.title response;
     MermaidDiagram.description := DiagramResponse.description response;
     MermaidDiagram.code := DiagramResponse.code response |}.

Definition createEmptyDiagram (type : MermaidDiagramType.t) : MermaidDiagram.t :=
  {| MermaidDiagram.type := type;
     MermaidDiagram.title := "Not generated";
     MermaidDiagram.description := "Diagram was not generated";
     MermaidDiagram.code := "" |}.

Definition processContext (process : Process.t) (industryContext occupationContext : option string)
    : string :=
"
Process: " +:+ Process.name process +:+ "
Description: " +:+ Process.description process +:+ "
APQC Code: " +:+ Process.code process +:+ "
Level: " +:+ pretty (Process.level process) +:+ "
" +:+ JSText.whenSet industryContext (fun c => "Industry: " +:+ c) +:+ "
" +:+ JSText.whenSet occupationContext (fun c => "Occupation: " +:+ c) +:+ "
".

Definition quoted (name : string) : string := JSText.quote +:+ name +:+ JSText.quote.

Definition characteristicsPrompt (process : Process.t) (context : string) : string :=
"
Analyze the " +:+ quoted (Process.name process) +:+ " business process and provide its typical characteristics.

" +:+ context +:+ "

Assess maturity level, variability, documentation, cycle time, throughput, and quality.
Base your assessment on typical implementations of this process in organizations.
".

Definition bottlenecksPrompt (process : Process.t) (context : string) : string :=
"
Identify bottlenecks and handoff points in the " +:+ quoted (Process.name process) +:+ " process.

" +:+ context +:+ "

Where does this process typically get stuck? What are the friction points in handoffs?
Provide specific, actionable insights.
".

Definition automationPrompt (process : Process.t) (context : string) : string :=
"
Analyze automation opportunities for the " +:+ quoted (Process.name process) +:+ " process.

" +:+ context +:+ "

Which steps can be automated with AI? What systems are typically involved?
Map the data flows between systems.
".

Definition flowchartPrompt (process : Process.t) (context : string) : string :=
"
Create a Mermaid flowchart diagram for the " +:+ quoted (Process.name process) +:+ " process.

" +:+ context +:+ "

Show the main steps, decision points, and flow of the process.
Use clear, descriptive labels. Include start and end nodes.
".

Definition sequencePrompt (process : Process.t) (context : string) : string :=
"
Create a Mermaid sequence diagram showing actor interactions in the " +:+ quoted (Process.name process) +:+ " process.

" +:+ context +:+ "

Show the key actors/systems and their interactions over time.
Include the main messages/actions passed between actors.
".

Definition statePrompt (process : Process.t) (context : string) : string :=
"
Create a Mermaid state diagram for the " +:+ quoted (Process.name process) +:+ " process.

" +:+ context +:+ "

Show the key states a work item goes through and the transitions between them.
Include initial and final states.
".

Definition erPrompt (process : Process.t) (context : string) : string :=
"
Create a Mermaid entity-relationship diagram for the " +:+ quoted (Process.name process) +:+ " process.

" +:+ context +:+ "

Show the key data entities involved and their relationships.
Include relevant attributes for each entity.
".

Definition journeyPrompt (process : Process.t) (context : string) : string :=
"
Create a Mermaid user journey diagram for the " +:+ quoted (Process.name process) +:+ " process.

" +:+ context +:+ "

Show the experience of the primary actor going through this process.
Include satisfaction scores for each step.
".

(** The five calls that [generateProcessDiagrams] hands to [Promise.all],
    in array order. *)
Definition diagramCalls (processAI : ProcessAI.t) (process : Process.t) (context : string)
    : list (async DiagramResponse.t) :=
  [ ProcessAI.flowchartDiagram processAI (flowchartPrompt process context);
    ProcessAI.sequenceDiagram processAI (sequencePrompt process context);
    ProcessAI.stateDiagram processAI (statePrompt process context);
    ProcessAI.erDiagram processAI (erPrompt process context);
    ProcessAI.journeyDiagram processAI (journeyPrompt process context) ].

(** [const [flowchart, sequence, stateDiagram, erDiagram, journey] =
    await Promise.all([...])].  [Promise.all] of five promises fulfils
    with five values: the last branch of the match is never taken. *)
Definition generateProcessDiagrams (processAI : ProcessAI.t) (process : Process.t)
    (context : string) : async ProcessDiagrams.t :=
  answers ← Promise.all (diagramCalls processAI process context);
  match answers with
  | [flowchart; sequence; stateDiagram; erDiagram; journey] =>
      mret
        {| ProcessDiagrams.flowchart := withType flowchart MermaidDiagramType.flowchart;
           ProcessDiagrams.sequence := withType sequence MermaidDiagramType.sequence;
           ProcessDiagrams.stateDiagram := withType stateDiagram MermaidDiagramType.stateDiagram;
           ProcessDiagrams.erDiagram := withType erDiagram MermaidDiagramType.erDiagram;
           ProcessDiagrams.journey := withType journey MermaidDiagramType.journey |}
  | _ => Async 0 (Rejected "TypeError")
  end.

Definition noDiagrams : ProcessDiagrams.t :=
  {| ProcessDiagrams.flowchart := createEmptyDiagram MermaidDiagramType.flowchart;
     ProcessDiagrams.sequence := createEmptyDiagram MermaidDiagramType.sequence;
     ProcessDiagrams.stateDiagram := createEmptyDiagram MermaidDiagramType.stateDiagram;
     ProcessDiagrams.erDiagram := createEmptyDiagram MermaidDiagramType.erDiagram;
     ProcessDiagrams.journey := createEmptyDiagram MermaidDiagramType.journey |}.

Definition enrichProcess (processAI : ProcessAI.t) (process : Process.t)
    (options : EnrichProcessOptions.t) : async EnrichedProcess.t :=
  let includeDiagrams := default true (EnrichProcessOptions.includeDiagrams options) in
  let context :=
    processContext process (EnrichProcessOptions.industryContext options)
      (EnrichProcessOptions.occupationContext options) in
  characteristics ← ProcessAI.processCharacteristics processAI
                       (characteristicsPrompt process context);
  bottlenecksResult ← ProcessAI.bottlenecks processAI (bottlenecksPrompt process context);
  automation ← ProcessAI.automationOpportunities processAI (automationPrompt process context);
  diagrams ←
    (if includeDiagrams
     then Some <$> generateProcessDiagrams processAI process context
     else mret None);
  mret
    {| EnrichedProcess.processId := Process.id process;
       EnrichedProcess.maturityLevel := ProcessCharacteristics.maturityLevel characteristics;
       EnrichedProcess.variability := ProcessCharacteristics.variability characteristics;
       EnrichedProcess.documentation := ProcessCharacteristics.documentation characteristics;
       EnrichedProcess.cycleTime := ProcessCharacteristics.cycleTime characteristics;
       EnrichedProcess.throughput := ProcessCharacteristics.throughput characteristics;
       EnrichedProcess.qualityRate := ProcessCharacteristics.qualityRate characteristics;
       EnrichedProcess.costPerExecution :=
         ProcessCharacteristics.costPerExecution characteristics;
       EnrichedProcess.bottlenecks := BottlenecksResponse.bottlenecks bottlenecksResult;
       EnrichedProcess.handoffPoints := BottlenecksResponse.handoffPoints bottlenecksResult;
       EnrichedProcess.automationOpportunities := AutomationResponse.opportunities automation;
       EnrichedProcess.systemsTouched := AutomationResponse.systemsTouched automation;
       EnrichedProcess.dataFlows := AutomationResponse.dataFlows automation;
       EnrichedProcess.diagrams := default noDiagrams diagrams |}.

Definition taskContext (task : Task.t) (processContext occupationContext : option string)
    : string :=
"
Task: " +:+ Task.name task +:+ "
Description: " +:+ Task.description task +:+ "
Verb: " +:+ Task.verb task +:+ "
Object: " +:+ Task.object task +:+ "
" +:+ JSText.whenSet (Task.preposition task) (fun p => "Preposition: " +:+ p) +:+ "
" +:+ JSText.whenSet (Task.prepObject task) (fun p => "Prep Object: " +:+ p) +:+ "
" +:+ JSText.whenSet processContext (fun c => "Process: " +:+ c) +:+ "
" +:+ JSText.whenSet occupationContext (fun c => "Occupation: " +:+ c) +:+ "
".

Definition taskCharacteristicsPrompt (task : Task.t) (context : string) : string :=
"
Analyze the " +:+ quoted (Task.name task) +:+ " task and provide its typical characteristics.

" +:+ context +:+ "

Assess time required, frequency, complexity, error rate, business impact, and skill level.
".

Definition taskDependenciesPrompt (task : Task.t) (context : string) : string :=
"
Identify dependencies for the " +:+ quoted (Task.name task) +:+ " task.

" +:+ context +:+ "

What must happen before this task? What commonly blocks it? What does it enable?
".

Definition taskAutomationPrompt (task : Task.t) (context : string) : string :=
"
Analyze automation potential for the " +:+ quoted (Task.name task) +:+ " task.

" +:+ context +:+ "

What's the current automation state? What barriers exist? How could AI help?
".

Definition taskFlowchartPrompt (task : Task.t) (context : string) : string :=
"
Create a Mermaid flowchart diagram for the " +:+ quoted (Task.name task) +:+ " task.

" +:+ context +:+ "

Show the steps to complete this task, including any decision points.
Keep it focused and clear.
".

Definition taskSequencePrompt (task : Task.t) (context : string) : string :=
"
Create a Mermaid sequence diagram for the " +:+ quoted (Task.name task) +:+ " task.

" +:+ context +:+ "

Show interactions between actors/systems involved in this task.
".

(** The test of [generateTaskDiagrams] for a task with several actors. *)
Definition involvesActors (task : Task.t) : bool :=
  let description := JS.toLowerCase (Task.description task) in
  JSText.includes "coordinate" description
  || JSText.includes "collaborate" description
  || JSText.includes "communicate" description.

Definition generateTaskDiagrams (taskAI : TaskAI.t) (task : Task.t) (context : string)
    : async TaskDiagrams.t :=
  flowchart ← TaskAI.taskFlowchart taskAI (taskFlowchartPrompt task context);
  sequence ←
    (if involvesActors task
     then (fun seqResult => Some (withType seqResult MermaidDiagramType.sequence)) <$>
            TaskAI.taskSequence taskAI (taskSequencePrompt task context)
     else mret None);
  mret
    {| TaskDiagrams.flowchart := withType flowchart MermaidDiagramType.flowchart;
       TaskDiagrams.sequence := sequence;
       TaskDiagrams.stateDiagram := None |}.

Definition enrichTask (taskAI : TaskAI.t) (task : Task.t) (options : EnrichTaskOptions.t)
    : async EnrichedTask.t :=
  let includeDiagrams := default true (EnrichTaskOptions.includeDiagrams options) in
  let context :=
    taskContext task (EnrichTaskOptions.processContext options)
      (EnrichTaskOptions.occupationContext options) in
  characteristics ← TaskAI.taskCharacteristics taskAI (taskCharacteristicsPrompt task context);
  dependencies ← TaskAI.taskDependencies taskAI (taskDependenciesPrompt task context);
  automation ← TaskAI.taskAutomation taskAI (taskAutomationPrompt task context);
  diagrams ←
    (if includeDiagrams
     then Some <$> generateTaskDiagrams taskAI task context
     else mret None);
  mret
    {| EnrichedTask.taskId := Task.id task;
       EnrichedTask.averageTime := TaskCharacteristics.averageTime characteristics;
       EnrichedTask.frequency := TaskCharacteristics.frequency characteristics;
       EnrichedTask.complexity := TaskCharacteristics.complexity characteristics;
       EnrichedTask.errorRate := TaskCharacteristics.errorRate characteristics;
       EnrichedTask.businessImpact := TaskCharacteristics.businessImpact characteristics;
       EnrichedTask.skillRequired := TaskCharacteristics.skillRequired characteristics;
       EnrichedTask.prerequisites := TaskDependencies.prerequisites dependencies;
       EnrichedTask.blockedBy := TaskDependencies.blockedBy dependencies;
       EnrichedTask.enables := TaskDependencies.enables dependencies;
       EnrichedTask.automationPotential :=
         {| TaskAutomation.level := TaskAutomation.level automation;
            TaskAutomation.currentState := TaskAutomation.currentState automation;
            TaskAutomation.barriers := TaskAutomation.barriers automation;
            TaskAutomation.aiApproach := TaskAutomation.aiApproach automation |};
       EnrichedTask.diagrams :=
         default
           {| TaskDiagrams.flowchart := createEmptyDiagram MermaidDiagramType.flowchart;
              TaskDiagrams.sequence := None;
              TaskDiagrams.stateDiagram := None |}
           diagrams |}.

Definition enrichTasksBatch (taskAI : TaskAI.t) (tasks : list Task.t)
    (options : EnrichTaskOptions.t)
    : option (list call * async (gmap string EnrichedTask.t)) :=
  runBatch Task.id (fun task => enrichTask taskAI task options) 5 tasks.

(** ** Occupation enrichment shapes (enrichments.ts, and the
    [occupationAI] schema of enrich-occupation.ts) *)

Module ExternalProblem.
Record t : Type := {
  problem : string;
  manifestations : list string;
  metrics : list string;
  villains : list string;
  cost : string;
}.
End ExternalProblem.

Module InternalProblem.
Record t : Type := {
  feeling : string;
  fear : string;
  doubt : string;
  desire : string;
  identity : string;
}.
End InternalProblem.

Module PhilosophicalProblem.
Record t : Type := {
  injustice : string;
  shouldBe : string;
  higherPurpose : string;
  villain : string;
}.
End PhilosophicalProblem.

Module ProblemStack.
Record t : Type := {
  id : string;
  title : string;
  context : string;
  external : ExternalProblem.t;
  internal : InternalProblem.t;
  philosophical : PhilosophicalProblem.t;
  stakes : string;
  transformation : string;
  successLooksLike : string;
  guideEmpathy : string;
  guideAuthority : string;
  plan : list string;
  cta : string;
}.
End ProblemStack.

Module PainPoint.
Record t : Type := {
  id : string;
  title : string;
  description : string;
  severity : string;
  frequency : string;
  triggers : list string;
  consequences : list string;
  workarounds : list string;
  existingSolutions : list string;
  solutionGaps : list string;
  idealSolution : string;
  timeWasted : string;
  costImpact : string;
  willingnessToPay : string;
}.
End PainPoint.

Module WorkflowStep.
Record t : Type := {
  order : string;
  name : string;
  description : string;
  tools : list string;
  inputs : list string;
  outputs : list string;
  painPoints : list string;
  automationPotential : string;
  timeSpent : string;
}.
End WorkflowStep.

Module Workflow.
Record t : Type := {
  id : string;
  name : string;
  description : string;
  frequency : string;
  steps : list WorkflowStep.t;
  totalTime : string;
  bottlenecks : list string;
}.
End Workflow.

Module BuyingTrigger.
Record t : Type := {
  trigger : string;
  urgency : string;
  budget : string;
  decisionMakers : list string;
  evaluationCriteria : list string;
}.
End BuyingTrigger.

Module AITask.
Record t : Type := {
  task : string;
  automationLevel : string;
  timeFreed : string;
  resistance : string;
}.
End AITask.

Module CurrentTool.
Record t : Type := {
  name : string;
  category : string;
  satisfaction : string;
  switching : string;
}.
End CurrentTool.

Module Objection.
Record t : Type := {
  objection : string;
  response : string;
}.
End Objection.

Module MessagingHooks.
Record t : Type := {
  headlines : list string;
  emailSubjects : list string;
  adCopy : list string;
  socialPosts : list string;
  objections : list Objection.t;
}.
End MessagingHooks.

Module ProblemStacksResponse.
Record t : Type := { stacks : list ProblemStack.t }.
End ProblemStacksResponse.

Module PainPointsResponse.
Record t : Type := { points : list PainPoint.t }.
End PainPointsResponse.

Module WorkflowsResponse.
Record t : Type := { workflows : list Workflow.t }.
End WorkflowsResponse.

Module BuyingTriggersResponse.
Record t : Type := { triggers : list BuyingTrigger.t }.
End BuyingTriggersResponse.

Module AIOpportunityResponse.
Record t : Type := {
  tasks : list AITask.t;
  totalAutomationPotential : string;
  aiReadiness : string;
}.
End AIOpportunityResponse.

(** [timeAllocation] may be missing from the answer
    ([dayInLifeData.timeAllocation || {}]). *)
Module DayInLife.
Record t : Type := {
  typicalDay : string;
  responsibilities : list string;
  kpis : list string;
  stressors : list string;
  timeAllocation : option (gmap string Q);
}.
End DayInLife.

Module ToolsResponse.
Record t : Type := {
  currentTools : list CurrentTool.t;
  toolGaps : list string;
}.
End ToolsResponse.

(** [const occupationAI = AI({...})]. *)
Module OccupationAI.
Record t : Type := {
  problemStacks : string -> async ProblemStacksResponse.t;
  painPoints : string -> async PainPointsResponse.t;
  workflows : string -> async WorkflowsResponse.t;
  buyingTriggers : string -> async BuyingTriggersResponse.t;
  aiOpportunity : string -> async AIOpportunityResponse.t;
  dayInLife : string -> async DayInLife.t;
  toolsAndTechnology : string -> async ToolsResponse.t;
  messagingHooks : string -> async MessagingHooks.t;
}.
End OccupationAI.

Module BudgetAuthority.
Inductive t : Type := none | small | moderate | large | unlimited.
End BudgetAuthority.

Module DecisionRole.
Inductive t : Type := user | influencer | decision_maker | economic_buyer | blocker.
End DecisionRole.

Module OccupationAIOpportunity.
Record t : Type := {
  tasks : list AITask.t;
  totalAutomationPotential : string;
  aiReadiness : string;
}.
End OccupationAIOpportunity.

(** [EnrichedOccupation] with all its fields ([EnrichedOccupation.t]
    above holds the ones that generate-startup.ts reads). *)
Module EnrichedOccupationRecord.
Record t : Type := {
  occupationId : string;
  typicalDay : string;
  responsibilities : list string;
  kpis : list string;
  stressors : list string;
  problemStacks : list ProblemStack.t;
  topProblemIds : list string;
  painPoints : list PainPoint.t;
  topPainPointIds : list string;
  workflows : list Workflow.t;
  timeAllocation : gmap string Q;
  currentTools : list CurrentTool.t;
  toolGaps : list string;
  buyingTriggers : list BuyingTrigger.t;
  budgetAuthority : BudgetAuthority.t;
  decisionRole : DecisionRole.t;
  aiOpportunity : OccupationAIOpportunity.t;
  messagingHooks : MessagingHooks.t;
}.
End EnrichedOccupationRecord.

Module EnrichOccupationOptions.
Record t : Type := {
  depth : option Depth;
  industryContext : option string;
  includeWorkflows : option bool;
  includeMessaging : option bool;
}.
End EnrichOccupationOptions.

(** ** enrich-occupation.ts *)

Definition determineBudgetAuthority (occupation : Occupation.t) : BudgetAuthority.t :=
  let name := JS.toLowerCase (Occupation.name occupation) in
  if JSText.includes "chief" name || JSText.includes "ceo" name
     || JSText.includes "president" name
  then BudgetAuthority.unlimited
  else if JSText.includes "director" name || JSText.includes "vp" name
          || JSText.includes "vice president" name
  then BudgetAuthority.large
  else if JSText.includes "manager" name || JSText.includes "head" name
  then BudgetAuthority.moderate
  else if JSText.includes "lead" name || JSText.includes "senior" name
  then BudgetAuthority.small
  else BudgetAuthority.none.

Definition determineDecisionRole (occupation : Occupation.t) : DecisionRole.t :=
  let name := JS.toLowerCase (Occupation.name occupation) in
  if JSText.includes "chief" name || JSText.includes "ceo" name
     || JSText.includes "cfo" name
  then DecisionRole.economic_buyer
  else if JSText.includes "director" name || JSText.includes "vp" name
          || JSText.includes "head" name
  then DecisionRole.decision_maker
  else if JSText.includes "manager" name || JSText.includes "lead" name
  then DecisionRole.influencer
  else DecisionRole.user.

Definition occupationContext (occupation : Occupation.t) (industryContext : option string)
    : string :=
"
Occupation: " +:+ Occupation.name occupation +:+ "
O*NET Code: " +:+ Occupation.occupationCode occupation +:+ "
Description: " +:+ Occupation.description occupation +:+ "
" +:+ JSText.whenSet industryContext (fun c => "Industry Context: " +:+ c) +:+ "
".

(** [depth === 'basic' ? a : depth === 'standard' ? b : c]. *)
Definition byDepth (depth : Depth) (a b c : string) : string :=
  match depth with
  | basic => a
  | standard => b
  | comprehensive => c
  end.

Definition problemStacksPrompt (occupation : Occupation.t) (depth : Depth) (context : string)
    : string :=
"
Analyze the " +:+ Occupation.name occupation +:+ " role and identify the " +:+ byDepth depth "3" "5" "7" +:+ " most significant problems they face that a software/AI solution could address.

" +:+ context +:+ "

For each problem, provide a complete StoryBrand-style analysis:
- External problem: The tangible, visible manifestation
- Internal problem: How it makes them feel, their fears and desires
- Philosophical problem: Why this situation is unjust, what should be

Also provide the story elements: stakes, transformation, and a clear plan + CTA.
Focus on problems where AI/software could genuinely help.
".

Definition painPointsPrompt (occupation : Occupation.t) (depth : Depth) (context : string)
    : string :=
"
Identify " +:+ byDepth depth "5-7" "8-12" "12-15" +:+ " specific pain points for the " +:+ Occupation.name occupation +:+ " role.

" +:+ context +:+ "

For each pain point, analyze severity, frequency, current workarounds, and willingness to pay for a solution.
Focus on pain points that represent real opportunities for software/AI products.
".

Definition workflowsPrompt (occupation : Occupation.t) (depth : Depth) (context : string)
    : string :=
"
Map the " +:+ byDepth depth "2-3" "3-5" "5-7" +:+ " most important workflows performed by a " +:+ Occupation.name occupation +:+ ".

" +:+ context +:+ "

For each workflow, break down the steps, tools used, time spent, and automation potential.
Focus on workflows where AI could provide significant value.
".

(** [depth === 'basic' ? '3-4' : '5-7']. *)
Definition buyingTriggersPrompt (occupation : Occupation.t) (depth : Depth) (context : string)
    : string :=
"
Identify " +:+ byDepth depth "3-4" "5-7" "5-7" +:+ " key buying triggers for the " +:+ Occupation.name occupation +:+ " role.

" +:+ context +:+ "

What events or situations trigger them to look for new software tools?
What's their budget authority and decision-making role?
".

Definition aiOpportunityPrompt (occupation : Occupation.t) (context : string) : string :=
"
Analyze the AI automation opportunity for the " +:+ Occupation.name occupation +:+ " role.

" +:+ context +:+ "

Which tasks could be augmented, partially automated, or fully automated by AI?
What's the overall automation potential and how ready is this persona to adopt AI?
".

Definition dayInLifePrompt (occupation : Occupation.t) (context : string) : string :=
"
Describe a typical day in the life of a " +:+ Occupation.name occupation +:+ ".

" +:+ context +:+ "

Include responsibilities, KPIs they're measured on, main stressors, and time allocation.
".

Definition toolsPrompt (occupation : Occupation.t) (context : string) : string :=
"
Analyze the tools and technology used by a typical " +:+ Occupation.name occupation +:+ ".

" +:+ context +:+ "

What tools do they currently use? How satisfied are they? Where are the gaps?
".

Definition messagingPrompt (occupation : Occupation.t) (context : string) : string :=
"
Create marketing messaging hooks for software targeting " +:+ Occupation.name occupation +:+ " professionals.

" +:+ context +:+ "

Generate attention-grabbing headlines, email subjects, ad copy, social posts, and common objections with responses.
Make the copy specific to their pain points and aspirations.
".

Definition enrichOccupation (occupationAI : OccupationAI.t) (occupation : Occupation.t)
    (options : EnrichOccupationOptions.t) : async EnrichedOccupationRecord.t :=
  let depth := default standard (EnrichOccupationOptions.depth options) in
  let includeWorkflows := default true (EnrichOccupationOptions.includeWorkflows options) in
  let includeMessaging := default true (EnrichOccupationOptions.includeMessaging options) in
  let context :=
    occupationContext occupation (EnrichOccupationOptions.industryContext options) in
  problemStacks ← OccupationAI.problemStacks occupationAI
                     (problemStacksPrompt occupation depth context);
  painPoints ← OccupationAI.painPoints occupationAI (painPointsPrompt occupation depth context);
  workflows ←
    (if includeWorkflows
     then WorkflowsResponse.workflows <$>
            OccupationAI.workflows occupationAI (workflowsPrompt occupation depth context)
     else mret []);
  buyingTriggers ← OccupationAI.buyingTriggers occupationAI
                      (buyingTriggersPrompt occupation depth context);
  aiOpportunity ← OccupationAI.aiOpportunity occupationAI
                     (aiOpportunityPrompt occupation context);
  dayInLife ← OccupationAI.dayInLife occupationAI (dayInLifePrompt occupation context);
  toolsAndTech ← OccupationAI.toolsAndTechnology occupationAI (toolsPrompt occupation context);
  messagingHooks ←
    (if includeMessaging
     then Some <$> OccupationAI.messagingHooks occupationAI (messagingPrompt occupation context)
     else mret None);
  let problemStacksArray := ProblemStacksResponse.stacks problemStacks in
  let painPointsArray := PainPointsResponse.points painPoints in
  mret
    {| EnrichedOccupationRecord.occupationId := Occupation.id occupation;
       EnrichedOccupationRecord.typicalDay := DayInLife.typicalDay dayInLife;
       EnrichedOccupationRecord.responsibilities := DayInLife.responsibilities dayInLife;
       EnrichedOccupationRecord.kpis := DayInLife.kpis dayInLife;
       EnrichedOccupationRecord.stressors := DayInLife.stressors dayInLife;
       EnrichedOccupationRecord.problemStacks := problemStacksArray;
       EnrichedOccupationRecord.topProblemIds :=
         ProblemStack.id <$> JS.slice 0 3 problemStacksArray;
       EnrichedOccupationRecord.painPoints := painPointsArray;
       EnrichedOccupationRecord.topPainPointIds :=
         PainPoint.id <$> JS.slice 0 3 painPointsArray;
       EnrichedOccupationRecord.workflows := workflows;
       EnrichedOccupationRecord.timeAllocation := default ∅ (DayInLife.timeAllocation dayInLife);
       EnrichedOccupationRecord.currentTools := ToolsResponse.currentTools toolsAndTech;
       EnrichedOccupationRecord.toolGaps := ToolsResponse.toolGaps toolsAndTech;
       EnrichedOccupationRecord.buyingTriggers := BuyingTriggersResponse.triggers buyingTriggers;
       EnrichedOccupationRecord.budgetAuthority := determineBudgetAuthority occupation;
       EnrichedOccupationRecord.decisionRole := determineDecisionRole occupation;
       EnrichedOccupationRecord.aiOpportunity :=
         {| OccupationAIOpportunity.tasks := AIOpportunityResponse.tasks aiOpportunity;
            OccupationAIOpportunity.totalAutomationPotential :=
              AIOpportunityResponse.totalAutomationPotential aiOpportunity;
            OccupationAIOpportunity.aiReadiness :=
              AIOpportunityResponse.aiReadiness aiOpportunity |};
       EnrichedOccupationRecord.messagingHooks :=
         default
           {| MessagingHooks.headlines := [];
              MessagingHooks.emailSubjects := [];
              MessagingHooks.adCopy := [];
              MessagingHooks.socialPosts := [];
              MessagingHooks.objections := [] |}
           messagingHooks |}.

(** ** Vocabulary of the statements on the rest of the code *)

(** What the function that awaits a promise sees of it, its value apart:
    the time it takes to settle, and the error when it rejects. *)
Definition signal {A} (p : async A) : nat * option error :=
  (elapsed p, match settled p with Fulfilled _ => None | Rejected e => Some e end).

(** Calls awaited one after the other, each started when the one before
    it has fulfilled: the time until the first rejection, with its error,
    or until the last call has fulfilled. *)
Fixpoint awaitEach (calls : list (nat * option error)) : nat * option error :=
  match calls with
  | [] => (0, None)
  | (t, Some e) :: _ => (t, Some e)
  | (t, None) :: rest => let (t', r) := awaitEach rest in (t + t', r)
  end.

(** The calls of the collaborator that [enrichIndustry] asks for under
    the given options, in the order of the source text. *)
Definition industryCalls (industryAI : IndustryAI.t) (industry : Industry.t)
    (options : EnrichIndustryOptions.t) : list (nat * option error) :=
  let depth := default standard (EnrichIndustryOptions.depth options) in
  [ signal (IndustryAI.businessTypes industryAI (businessTypesPrompt industry depth));
    signal (IndustryAI.businessModelCanvas industryAI (canvasPrompt industry)) ]
  ++ (if default true (EnrichIndustryOptions.includeCompetitors options)
      then [signal (IndustryAI.competitiveLandscape industryAI (competitorsPrompt industry))]
      else [])
  ++ (if default true (EnrichIndustryOptions.includeTrends options)
      then [signal (IndustryAI.industryTrends industryAI (trendsPrompt industry depth))]
      else [])
  ++ (if default true (EnrichIndustryOptions.includeAIAnalysis options)
      then [signal (IndustryAI.aiReadiness industryAI (aiPrompt industry))]
      else [])
  ++ [ signal (IndustryAI.marketSize industryAI (marketSizePrompt industry)) ].

(** [a] comes in [l], and no [b] comes before its first occurrence. *)
Definition precedes (a b : string) (l : list string) : Prop :=
  exists before after, l = (before ++ a :: after)%list /\ (a ∉ before) /\ (b ∉ before).

(** The business types that [extractRegulations] reports. *)
Definition regulated (bt : BusinessType.t) : Prop :=
  MarketDynamics.regulation (BusinessType.marketDynamics bt) = "heavy"
  \/ MarketDynamics.regulation (BusinessType.marketDynamics bt) = "moderate".

(** [part.toLowerCase().replace(/[^a-z0-9-]/g, '')]: what is left of a
    part of a concept id. *)
Definition cleaned (part : string) : string := JS.strip (JS.toLowerCase part).

(** The four entity parts of a concept id. *)
Definition conceptParts (input : GenerateConceptInput.t) : list string :=
  [ StartupHypothesis.id (GenerateConceptInput.hypothesis input);
    JS.or_else (Occupation.id <$> GenerateConceptInput.occupation input) "gen";
    JS.or_else (Industry.id <$> GenerateConceptInput.industry input) "gen";
    JS.or_else (Process.id <$> GenerateConceptInput.process input) "gen" ].

(** The input of [generateStartupIdeas] with every candidate list cut
    after its 20th entry. *)
Definition firstTwenty (input : GenerateIdeasInput.t) : GenerateIdeasInput.t :=
  {| GenerateIdeasInput.hypothesis := GenerateIdeasInput.hypothesis input;
     GenerateIdeasInput.occupations := take 20 <$> GenerateIdeasInput.occupations input;
     GenerateIdeasInput.industries := take 20 <$> GenerateIdeasInput.industries input;
     GenerateIdeasInput.processes := take 20 <$> GenerateIdeasInput.processes input;
     GenerateIdeasInput.count := GenerateIdeasInput.count input |}.

(** The slots of [ProcessDiagrams], each with the type of diagram that
    belongs in it. *)
Definition processDiagramSlots (d : ProcessDiagrams.t)
    : list (MermaidDiagram.t * MermaidDiagramType.t) :=
  [ (ProcessDiagrams.flowchart d, MermaidDiagramType.flowchart);
    (ProcessDiagrams.sequence d, MermaidDiagramType.sequence);
    (ProcessDiagrams.stateDiagram d, MermaidDiagramType.stateDiagram);
    (ProcessDiagrams.erDiagram d, MermaidDiagramType.erDiagram);
    (ProcessDiagrams.journey d, MermaidDiagramType.journey) ].

(** The calls that [enrichProcess] awaits under the given options, in the
    order of the source text; the five diagram calls are one entry, the
    [Promise.all] that is awaited. *)
Definition processCalls (processAI : ProcessAI.t) (process : Process.t)
    (options : EnrichProcessOptions.t) : list (nat * option error) :=
  let context :=
    processContext process (EnrichProcessOptions.industryContext options)
      (EnrichProcessOptions.occupationContext options) in
  [ signal (ProcessAI.processCharacteristics processAI (characteristicsPrompt process context));
    signal (ProcessAI.bottlenecks processAI (bottlenecksPrompt process context));
    signal (ProcessAI.automationOpportunities processAI (automationPrompt process context)) ]
  ++ (if default true (EnrichProcessOptions.includeDiagrams options)
      then [signal (Promise.all (diagramCalls processAI process context))]
      else []).

(** The calls that [enrichTask] awaits under the given options, in the
    order of the source text. *)
Definition taskCalls (taskAI : TaskAI.t) (task : Task.t) (options : EnrichTaskOptions.t)
    : list (nat * option error) :=
  let context :=
    taskContext task (EnrichTaskOptions.processContext options)
      (EnrichTaskOptions.occupationContext options) in
  [ signal (TaskAI.taskCharacteristics taskAI (taskCharacteristicsPrompt task context));
    signal (TaskAI.taskDependencies taskAI (taskDependenciesPrompt task context));
    signal (TaskAI.taskAutomation taskAI (taskAutomationPrompt task context)) ]
  ++ (if default true (EnrichTaskOptions.includeDiagrams options)
      then signal (TaskAI.taskFlowchart taskAI (taskFlowchartPrompt task context))
           :: (if involvesActors task
               then [signal (TaskAI.taskSequence taskAI (taskSequencePrompt task context))]
               else [])
      else []).

(** The calls that [enrichOccupation] awaits under the given options, in
    the order of the source text. *)
Definition occupationCalls (occupationAI : OccupationAI.t) (occupation : Occupation.t)
    (options : EnrichOccupationOptions.t) : list (nat * option error) :=
  let depth := default standard (EnrichOccupationOptions.depth options) in
  let context :=
    occupationContext occupation (EnrichOccupationOptions.industryContext options) in
  [ signal (OccupationAI.problemStacks occupationAI
              (problemStacksPrompt occupation depth context));
    signal (OccupationAI.painPoints occupationAI (painPointsPrompt occupation depth context)) ]
  ++ (if default true (EnrichOccupationOptions.includeWorkflows options)
      then [signal (OccupationAI.workflows occupationAI
                      (workflowsPrompt occupation depth context))]
      else [])
  ++ [ signal (OccupationAI.buyingTriggers occupationAI
                 (buyingTriggersPrompt occupation depth context));
       signal (OccupationAI.aiOpportunity occupationAI (aiOpportunityPrompt occupation context));
       signal (OccupationAI.dayInLife occupationAI (dayInLifePrompt occupation context));
       signal (OccupationAI.toolsAndTechnology occupationAI (toolsPrompt occupation context)) ]
  ++ (if default true (EnrichOccupationOptions.includeMessaging options)
      then [signal (OccupationAI.messagingHooks occupationAI
                      (messagingPrompt occupation context))]
      else []).

(** The options with another [depth]. *)
Definition processOptionsAt (depth : option Depth) (options : EnrichProcessOptions.t)
    : EnrichProcessOptions.t :=
  {| EnrichProcessOptions.depth := depth;
     EnrichProcessOptions.industryContext := EnrichProcessOptions.industryContext options;
     EnrichProcessOptions.occupationContext := EnrichProcessOptions.occupationContext options;
     EnrichProcessOptions.includeDiagrams := EnrichProcessOptions.includeDiagrams options |}.

Definition taskOptionsAt (depth : option Depth) (options : EnrichTaskOptions.t)
    : EnrichTaskOptions.t :=
  {| EnrichTaskOptions.depth := depth;
     EnrichTaskOptions.processContext := EnrichTaskOptions.processContext options;
     EnrichTaskOptions.occupationContext := EnrichTaskOptions.occupationContext options;
     EnrichTaskOptions.includeDiagrams := EnrichTaskOptions.includeDiagrams options |}.

(** The words that make [generateTaskDiagrams] ask for a sequence
    diagram. *)
Definition actorWords : list string := ["coordinate"; "collaborate"; "communicate"].

(** ** More sample data *)

(** The collaborator [steadyAI] with its three optional analyses out of
    service. *)
Definition coreOnlyAI : IndustryAI.t :=
  {| IndustryAI.businessTypes := IndustryAI.businessTypes steadyAI;
     IndustryAI.businessModelCanvas := IndustryAI.businessModelCanvas steadyAI;
     IndustryAI.competitiveLandscape := fun _ => Async 9 (Rejected "model unavailable");
     IndustryAI.industryTrends := fun _ => Async 9 (Rejected "model unavailable");
     IndustryAI.aiReadiness := fun _ => Async 9 (Rejected "model unavailable");
     IndustryAI.marketSize := IndustryAI.marketSize steadyAI |}.

Definition sampleDiagram (title : string) : DiagramResponse.t :=
  {| DiagramResponse.title := title;
     DiagramResponse.description := "";
     DiagramResponse.code := "graph TD; A-->B" |}.

(** A collaborator for enrich-process.ts that answers every prompt: the
    analyses after 2 ticks each, the diagrams after 3, 5, 1, 4 and 2. *)
Definition steadyProcessAI : ProcessAI.t :=
  {| ProcessAI.processCharacteristics := fun _ =>
       Async 2 (Fulfilled
         {| ProcessCharacteristics.maturityLevel := "defined";
            ProcessCharacteristics.variability := "variable";
            ProcessCharacteristics.documentation := "partial";
            ProcessCharacteristics.cycleTime := "3-5 days";
            ProcessCharacteristics.throughput := "100/day";
            ProcessCharacteristics.qualityRate := "95%";
            ProcessCharacteristics.costPerExecution := "$50" |});
     ProcessAI.bottlenecks := fun _ =>
       Async 2 (Fulfilled
         {| BottlenecksResponse.bottlenecks := [];
            BottlenecksResponse.handoffPoints := [] |});
     ProcessAI.automationOpportunities := fun _ =>
       Async 2 (Fulfilled
         {| AutomationResponse.opportunities := [];
            AutomationResponse.systemsTouched := ["ERP"];
            AutomationResponse.dataFlows := [] |});
     ProcessAI.flowchartDiagram := fun _ => Async 3 (Fulfilled (sampleDiagram "Flow"));
     ProcessAI.sequenceDiagram := fun _ => Async 5 (Fulfilled (sampleDiagram "Actors"));
     ProcessAI.stateDiagram := fun _ => Async 1 (Fulfilled (sampleDiagram "States"));
     ProcessAI.erDiagram := fun _ => Async 4 (Fulfilled (sampleDiagram "Entities"));
     ProcessAI.journeyDiagram := fun _ => Async 2 (Fulfilled (sampleDiagram "Journey")) |}.

Definition processDefaults : EnrichProcessOptions.t :=
  {| EnrichProcessOptions.depth := None;
     EnrichProcessOptions.industryContext := None;
     EnrichProcessOptions.occupationContext := None;
     EnrichProcessOptions.includeDiagrams := None |}.

Definition sampleTask (id description : string) : Task.t :=
  {| Task.ns := "tasks.org.ai";
     Task.type := "Task";
     Task.id := id;
     Task.name := id;
     Task.description := description;
     Task.code := "T1";
     Task.shortName := id;
     Task.sourceType := "ONET";
     Task.verb := "prepare";
     Task.object := "budgets";
     Task.preposition := None;
     Task.prepObject := None;
     Task.source := "onet" |}.

(** A collaborator for the task functions that answers every prompt
    after 1 tick. *)
Definition steadyTaskAI : TaskAI.t :=
  {| TaskAI.taskCharacteristics := fun _ =>
       Async 1 (Fulfilled
         {| TaskCharacteristics.averageTime := "2 hours";
            TaskCharacteristics.frequency := "weekly";
            TaskCharacteristics.complexity := "moderate";
            TaskCharacteristics.errorRate := "5%";
            TaskCharacteristics.businessImpact := "medium";
            TaskCharacteristics.skillRequired := "intermediate" |});
     TaskAI.taskDependencies := fun _ =>
       Async 1 (Fulfilled
         {| TaskDependencies.prerequisites := [];
            TaskDependencies.blockedBy := [];
            TaskDependencies.enables := [] |});
     TaskAI.taskAutomation := fun _ =>
       Async 1 (Fulfilled
         {| TaskAutomation.level := "partial";
            TaskAutomation.currentState := "manual";
            TaskAutomation.barriers := [];
            TaskAutomation.aiApproach := "Draft with a model" |});
     TaskAI.taskFlowchart := fun _ => Async 1 (Fulfilled (sampleDiagram "Steps"));
     TaskAI.taskSequence := fun _ => Async 1 (Fulfilled (sampleDiagram "Actors")) |}.

Definition taskDefaults : EnrichTaskOptions.t :=
  {| EnrichTaskOptions.depth := None;
     EnrichTaskOptions.processContext := None;
     EnrichTaskOptions.occupationContext := None;
     EnrichTaskOptions.includeDiagrams := None |}.

Definition sampleProblemStack (id : string) : ProblemStack.t :=
  {| ProblemStack.id := id;
     ProblemStack.title := id;
     ProblemStack.context := "";
     ProblemStack.external :=
       {| ExternalProblem.problem := "";
          ExternalProblem.manifestations := [];
          ExternalProblem.metrics := [];
          ExternalProblem.villains := [];
          ExternalProblem.cost := "" |};
     ProblemStack.internal :=
       {| InternalProblem.feeling := "";
          InternalProblem.fear := "";
          InternalProblem.doubt := "";
          InternalProblem.desire := "";
          InternalProblem.identity := "" |};
     ProblemStack.philosophical :=
       {| PhilosophicalProblem.injustice := "";
          PhilosophicalProblem.shouldBe := "";
          PhilosophicalProblem.higherPurpose := "";
          PhilosophicalProblem.villain := "" |};
     ProblemStack.stakes := "";
     ProblemStack.transformation := "";
     ProblemStack.successLooksLike := "";
     ProblemStack.guideEmpathy := "";
     ProblemStack.guideAuthority := "";
     ProblemStack.plan := [];
     ProblemStack.cta := "" |}.

Definition samplePainPoint (id : string) : PainPoint.t :=
  {| PainPoint.id := id;
     PainPoint.title := id;
     PainPoint.description := "";
     PainPoint.severity := "frustration";
     PainPoint.frequency := "daily";
     PainPoint.triggers := [];
     PainPoint.consequences := [];
     PainPoint.workarounds := [];
     PainPoint.existingSolutions := [];
     PainPoint.solutionGaps := [];
     PainPoint.idealSolution := "";
     PainPoint.timeWasted := "3 hours";
     PainPoint.costImpact := "";
     PainPoint.willingnessToPay := "high" |}.

(** A collaborator for enrich-occupation.ts that answers every prompt
    after 1 tick, with four problems and two pain points. *)
Definition steadyOccupationAI : OccupationAI.t :=
  {| OccupationAI.problemStacks := fun _ =>
       Async 1 (Fulfilled
         {| ProblemStacksResponse.stacks :=
              sampleProblemStack <$> ["late-close"; "manual-entry"; "audit-risk"; "tool-sprawl"] |});
     OccupationAI.painPoints := fun _ =>
       Async 1 (Fulfilled
         {| PainPointsResponse.points := samplePainPoint <$> ["rekeying"; "chasing"] |});
     OccupationAI.workflows := fun _ =>
       Async 1 (Fulfilled {| WorkflowsResponse.workflows := [] |});
     OccupationAI.buyingTriggers := fun _ =>
       Async 1 (Fulfilled {| BuyingTriggersResponse.triggers := [] |});
     OccupationAI.aiOpportunity := fun _ =>
       Async 1 (Fulfilled
         {| AIOpportunityResponse.tasks := [];
            AIOpportunityResponse.totalAutomationPotential := "40%";
            AIOpportunityResponse.aiReadiness := "curious" |});
     OccupationAI.dayInLife := fun _ =>
       Async 1 (Fulfilled
         {| DayInLife.typicalDay := "Meetings, then the ledger";
            DayInLife.responsibilities := [];
            DayInLife.kpis := [];
            DayInLife.stressors := [];
            DayInLife.timeAllocation := None |});
     OccupationAI.toolsAndTechnology := fun _ =>
       Async 1 (Fulfilled
         {| ToolsResponse.currentTools := [];
            ToolsResponse.toolGaps := [] |});
     OccupationAI.messagingHooks := fun _ =>
       Async 1 (Fulfilled
         {| MessagingHooks.headlines := ["Close the books in a day"];
            MessagingHooks.emailSubjects := [];
            MessagingHooks.adCopy := [];
            MessagingHooks.socialPosts := [];
            MessagingHooks.objections := [] |}) |}.

Definition occupationDefaults : EnrichOccupationOptions.t :=
  {| EnrichOccupationOptions.depth := None;
     EnrichOccupationOptions.industryContext := None;
     EnrichOccupationOptions.includeWorkflows := None;
     EnrichOccupationOptions.includeMessaging := None |}.

(** Two occupations under one id. *)
Definition twoAccountants : list Occupation.t :=
  [ sampleOccupation "Accountant" "Accountant";
    sampleOccupation "Auditor" "Auditor";
    sampleOccupation "Accountant" "Senior Accountant" ].

(** The seed [sampleConceptInput] with its ids written in capitals and
    with spaces. *)
Definition sampleConceptInputLoud : GenerateConceptInput.t :=
  {| GenerateConceptInput.hypothesis := sampleHypothesis;
     GenerateConceptInput.occupation := None;
     GenerateConceptInput.industry := Some (sampleIndustry "Health Care" "Healthcare");
     GenerateConceptInput.process := Some (sampleProcess "GEN" "Generic");
     GenerateConceptInput.enrichedOccupation := None;
     GenerateConceptInput.enrichedIndustry := None |}.

Definition sampleEnrichedIndustry (painPoints : list string) (trends : list IndustryTrend.t)
    : EnrichedIndustry.t :=
  {| EnrichedIndustry.industryId := "Healthcare";
     EnrichedIndustry.businessTypes := [];
     EnrichedIndustry.businessModelCanvas := sampleCanvas;
     EnrichedIndustry.competitiveLandscape := sampleLandscape;
     EnrichedIndustry.trends := trends;
     EnrichedIndustry.painPoints := painPoints;
     EnrichedIndustry.regulations := [];
     EnrichedIndustry.technologyAdoption := innovator;
     EnrichedIndustry.marketSize := sampleMarketSize;
     EnrichedIndustry.aiReadiness := sampleReadiness |}.

Definition sampleEnrichedOccupation (topProblemIds topPainPointIds : list string)
    : EnrichedOccupation.t :=
  {| EnrichedOccupation.occupationId := "FinanceManager";
     EnrichedOccupation.topProblemIds := topProblemIds;
     EnrichedOccupation.topPainPointIds := topPainPointIds;
     EnrichedOccupation.budgetAuthority := "moderate";
     EnrichedOccupation.decisionRole := "influencer";
     EnrichedOccupation.aiOpportunity_aiReadiness := "curious" |}.

(** * Properties *)

(** ** Promises *)

Lemma settled_ret {A} (a b : A) :
  settled (mret a : async A) = Fulfilled b -> a = b.
Proof. cbn. congruence. Qed.

Lemma settled_bind_fulfilled {A B} (m : async A) (k : A -> async B) b :
  settled (m ≫= k) = Fulfilled b ->
  exists a, settled m = Fulfilled a /\ settled (k a) = Fulfilled b.
Proof.
  unfold mbind, async_bind. destruct (settled m) as [a|e]; cbn; [|discriminate].
  intros H. exists a. split; [reflexivity | exact H].
Qed.

Lemma settled_fmap_fulfilled {A B} (f : A -> B) (m : async A) b :
  settled (f <$> m) = Fulfilled b ->
  exists a, settled m = Fulfilled a /\ b = f a.
Proof.
  unfold fmap, async_fmap. intros H.
  apply settled_bind_fulfilled in H as (a & Ha & Hb).
  apply settled_ret in Hb. eauto.
Qed.

Lemma fulfils_bind {A B} (m : async A) (k : A -> async B) :
  fulfils m -> (forall a, fulfils (k a)) -> fulfils (m ≫= k).
Proof.
  intros [a Ha] Hk. destruct (Hk a) as [b Hb]. exists b.
  unfold mbind, async_bind. rewrite Ha. exact Hb.
Qed.

Lemma fulfils_ret {A} (a : A) : fulfils (mret a : async A).
Proof. exists a. reflexivity. Qed.

Lemma fulfils_fmap {A B} (f : A -> B) (m : async A) :
  fulfils m -> fulfils (f <$> m).
Proof. intros H. apply fulfils_bind; [exact H | intros a; apply fulfils_ret]. Qed.

(** Awaiting a promise and returning its value is the promise itself. *)
Lemma bind_ret {A} (m : async A) : (a ← m; mret a) = m.
Proof.
  destruct m as [t [a|e]]; unfold mbind, async_bind; cbn; [|reflexivity].
  f_equal. apply Nat.add_0_r.
Qed.

Lemma fmap_bind_ret {A B} (f : A -> B) (m : async A) :
  f <$> (a ← m; mret a) = f <$> m.
Proof. rewrite bind_ret. reflexivity. Qed.

(** ** enrichIndustry *)

Lemma enrichIndustry_returns industryAI industry options :
  answers industryAI -> fulfils (enrichIndustry industryAI industry options).
Proof.
  intros H. unfold enrichIndustry.
  repeat first
    [ apply fulfils_ret
    | apply fulfils_fmap
    | apply fulfils_bind; [| intros ?]
    | match goal with |- fulfils (if ?b then _ else _) => destruct b end
    | apply H ].
Qed.

(** C10. Whatever the industry and the options, the record that
    [enrichIndustry] returns has every field set: with
    [includeCompetitors] false its competitive landscape is the fixed
    placeholder (empty lists, consolidation trends "Not analyzed"), with
    [includeTrends] false its trends are the empty list, with
    [includeAIAnalysis] false its AI readiness is the fixed default
    (moderate, defined, experimenting, no use cases).  The record is
    returned whenever the collaborator answers the calls. *)
Theorem enrichIndustry_fully_populated industryAI industry options :
  (answers industryAI -> fulfils (enrichIndustry industryAI industry options)) /\
  forall e,
    settled (enrichIndustry industryAI industry options) = Fulfilled e ->
    EnrichedIndustry.industryId e = Industry.id industry /\
    (EnrichIndustryOptions.includeCompetitors options = Some false ->
     EnrichedIndustry.competitiveLandscape e =
       {| CompetitiveLandscape.marketLeaders := [];
          CompetitiveLandscape.emergingPlayers := [];
          CompetitiveLandscape.disruptors := [];
          CompetitiveLandscape.consolidationTrends := "Not analyzed" |}) /\
    (EnrichIndustryOptions.includeTrends options = Some false ->
     EnrichedIndustry.trends e = []) /\
    (EnrichIndustryOptions.includeAIAnalysis options = Some false ->
     EnrichedIndustry.aiReadiness e =
       {| AIReadiness.dataAvailability := "moderate";
          AIReadiness.processStandardization := "defined";
          AIReadiness.aiAdoption := "experimenting";
          AIReadiness.topAIUseCases := [] |}).
Proof.
  split; [apply enrichIndustry_returns|].
  intros e H. unfold enrichIndustry in H.
  apply settled_bind_fulfilled in H as (businessTypes & _ & H).
  apply settled_bind_fulfilled in H as (canvas & _ & H).
  apply settled_bind_fulfilled in H as (landscape & Hlandscape & H).
  apply settled_bind_fulfilled in H as (trends & Htrends & H).
  apply settled_bind_fulfilled in H as (readiness & Hreadiness & H).
  apply settled_bind_fulfilled in H as (marketSize & _ & H).
  apply settled_ret in H. subst e. cbn.
  split; [reflexivity|]. repeat split.
  - intros Hoff. rewrite Hoff in Hlandscape. cbn in Hlandscape.
    injection Hlandscape as <-. reflexivity.
  - intros Hoff. rewrite Hoff in Htrends. cbn in Htrends.
    injection Htrends as <-. reflexivity.
  - intros Hoff. rewrite Hoff in Hreadiness. cbn in Hreadiness.
    injection Hreadiness as <-. reflexivity.
Qed.

Lemma steadyAI_answers : answers steadyAI.
Proof. intros prompt. repeat split; eexists; reflexivity. Qed.

Lemma enrichIndustry_fully_populated_witness :
  exists e,
    settled (enrichIndustry steadyAI (sampleIndustry "Healthcare" "Healthcare") bareOptions)
      = Fulfilled e /\
    EnrichedIndustry.industryId e = "Healthcare" /\
    CompetitiveLandscape.consolidationTrends (EnrichedIndustry.competitiveLandscape e)
      = "Not analyzed" /\
    EnrichedIndustry.trends e = [] /\
    AIReadiness.aiAdoption (EnrichedIndustry.aiReadiness e) = "experimenting".
Proof.
  destruct (enrichIndustry_fully_populated steadyAI
              (sampleIndustry "Healthcare" "Healthcare") bareOptions)
    as [Hreturns Hfields].
  destruct (Hreturns steadyAI_answers) as [e He].
  destruct (Hfields e He) as (Hid & Hlandscape & Htrends & Hreadiness).
  exists e. split; [exact He|]. split; [exact Hid|].
  rewrite (Hlandscape eq_refl), (Htrends eq_refl), (Hreadiness eq_refl).
  repeat split.
Defined.

(** ** scoreStartupConcept *)

Lemma scoreStartupConcept_is_answer startupAI concept enrichedIndustry enrichedOccupation :
  scoreStartupConcept startupAI concept enrichedIndustry enrichedOccupation
  = StartupAI.viabilityScore startupAI
      (scorePrompt concept enrichedIndustry enrichedOccupation).
Proof. unfold scoreStartupConcept. apply bind_ret. Qed.

(** The thresholds of the specification at their boundaries. *)
Example spec_tier_boundaries :
  spec_tier 90 = TierS /\ spec_tier 75 = TierA /\ spec_tier 60 = TierB /\
  spec_tier 40 = TierC /\ spec_tier (399 # 10) = TierD /\
  spec_tier (899 # 10) = TierA.
Proof. repeat split. Qed.

Example spec_recommendation_labels :
  Recommendation_label <$> (spec_recommendation <$> [TierS; TierA; TierB; TierC; TierD])
  = ["pursue-aggressively"; "test-hypothesis"; "explore-further"; "deprioritize"; "skip"].
Proof. reflexivity. Qed.

(** C2, as stated, fails: the collaborator answers with an overall score
    of 95, tier D and recommendation pursue-aggressively, and
    [scoreStartupConcept] returns that answer; the thresholds give tier S
    for 95, and the mapping gives skip for tier D. *)
Lemma scoreStartupConcept_tier_not_derived :
  exists v,
    settled (scoreStartupConcept (cannedStartupAI incoherentScore None)
               sampleConcept None None) = Fulfilled v /\
    ViabilityScore.tier v <> spec_tier (ViabilityScore.overall v) /\
    ViabilityScore.recommendation v <> spec_recommendation (ViabilityScore.tier v).
Proof. exists incoherentScore. repeat split; discriminate. Qed.

(** C2, amended. The tier and the recommendation of the score that
    [scoreStartupConcept] returns are those of the collaborator's answer
    to the scoring prompt, unchanged (and the call fails when the
    collaborator does): the code applies no threshold and no mapping of
    its own. *)
Theorem scoreStartupConcept_tier_is_answered
    startupAI concept enrichedIndustry enrichedOccupation :
  (fun v => (ViabilityScore.tier v, ViabilityScore.recommendation v)) <$>
    scoreStartupConcept startupAI concept enrichedIndustry enrichedOccupation
  = (fun v => (ViabilityScore.tier v, ViabilityScore.recommendation v)) <$>
    StartupAI.viabilityScore startupAI
      (scorePrompt concept enrichedIndustry enrichedOccupation).
Proof. rewrite scoreStartupConcept_is_answer. reflexivity. Qed.

(** The aggregate of the specification on its end-to-end scenario 2. *)
Example spec_aggregate_scenario :
  spec_aggregate (dimensionList (ViabilityScore.dimensions scenarioScore)) = 66%Z.
Proof. reflexivity. Qed.

(** C3, as stated, fails: every dimension of the collaborator's answer
    scores 100, with weights that sum to 1, so the weighted mean is 100;
    the overall score that [scoreStartupConcept] returns is the 95 of the
    answer. *)
Lemma scoreStartupConcept_overall_not_aggregated :
  exists v,
    settled (scoreStartupConcept (cannedStartupAI incoherentScore None)
               sampleConcept None None) = Fulfilled v /\
    (0 < Qsum (ViabilityDimension.weight <$> dimensionList (ViabilityScore.dimensions v)))%Q /\
    spec_aggregate (dimensionList (ViabilityScore.dimensions v)) = 100%Z /\
    ViabilityScore.overall v = 95%Q.
Proof. exists incoherentScore. repeat split. Qed.

Lemma fmap_fmap_async {A B C} (f : A -> B) (g : B -> C) (m : async A) :
  g <$> (f <$> m) = (fun a => g (f a)) <$> m.
Proof.
  destruct m as [t [a|e]]; unfold fmap, async_fmap, mbind, async_bind; cbn;
    [|reflexivity].
  f_equal. lia.
Qed.

(** C3, amended. The overall score that [scoreStartupConcept] returns is
    the overall score of the collaborator's answer, not recomputed from
    the dimension scores and weights; so it stays the same when every
    weight of the answer is multiplied by one constant [k]. *)
Theorem scoreStartupConcept_overall_is_answered
    startupAI k concept enrichedIndustry enrichedOccupation :
  ViabilityScore.overall <$>
    scoreStartupConcept startupAI concept enrichedIndustry enrichedOccupation
  = ViabilityScore.overall <$>
    StartupAI.viabilityScore startupAI
      (scorePrompt concept enrichedIndustry enrichedOccupation)
  /\
  ViabilityScore.overall <$>
    scoreStartupConcept (rescaled k startupAI) concept enrichedIndustry enrichedOccupation
  = ViabilityScore.overall <$>
    scoreStartupConcept startupAI concept enrichedIndustry enrichedOccupation.
Proof.
  rewrite !scoreStartupConcept_is_answer. split; [reflexivity|].
  cbn. rewrite fmap_fmap_async. reflexivity.
Qed.

(** ** generateConceptId *)

(** C5, as stated, fails: two calls with the same input, one millisecond
    apart, return different ids. *)
Lemma generateConceptId_differs_across_calls :
  generateConceptId sampleConceptInput 1730000000000
  <> generateConceptId sampleConceptInput 1730000000001.
Proof. vm_compute. discriminate. Qed.

(** C5, amended. The concept id is a function of the hypothesis id, of
    the occupation, industry and process ids of the seed, and of the clock
    reading that makes its suffix: two calls with the same ids and the
    same clock reading return the same id. *)
Theorem generateConceptId_deterministic (input1 input2 : GenerateConceptInput.t) (now : N) :
  StartupHypothesis.id (GenerateConceptInput.hypothesis input1)
    = StartupHypothesis.id (GenerateConceptInput.hypothesis input2) ->
  Occupation.id <$> GenerateConceptInput.occupation input1
    = Occupation.id <$> GenerateConceptInput.occupation input2 ->
  Industry.id <$> GenerateConceptInput.industry input1
    = Industry.id <$> GenerateConceptInput.industry input2 ->
  Process.id <$> GenerateConceptInput.process input1
    = Process.id <$> GenerateConceptInput.process input2 ->
  generateConceptId input1 now = generateConceptId input2 now.
Proof.
  intros Hh Ho Hi Hp. unfold generateConceptId.
  rewrite Hh, Ho, Hi, Hp. reflexivity.
Qed.

Lemma generateConceptId_deterministic_witness :
  sampleConceptInput <> sampleConceptInput' /\
  generateConceptId sampleConceptInput 1730000000000
  = generateConceptId sampleConceptInput' 1730000000000 /\
  generateConceptId sampleConceptInput 1730000000000
  = "ai-services-gen-healthcare-gen-m2r1bz7k".
Proof.
  split; [discriminate|]. split.
  - apply (generateConceptId_deterministic sampleConceptInput sampleConceptInput');
      reflexivity.
  - reflexivity.
Defined.

(** ** generateStartupIdeas *)

(** C6, as stated, fails: the hypothesis requires the occupation
    dimension and there is no occupation candidate, yet
    [generateStartupIdeas] returns the idea that the collaborator
    answers; and when the collaborator fails, the call fails. *)
Lemma generateStartupIdeas_ignores_required_dimension :
  HypothesisConstraints.requireOccupation
    (StartupHypothesis.constraints (GenerateIdeasInput.hypothesis ideasWithoutOccupations))
    = true /\
  GenerateIdeasInput.occupations ideasWithoutOccupations = Some [] /\
  settled (generateStartupIdeas (cannedStartupAI scenarioScore (Some [sampleIdea]))
             ideasWithoutOccupations) = Fulfilled [sampleIdea] /\
  settled (generateStartupIdeas downStartupAI ideasWithoutOccupations)
    = Rejected "model unavailable".
Proof. repeat split. Qed.

(** C6, amended. [generateStartupIdeas] does not read the constraints of
    the hypothesis: whatever the required-dimension flags and the
    candidate lists, it asks the collaborator for ideas once and returns
    the ideas of the answer, the empty list when the answer holds none; a
    failure of the collaborator is the failure of the call. *)
Theorem generateStartupIdeas_forwards startupAI input constraints :
  generateStartupIdeas startupAI input
  = (fun result => default [] (StartupIdeasResponse.ideas result)) <$>
    StartupAI.startupIdeas startupAI (ideasPrompt input)
  /\
  generateStartupIdeas startupAI (withConstraints input constraints)
  = generateStartupIdeas startupAI input.
Proof. split; reflexivity. Qed.

(** ** Filter engine *)

(** C8. A filter that holds only a result cap [n] returns the first [n]
    entities of the input, as they are and in the order of the input: at
    most [n] of them. *)
Theorem apply_capOnly (entities : list DimensionEntity.t) (n : nat) :
  apply entities (capOnly n) = take n entities /\
  length (apply entities (capOnly n)) <= n /\
  prefix (apply entities (capOnly n)) entities.
Proof.
  assert (apply entities (capOnly n) = take n entities) as -> by reflexivity.
  split; [reflexivity|]. split.
  - rewrite length_take. lia.
  - exists (drop n entities). symmetry. apply take_drop.
Qed.

(** ** WorkflowExecution status *)

(** C9, as stated, fails: the status of a [WorkflowExecution] has no
    [cancelled] value. *)
Lemma WorkflowExecution_status_has_no_cancelled :
  ("cancelled" ∉ WorkflowExecutionStatus_values) /\
  parseWorkflowExecutionStatus "cancelled" = None.
Proof.
  split; [|reflexivity]. unfold WorkflowExecutionStatus_values.
  rewrite !elem_of_cons, elem_of_nil.
  intros [H|[H|[H|[H|[H|[]]]]]]; discriminate H.
Qed.

(** C9, amended. The status of a [WorkflowExecution] is one of pending,
    running, completed, failed and paused, and nothing else: the schema
    accepts exactly these five strings, none of which is [cancelled]. *)
Theorem WorkflowExecution_status_values_exact :
  (forall s, is_Some (parseWorkflowExecutionStatus s)
             <-> s ∈ ["pending"; "running"; "completed"; "failed"; "paused"]) /\
  (forall v, parseWorkflowExecutionStatus (WorkflowExecutionStatus_label v) = Some v /\
             WorkflowExecutionStatus_label v <> "cancelled").
Proof.
  split.
  - intros s. unfold parseWorkflowExecutionStatus.
    rewrite !elem_of_cons, elem_of_nil.
    repeat case_bool_decide; subst; split; intros Hyp; eauto 10.
    + destruct Hyp as [x Hx]. discriminate Hx.
    + destruct Hyp as [?|[?|[?|[?|[?|[]]]]]]; congruence.
  - intros []; split; first [reflexivity | discriminate].
Qed.

(** ** Pipeline orchestrator *)

Lemma find_fmap {A} (p : A -> bool) (f : A -> A) (l : list A) :
  (forall x, p (f x) = p x) -> List.find p (f <$> l) = f <$> List.find p l.
Proof.
  intros Hp. induction l as [|x l IH]; cbn; [reflexivity|].
  rewrite Hp. destruct (p x); [reflexivity | exact IH].
Qed.

Lemma fmap_fixed_In {A} (f : A -> A) (l : list A) :
  f <$> l = l -> forall x, In x l -> f x = x.
Proof.
  induction l as [|y l IH]; cbn; intros H x Hx; [contradiction|].
  injection H as Hy Hl. destruct Hx as [<-|Hx]; [exact Hy | exact (IH Hl x Hx)].
Qed.

(** A function that leaves alone what [p] rejects, and what it keeps
    accepted by [p], can only lower the count of [p]; when the count
    stays, nothing has moved. *)
Lemma fmap_count_fixed {A} (p : A -> bool) (f : A -> A) (l : list A) :
  (forall x, p (f x) = true -> f x = x) ->
  (forall x, p x = false -> f x = x) ->
  length (List.filter p (f <$> l)) <= length (List.filter p l) /\
  (length (List.filter p (f <$> l)) = length (List.filter p l) -> f <$> l = l).
Proof.
  intros Hkeep Hskip. induction l as [|x l [IHle IHeq]]; cbn; [split; [lia|reflexivity]|].
  destruct (p x) eqn:Hx.
  - destruct (p (f x)) eqn:Hfx; cbn.
    + rewrite (Hkeep x Hfx). split; [lia|]. intros H. f_equal. apply IHeq. lia.
    + split; [lia|]. intros H. lia.
  - rewrite (Hskip x Hx), Hx. split; [exact IHle|]. intros H. f_equal. exact (IHeq H).
Qed.

Section Orchestrator.

Variable ops : operations.

Lemma settle_static s status output error :
  PipelineStep.id (settle s status output error) = PipelineStep.id s /\
  PipelineStep.function (settle s status output error) = PipelineStep.function s /\
  PipelineStep.input (settle s status output error) = PipelineStep.input s /\
  dependencies (settle s status output error) = dependencies s.
Proof. repeat split. Qed.

Lemma advance_static steps s :
  PipelineStep.id (advance ops steps s) = PipelineStep.id s /\
  PipelineStep.function (advance ops steps s) = PipelineStep.function s /\
  PipelineStep.input (advance ops steps s) = PipelineStep.input s /\
  dependencies (advance ops steps s) = dependencies s.
Proof.
  unfold advance.
  destruct (PipelineStep.status s); try (repeat split; fail).
  destruct (existsb _ _); [apply settle_static|].
  destruct (forallb _ _); [|repeat split].
  destruct (ops _ _); apply settle_static.
Qed.

Lemma advance_settled steps s :
  isPending s = false -> advance ops steps s = s.
Proof. unfold isPending, advance. destruct (PipelineStep.status s); congruence. Qed.

Lemma advance_still_pending steps s :
  isPending (advance ops steps s) = true -> advance ops steps s = s.
Proof.
  unfold advance, isPending.
  destruct (PipelineStep.status s) eqn:Hs; try (rewrite Hs; discriminate).
  destruct (existsb _ _); [discriminate|].
  destruct (forallb _ _); [|reflexivity].
  destruct (ops _ _); discriminate.
Qed.

Lemma stepById_scan steps id :
  stepById id (scan ops steps) = advance ops steps <$> stepById id steps.
Proof.
  unfold stepById, scan. apply find_fmap.
  intros s. destruct (advance_static steps s) as [-> _]. reflexivity.
Qed.

Lemma stepById_created steps id :
  stepById id (created steps)
  = (fun s => settle s step_pending None None) <$> stepById id steps.
Proof. unfold stepById, created. apply find_fmap. intros s. reflexivity. Qed.

Lemma scans_succ n steps : scans ops (S n) steps = scan ops (scans ops n steps).
Proof.
  revert steps. induction n as [|n IH]; intros steps; [reflexivity|].
  change (scans ops (S n) (scan ops steps) = scan ops (scans ops n (scan ops steps))).
  apply IH.
Qed.

Lemma scans_add a b steps : scans ops (a + b) steps = scans ops b (scans ops a steps).
Proof. revert steps. induction a as [|a IH]; intros steps; [reflexivity|]. cbn. apply IH. Qed.

Lemma scans_fixed n steps : scan ops steps = steps -> scans ops n steps = steps.
Proof. intros H. induction n as [|n IH]; [reflexivity|]. cbn. rewrite H. exact IH. Qed.

Lemma scan_pendingCount steps :
  pendingCount (scan ops steps) <= pendingCount steps /\
  (pendingCount (scan ops steps) = pendingCount steps -> scan ops steps = steps).
Proof.
  unfold pendingCount, scan. apply fmap_count_fixed.
  - apply advance_still_pending.
  - apply advance_settled.
Qed.

(** One scan per pending step reaches a state that no scan moves. *)
Lemma scans_reach_rest n steps :
  pendingCount steps <= n -> scan ops (scans ops n steps) = scans ops n steps.
Proof.
  revert steps. induction n as [|n IH]; intros steps Hn; cbn.
  - apply scan_pendingCount. pose proof (scan_pendingCount steps) as [Hle _]. lia.
  - destruct (scan_pendingCount steps) as [Hle Heq].
    destruct (decide (pendingCount (scan ops steps) = pendingCount steps)) as [He|Hne].
    + rewrite (Heq He). rewrite (scans_fixed n steps (Heq He)). exact (Heq He).
    + apply IH. lia.
Qed.

Lemma pendingCount_length steps : pendingCount steps <= length steps.
Proof. unfold pendingCount. apply List.filter_length_le. Qed.

Lemma executeWorkflow_at_rest steps :
  scan ops (executeWorkflow ops steps) = executeWorkflow ops steps.
Proof.
  unfold executeWorkflow. apply scans_reach_rest.
  etransitivity; [apply pendingCount_length|]. rewrite length_fmap. reflexivity.
Qed.

Lemma dependencyCompleted_scan steps d :
  dependencyCompleted steps d = true -> dependencyCompleted (scan ops steps) d = true.
Proof.
  unfold dependencyCompleted. rewrite stepById_scan.
  destruct (stepById d steps) as [a|]; cbn; [|discriminate].
  destruct (PipelineStep.status a) eqn:Ha; try discriminate.
  rewrite advance_settled; [rewrite Ha; reflexivity|].
  unfold isPending. rewrite Ha. reflexivity.
Qed.

Lemma consistent_scan steps : consistent steps -> consistent (scan ops steps).
Proof.
  intros Hc s' Hs'. unfold scan in Hs'.
  apply list_elem_of_In, list_elem_of_fmap in Hs' as (s & -> & Hs).
  apply list_elem_of_In in Hs. destruct (Hc s Hs) as [Hrun Hdeps].
  destruct (advance_static steps s) as (_ & _ & _ & Hsame). rewrite Hsame.
  unfold advance, launched in *.
  destruct (PipelineStep.status s) eqn:Hstatus.
  - destruct (existsb _ _) eqn:Hbroken.
    { cbn. split; [discriminate|]. intros [H|H]; discriminate H. }
    destruct (forallb _ _) eqn:Hall.
    + assert (forall d, In d (dependencies s) ->
                dependencyCompleted (scan ops steps) d = true) as Hdone.
      { intros d Hd. apply dependencyCompleted_scan.
        rewrite forallb_forall in Hall. exact (Hall d Hd). }
      destruct (ops _ _); cbn; (split; [discriminate|]); intros _; exact Hdone.
    + rewrite Hstatus. split; [discriminate|]. intros [H|H]; discriminate H.
  - contradiction.
  - rewrite Hstatus. split; [discriminate|].
    intros H d Hd. apply dependencyCompleted_scan. exact (Hdeps H d Hd).
  - rewrite Hstatus. split; [discriminate|].
    intros H d Hd. apply dependencyCompleted_scan. exact (Hdeps H d Hd).
  - rewrite Hstatus. split; [discriminate|]. intros [H|H]; discriminate H.
Qed.

Lemma consistent_created steps : consistent (created steps).
Proof.
  intros s Hs. unfold created in Hs.
  apply list_elem_of_In, list_elem_of_fmap in Hs as (s0 & -> & _). cbn.
  split; [discriminate|]. intros [H|H]; discriminate H.
Qed.

Lemma consistent_scans n steps : consistent steps -> consistent (scans ops n steps).
Proof.
  revert steps. induction n as [|n IH]; intros steps H; [exact H|].
  cbn. apply IH, consistent_scan, H.
Qed.

(** A step downstream of a failed or skipped step ends skipped. *)
Lemma executeWorkflow_propagates steps s d a :
  In s (executeWorkflow ops steps) ->
  In d (dependencies s) ->
  stepById d (executeWorkflow ops steps) = Some a ->
  PipelineStep.status a = step_failed \/ PipelineStep.status a = step_skipped ->
  PipelineStep.status s = step_skipped.
Proof.
  intros Hs Hd Ha Hbroken.
  pose proof (fmap_fixed_In _ _ (executeWorkflow_at_rest steps) s Hs) as Hrest.
  assert (consistent (executeWorkflow ops steps)) as Hc
    by apply consistent_scans, consistent_created.
  destruct (Hc s Hs) as [Hrun Hdeps].
  assert (dependencyBroken (executeWorkflow ops steps) d = true) as Hb.
  { unfold dependencyBroken. rewrite Ha. destruct Hbroken as [-> | ->]; reflexivity. }
  assert (dependencyCompleted (executeWorkflow ops steps) d = false) as Hn.
  { unfold dependencyCompleted. rewrite Ha. destruct Hbroken as [-> | ->]; reflexivity. }
  destruct (PipelineStep.status s) eqn:Hstatus; try reflexivity.
  - exfalso. unfold advance in Hrest. rewrite Hstatus in Hrest.
    assert (existsb (dependencyBroken (executeWorkflow ops steps)) (dependencies s) = true)
      as He by (apply existsb_exists; eauto).
    rewrite He in Hrest. rewrite <- Hrest in Hstatus. discriminate Hstatus.
  - contradiction.
  - rewrite (Hdeps (or_introl Hstatus) d Hd) in Hn. discriminate Hn.
  - rewrite (Hdeps (or_intror Hstatus) d Hd) in Hn. discriminate Hn.
Qed.

End Orchestrator.

Section IndependentBranches.

Variable ops : operations.
Variable steps : list PipelineStep.t.

(** A step whose operation succeeds, and whose dependencies are never
    broken and are all completed from scan [depth] on, is pending or
    completed after every scan, and completed after scan [depth]. *)
Lemma valid_step_completes depth id s0 :
  stepById id steps = Some s0 ->
  succeeded (ops (PipelineStep.function s0) (PipelineStep.input s0)) = true ->
  (forall d k, In d (dependencies s0) ->
     dependencyBroken (scans ops k (created steps)) d = false /\
     (depth <= k -> dependencyCompleted (scans ops k (created steps)) d = true)) ->
  forall k, exists s,
    stepById id (scans ops k (created steps)) = Some s /\
    PipelineStep.function s = PipelineStep.function s0 /\
    PipelineStep.input s = PipelineStep.input s0 /\
    dependencies s = dependencies s0 /\
    (PipelineStep.status s = step_pending \/ PipelineStep.status s = step_completed) /\
    (depth < k -> PipelineStep.status s = step_completed).
Proof.
  intros H0 Hok Hup k. induction k as [|k (s & Hs & Hf & Hi & Hd & Hstatus & Hdone)].
  - exists (settle s0 step_pending None None).
    change (scans ops 0 (created steps)) with (created steps).
    rewrite stepById_created, H0. repeat split; [left; reflexivity | lia].
  - exists (advance ops (scans ops k (created steps)) s).
    rewrite scans_succ, stepById_scan, Hs.
    split; [reflexivity|].
    destruct (advance_static ops (scans ops k (created steps)) s) as (_ & -> & -> & ->).
    repeat (split; [assumption|]).
    destruct Hstatus as [Hpending|Hcompleted].
    + unfold advance. rewrite Hpending, Hd.
      destruct (existsb _ _) eqn:Hbroken.
      { apply existsb_exists in Hbroken as (d & Hin & Hb).
        destruct (Hup d k Hin) as [Hnb _]. congruence. }
      destruct (forallb _ _) eqn:Hall.
      * rewrite Hf, Hi. destruct (ops _ _); [discriminate Hok|].
        cbn. split; [right; reflexivity | reflexivity].
      * split; [left; exact Hpending|]. intros Hlt. exfalso.
        assert (forallb (dependencyCompleted (scans ops k (created steps)))
                  (dependencies s0) = true) as Hyes.
        { apply forallb_forall. intros d Hin. apply (Hup d k Hin). lia. }
        congruence.
    + rewrite advance_settled by (unfold isPending; rewrite Hcompleted; reflexivity).
      split; [right; exact Hcompleted | intros _; exact Hcompleted].
Qed.

Lemma upstreamValid_progress depth :
  forall id, upstreamValid ops steps depth id = true ->
  forall k, exists s,
    stepById id (scans ops k (created steps)) = Some s /\
    (PipelineStep.status s = step_pending \/ PipelineStep.status s = step_completed) /\
    (depth < k -> PipelineStep.status s = step_completed).
Proof.
  induction depth as [|depth IH]; intros id Hv k; cbn in Hv;
    destruct (stepById id steps) as [s0|] eqn:H0; try discriminate Hv;
    apply andb_true_iff in Hv as [Hok Hdeps].
  - apply bool_decide_eq_true in Hdeps.
    destruct (valid_step_completes 0 id s0 H0 Hok) with (k := k)
      as (s & Hs & _ & _ & _ & Hstatus & Hdone).
    { intros d k' Hin. rewrite Hdeps in Hin. contradiction. }
    exists s. auto.
  - destruct (valid_step_completes (S depth) id s0 H0 Hok) with (k := k)
      as (s & Hs & _ & _ & _ & Hstatus & Hdone).
    { intros d k' Hin. rewrite forallb_forall in Hdeps.
      destruct (IH d (Hdeps d Hin) k') as (a & Ha & Hst & Hcomp).
      unfold dependencyBroken, dependencyCompleted. rewrite Ha. split.
      - destruct Hst as [-> | ->]; reflexivity.
      - intros Hle. rewrite Hcomp by lia. reflexivity. }
    exists s. auto.
Qed.

(** A step whose operation and whose upstream operations all succeed
    ends completed, whatever fails elsewhere in the DAG. *)
Lemma executeWorkflow_completes depth id :
  upstreamValid ops steps depth id = true ->
  exists s, stepById id (executeWorkflow ops steps) = Some s /\
            PipelineStep.status s = step_completed.
Proof.
  intros Hv.
  destruct (upstreamValid_progress depth id Hv (length steps + S depth))
    as (s & Hs & _ & Hdone).
  exists s. split; [|apply Hdone; lia].
  rewrite scans_add in Hs.
  change (scans ops (length steps) (created steps)) with (executeWorkflow ops steps) in Hs.
  rewrite scans_fixed in Hs by apply executeWorkflow_at_rest. exact Hs.
Qed.

End IndependentBranches.

(** C7. In a run of the orchestrator, a step with a dependency that ends
    failed or skipped ends skipped, never completed; and a step whose own
    operation and upstream operations succeed ends completed, whatever
    fails on the other branches. *)
Theorem executeWorkflow_failure_propagation (ops : operations) (steps : list PipelineStep.t) :
  (forall s d a,
     In s (executeWorkflow ops steps) ->
     In d (dependencies s) ->
     stepById d (executeWorkflow ops steps) = Some a ->
     PipelineStep.status a = step_failed \/ PipelineStep.status a = step_skipped ->
     PipelineStep.status s = step_skipped /\ PipelineStep.status s <> step_completed) /\
  (forall depth id,
     upstreamValid ops steps depth id = true ->
     exists s, stepById id (executeWorkflow ops steps) = Some s /\
               PipelineStep.status s = step_completed).
Proof.
  split.
  - intros s d a Hs Hd Ha Hbroken.
    rewrite (executeWorkflow_propagates ops steps s d a Hs Hd Ha Hbroken).
    split; [reflexivity | discriminate].
  - intros depth id. apply executeWorkflow_completes.
Qed.

Lemma executeWorkflow_failure_propagation_witness :
  PipelineStep.status <$> executeWorkflow enrichmentDown diamond
    = [step_failed; step_skipped; step_skipped; step_skipped; step_completed] /\
  (exists b, stepById "D" (executeWorkflow enrichmentDown diamond) = Some b /\
             PipelineStep.status b = step_skipped) /\
  (exists e, stepById "E" (executeWorkflow enrichmentDown diamond) = Some e /\
             PipelineStep.status e = step_completed).
Proof.
  destruct (executeWorkflow_failure_propagation enrichmentDown diamond)
    as [Hpropagates Hcompletes].
  split; [reflexivity|]. split.
  - eexists. split; [reflexivity|].
    eapply (Hpropagates _ "C").
    + cbn. right. right. right. left. reflexivity.
    + cbn. right. left. reflexivity.
    + reflexivity.
    + right. reflexivity.
  - apply (Hcompletes 0 "E"). reflexivity.
Defined.

(** ** Promise.all *)

Lemma first_rejection_None {A} (ps : list (async A)) :
  Promise.first_rejection ps = None <-> forall p, p ∈ ps -> fulfils p.
Proof.
  induction ps as [|p ps IH]; cbn.
  - split; [intros _ p Hp; inversion Hp | reflexivity].
  - destruct (settled p) as [a|e] eqn:Hp.
    + rewrite IH. split.
      * intros H p' Hp'. apply elem_of_cons in Hp' as [->|Hp']; [exists a; exact Hp | exact (H p' Hp')].
      * intros H p' Hp'. apply H. apply elem_of_cons. right. exact Hp'.
    + split.
      * destruct (Promise.first_rejection ps) as [[t' e']|]; [destruct (Nat.leb _ _)|]; discriminate.
      * intros H. destruct (H p) as [a Ha]; [apply elem_of_cons; left; reflexivity|].
        congruence.
Qed.

Lemma first_rejection_Some {A} (ps : list (async A)) t e :
  Promise.first_rejection ps = Some (t, e) ->
  exists p, p ∈ ps /\ settled p = Rejected e /\ elapsed p = t.
Proof.
  revert t e. induction ps as [|p ps IH]; cbn; intros t e H; [discriminate|].
  assert (forall t e, Promise.first_rejection ps = Some (t, e) ->
            exists p', p' ∈ p :: ps /\ settled p' = Rejected e /\ elapsed p' = t) as IH'.
  { intros t' e' H'. destruct (IH t' e' H') as (p' & Hin & Hp').
    exists p'. split; [apply elem_of_cons; right; exact Hin | exact Hp']. }
  assert (forall e, settled p = Rejected e ->
            exists p', p' ∈ p :: ps /\ settled p' = Rejected e /\ elapsed p' = elapsed p) as Hhead.
  { intros e' He'. exists p. split; [apply elem_of_cons; left; reflexivity | auto]. }
  destruct (settled p) as [a|e0].
  - apply IH'. exact H.
  - destruct (Promise.first_rejection ps) as [[t' e']|].
    + destruct (Nat.leb (elapsed p) t'); injection H as <- <-; [apply Hhead | apply IH']; reflexivity.
    + injection H as <- <-. apply Hhead. reflexivity.
Qed.

Lemma all_rejected {A} (ps : list (async A)) e :
  settled (Promise.all ps) = Rejected e ->
  exists p, p ∈ ps /\ settled p = Rejected e.
Proof.
  unfold Promise.all.
  destruct (Promise.first_rejection ps) as [[t e']|] eqn:H; cbn; [|discriminate].
  intros [= <-]. destruct (first_rejection_Some ps t e' H) as (p & Hin & Hp & _). eauto.
Qed.

Lemma all_fulfilled {A} (ps : list (async A)) vs :
  settled (Promise.all ps) = Fulfilled vs ->
  (forall p, p ∈ ps -> fulfils p) /\
  vs = Promise.values ps /\
  elapsed (Promise.all ps) = max_list (elapsed <$> ps).
Proof.
  unfold Promise.all.
  destruct (Promise.first_rejection ps) as [[t e']|] eqn:H; cbn; [discriminate|].
  intros [= <-]. split; [exact (proj1 (first_rejection_None ps) H) | auto].
Qed.

Lemma all_fulfils {A} (ps : list (async A)) :
  (forall p, p ∈ ps -> fulfils p) -> fulfils (Promise.all ps).
Proof.
  intros H. unfold Promise.all. rewrite (proj2 (first_rejection_None ps) H).
  eexists. reflexivity.
Qed.

Lemma values_fulfilled {A B} (f : A -> async B) (xs : list A) :
  (forall x, x ∈ xs -> fulfils (f x)) ->
  Forall2 (fun x v => settled (f x) = Fulfilled v) xs (Promise.values (f <$> xs)).
Proof.
  induction xs as [|x xs IH]; cbn; intros H; [constructor|].
  destruct (H x) as [v Hv]; [apply elem_of_cons; left; reflexivity|].
  rewrite Hv. constructor; [exact Hv|].
  apply IH. intros y Hy. apply H. apply elem_of_cons. right. exact Hy.
Qed.

(** ** The batch loop *)

Lemma div_in_chunk q c n : q * c <= n < q * c + c -> n / c = q.
Proof.
  intros H. symmetry. apply (Nat.div_unique n c q (n - q * c)); lia.
Qed.

Lemma chunk_of_index c n : 0 < c -> (n / c) * c <= n < (n / c) * c + c.
Proof.
  intros Hc. pose proof (Nat.div_mod_eq n c) as Hdiv.
  pose proof (Nat.mod_upper_bound n c ltac:(lia)) as Hmod. lia.
Qed.

Section BatchProperties.

Context {T R : Type}.
Variable key : T -> string.
Variable work : T -> async R.
Variable concurrency : nat.
Variable items : list T.
Hypothesis positive : 0 < concurrency.


Lemma chunk_take q : chunk concurrency items q = take concurrency (drop (q * concurrency) items).
Proof.
  unfold chunk, JS.slice.
  replace (q * concurrency + concurrency - q * concurrency) with concurrency by lia.
  reflexivity.
Qed.

Lemma chunk_lookup q j x :
  chunk concurrency items q !! j = Some x <-> j < concurrency /\ items !! (q * concurrency + j) = Some x.
Proof. rewrite chunk_take, lookup_take_Some, lookup_drop. tauto. Qed.

Lemma chunk_length q : length (chunk concurrency items q) = concurrency `min` (length items - q * concurrency).
Proof. rewrite chunk_take, length_take, length_drop. reflexivity. Qed.

Lemma drop_chunk q :
  drop (q * concurrency) items = (chunk concurrency items q ++ drop (S q * concurrency) items)%list.
Proof.
  rewrite chunk_take.
  replace (S q * concurrency) with (q * concurrency + concurrency) by lia.
  rewrite <- drop_drop. symmetry. apply take_drop.
Qed.

Lemma elem_of_startAll i now batch c :
  c ∈ startAll key work i now batch <->
  exists j x, batch !! j = Some x /\
              c = Call (i + j) (key x) now (now + elapsed (work x)).
Proof.
  unfold startAll. rewrite elem_of_lookup_imap.
  split; intros (j & x & H1 & H2); exists j, x; auto.
Qed.

Lemma batchFrom_total fuel q now results :
  length items <= q * concurrency + fuel ->
  is_Some (batchFrom key work concurrency fuel items (q * concurrency) now results).
Proof.
  revert q now results. induction fuel as [|fuel IH]; intros q now results Hfuel; cbn.
  - rewrite bool_decide_eq_false_2 by lia. eexists. reflexivity.
  - case_bool_decide; [|eexists; reflexivity].
    destruct (settled (Promise.all _)) as [values|e]; [|eexists; reflexivity].
    replace (q * concurrency + concurrency) with (S q * concurrency) by lia.
    destruct (IH (S q) (now + elapsed (Promise.all (work <$>
                JS.slice (q * concurrency) (S q * concurrency) items)))
                (setAll key results (JS.slice (q * concurrency) (S q * concurrency) items) values))
      as [[later r] ->]; [lia|].
    eexists. reflexivity.
Qed.

Lemma batchFrom_Run fuel q now results log r :
  batchFrom key work concurrency fuel items (q * concurrency) now results = Some (log, r) ->
  Run key work concurrency items q now results log r.
Proof.
  revert q now results log r.
  induction fuel as [|fuel IH]; intros q now results log r; cbn.
  - case_bool_decide; [discriminate|]. intros [= <- <-]. apply Run_done. lia.
  - case_bool_decide; [|intros [= <- <-]; apply Run_done; lia].
    fold (chunk concurrency items q).
    destruct (settled (Promise.all (work <$> chunk concurrency items q))) as [values|e] eqn:Hall.
    + replace (q * concurrency + concurrency) with (S q * concurrency) by lia.
      destruct (batchFrom _ _ _ fuel _ _ _ _) as [[later r']|] eqn:Hrest; [|discriminate].
      intros [= <- <-]. apply (Run_next _ _ _ _ _ _ _ values); [assumption..|].
      apply IH. exact Hrest.
    + intros [= <- <-]. apply Run_rejected; assumption.
Qed.

Lemma startAll_items i now batch :
  call_item <$> startAll key work i now batch = key <$> batch.
Proof.
  apply list_eq. intros j. unfold startAll.
  rewrite !list_lookup_fmap, list_lookup_imap.
  destruct (batch !! j); reflexivity.
Qed.

Lemma startAll_length i now batch : length (startAll key work i now batch) = length batch.
Proof. apply length_imap. Qed.

(** The calls of chunk [q]: their index lies in the chunk, they start
    together, and each settles when its item's work does. *)
Lemma startAll_facts q now c :
  c ∈ startAll key work (q * concurrency) now (chunk concurrency items q) ->
  call_index c / concurrency = q /\
  call_start c = now /\
  exists x, x ∈ chunk concurrency items q /\ call_end c = now + elapsed (work x).
Proof.
  intros Hc. apply elem_of_startAll in Hc as (j & x & Hx & ->). cbn.
  pose proof (list_elem_of_lookup_2 _ _ _ Hx) as Hin.
  apply chunk_lookup in Hx as [Hj _].
  split; [apply div_in_chunk; lia|]. split; [reflexivity|]. eauto.
Qed.

Lemma chunk_settles q x values :
  settled (Promise.all (work <$> chunk concurrency items q)) = Fulfilled values ->
  x ∈ chunk concurrency items q ->
  elapsed (work x) <= elapsed (Promise.all (work <$> chunk concurrency items q)).
Proof.
  intros Hall Hx. apply all_fulfilled in Hall as (_ & _ & ->).
  apply max_list_elem_of_le. do 2 apply list_elem_of_fmap_2. exact Hx.
Qed.

Lemma chunk_fulfilled q values :
  settled (Promise.all (work <$> chunk concurrency items q)) = Fulfilled values ->
  Forall2 (fun x v => settled (work x) = Fulfilled v) (chunk concurrency items q) values.
Proof.
  intros Hall. apply all_fulfilled in Hall as (Hful & -> & _).
  apply values_fulfilled. intros x Hx. apply Hful, list_elem_of_fmap_2, Hx.
Qed.

(** The [k]-th call of a run that enters chunk [q] is the call for item
    [q * concurrency + k]. *)
Lemma Run_log q now results log r :
  Run key work concurrency items q now results log r ->
  forall k c, log !! k = Some c ->
    call_index c = q * concurrency + k /\
    now <= call_start c /\
    exists x, items !! (q * concurrency + k) = Some x /\
              call_item c = key x /\
              call_end c = call_start c + elapsed (work x).
Proof.
  assert (forall q now k c, startAll key work (q * concurrency) now (chunk concurrency items q) !! k = Some c ->
            call_index c = q * concurrency + k /\
            now <= call_start c /\
            exists x, items !! (q * concurrency + k) = Some x /\
                      call_item c = key x /\
                      call_end c = call_start c + elapsed (work x)) as Hcalls.
  { intros q' now' k c Hk. unfold startAll in Hk.
    apply list_lookup_imap_Some in Hk as (x & Hx & ->).
    apply chunk_lookup in Hx as [_ Hx]. cbn. eauto 10. }
  induction 1 as [q now results Hlen
                 |q now results e Hlt Hrej
                 |q now results values later r Hlt Hful Hrun IH]; intros k c Hk.
  - rewrite lookup_nil in Hk. discriminate Hk.
  - apply Hcalls, Hk.
  - apply lookup_app_Some in Hk as [Hk|[Hge Hk]]; [apply Hcalls, Hk|].
    rewrite startAll_length in Hge, Hk.
    destruct (IH _ _ Hk) as (Hidx & Hstart & x & Hx & Hitem & Hend).
    pose proof (lookup_lt_Some _ _ _ Hx) as Hbound.
    pose proof (chunk_length q) as Hfull.
    replace (q * concurrency + k)
      with (S q * concurrency + (k - length (chunk concurrency items q))) by lia.
    split; [exact Hidx|]. split; [lia|]. eauto.
Qed.

Lemma Run_later q now results log r c :
  Run key work concurrency items q now results log r -> c ∈ log ->
  q <= call_index c / concurrency /\ now <= call_start c.
Proof.
  intros Hrun Hc. apply list_elem_of_lookup in Hc as [k Hk].
  destruct (Run_log _ _ _ _ _ Hrun k c Hk) as (-> & Hstart & _).
  split; [|exact Hstart]. apply Nat.div_le_lower_bound; lia.
Qed.

(** Calls of one chunk start together; a call of a later chunk starts
    when every call of the earlier chunk has settled. *)
Lemma Run_chunks q now results log r :
  Run key work concurrency items q now results log r ->
  forall a b, a ∈ log -> b ∈ log ->
    (call_index a / concurrency = call_index b / concurrency ->
     call_start a = call_start b) /\
    (call_index a / concurrency < call_index b / concurrency ->
     call_end a <= call_start b).
Proof.
  assert (forall q now a b,
            a ∈ startAll key work (q * concurrency) now (chunk concurrency items q) ->
            b ∈ startAll key work (q * concurrency) now (chunk concurrency items q) ->
            (call_index a / concurrency = call_index b / concurrency ->
             call_start a = call_start b) /\
            (call_index a / concurrency < call_index b / concurrency ->
             call_end a <= call_start b)) as Hcalls.
  { intros q' now' a b Ha Hb.
    apply startAll_facts in Ha as (Ha & Hsa & _).
    apply startAll_facts in Hb as (Hb & Hsb & _).
    split; [congruence | lia]. }
  induction 1 as [q now results Hlen
                 |q now results e Hlt Hrej
                 |q now results values later r Hlt Hful Hrun IH]; intros a b Ha Hb.
  - inversion Ha.
  - apply (Hcalls q now); assumption.
  - apply elem_of_app in Ha as [Ha|Ha]; apply elem_of_app in Hb as [Hb|Hb].
    + apply (Hcalls q now); assumption.
    + apply startAll_facts in Ha as (Ha & Hsa & x & Hx & Hea).
      destruct (Run_later _ _ _ _ _ b Hrun Hb) as [Hqb Hsb].
      pose proof (chunk_settles q x values Hful Hx) as Hsettles.
      split; lia.
    + apply startAll_facts in Hb as (Hb & Hsb & _).
      destruct (Run_later _ _ _ _ _ a Hrun Ha) as [Hqa Hsa].
      split; lia.
    + apply IH; assumption.
Qed.

Lemma in_flight_app log1 log2 at_ :
  in_flight (log1 ++ log2) at_ = in_flight log1 at_ + in_flight log2 at_.
Proof. unfold in_flight. rewrite filter_app, length_app. reflexivity. Qed.

Lemma in_flight_length log at_ : in_flight log at_ <= length log.
Proof. apply length_filter. Qed.

Lemma in_flight_none log at_ :
  (forall c, c ∈ log -> ~ (call_start c <= at_ < call_end c)) -> in_flight log at_ = 0.
Proof.
  unfold in_flight. induction log as [|c log IH]; intros H; [reflexivity|].
  rewrite filter_cons. destruct (decide _) as [Hyes|Hno].
  - exfalso. apply (H c); [apply elem_of_cons; left; reflexivity | exact Hyes].
  - apply IH. intros c' Hc'. apply H. apply elem_of_cons. right. exact Hc'.
Qed.

(** At every instant, at most [concurrency] calls are in flight. *)
Lemma Run_in_flight q now results log r :
  Run key work concurrency items q now results log r -> forall at_, in_flight log at_ <= concurrency.
Proof.
  assert (forall q now at_,
            in_flight (startAll key work (q * concurrency) now (chunk concurrency items q)) at_
            <= concurrency) as Hcalls.
  { intros q' now' at_. etransitivity; [apply in_flight_length|].
    rewrite startAll_length, chunk_length. lia. }
  induction 1 as [q now results Hlen
                 |q now results e Hlt Hrej
                 |q now results values later r Hlt Hful Hrun IH]; intros at_.
  - cbn. lia.
  - apply Hcalls.
  - rewrite in_flight_app.
    destruct (decide (at_ < now + elapsed (Promise.all (work <$> chunk concurrency items q)))) as [Hearly|Hlate].
    + rewrite (in_flight_none later).
      * pose proof (Hcalls q now at_). lia.
      * intros c Hc. destruct (Run_later _ _ _ _ _ c Hrun Hc) as [_ Hstart]. lia.
    + rewrite (in_flight_none (startAll _ _ _ _ _)).
      * apply IH.
      * intros c Hc. apply startAll_facts in Hc as (_ & _ & x & Hx & ->).
        pose proof (chunk_settles q x values Hful Hx). lia.
Qed.

(** The calls of a run are the calls for a prefix of the items it was
    entered with, in their order. *)
Lemma Run_items q now results log r :
  Run key work concurrency items q now results log r ->
  call_item <$> log = key <$> take (length log) (drop (q * concurrency) items).
Proof.
  induction 1 as [q now results Hlen
                 |q now results e Hlt Hrej
                 |q now results values later r Hlt Hful Hrun IH].
  - reflexivity.
  - rewrite startAll_items, startAll_length, drop_chunk, take_app_length. reflexivity.
  - rewrite fmap_app, startAll_items, IH, length_app, startAll_length.
    rewrite (drop_chunk q), take_app_add, fmap_app. reflexivity.
Qed.

Lemma setAll_cons (results : gmap string R) x batch (v : R) values :
  setAll key results (x :: batch) (v :: values)
  = setAll key (<[key x := v]> results) batch values.
Proof. reflexivity. Qed.

Lemma setAll_keeps (results : gmap string R) (batch : list T) values k :
  is_Some (results !! k) -> is_Some (setAll key results batch values !! k).
Proof.
  revert results values. induction batch as [|x batch IH]; intros results values H;
    [exact H|].
  destruct values as [|v values]; [exact H|].
  rewrite setAll_cons. apply IH. apply lookup_insert_is_Some'. right. exact H.
Qed.

Lemma setAll_sets (results : gmap string R) batch values y :
  Forall2 (fun x v => settled (work x) = Fulfilled v) batch values ->
  y ∈ batch -> is_Some (setAll key results batch values !! key y).
Proof.
  intros H. revert results. induction H as [|x v batch values _ _ IH]; intros results Hy.
  - inversion Hy.
  - rewrite setAll_cons. apply elem_of_cons in Hy as [->|Hy]; [|apply IH, Hy].
    apply setAll_keeps. rewrite lookup_insert_eq. eexists. reflexivity.
Qed.

Lemma setAll_lookup (results : gmap string R) batch values k v :
  Forall2 (fun x v => settled (work x) = Fulfilled v) batch values ->
  setAll key results batch values !! k = Some v ->
  results !! k = Some v \/
  exists y, y ∈ batch /\ key y = k /\ settled (work y) = Fulfilled v.
Proof.
  intros H. revert results.
  induction H as [|x v0 batch values Hx _ IH]; intros results Hk; [left; exact Hk|].
  rewrite setAll_cons in Hk. destruct (IH _ Hk) as [Hin|(y & Hy & Hkey & Hv)].
  - apply lookup_insert_Some in Hin as [[<- <-]|[_ Hin]]; [|left; exact Hin].
    right. exists x. split; [apply elem_of_cons; left; reflexivity | auto].
  - right. exists y. split; [apply elem_of_cons; right; exact Hy | auto].
Qed.

(** The map that a run returns holds what it was entered with and the
    results of the items from chunk [q] on, each under its key. *)
Lemma Run_map q now results log r :
  Run key work concurrency items q now results log r ->
  forall m, settled r = Fulfilled m ->
    (forall k v, m !! k = Some v ->
       results !! k = Some v \/
       exists y, y ∈ drop (q * concurrency) items /\ key y = k /\
                 settled (work y) = Fulfilled v) /\
    (forall k, is_Some (results !! k) -> is_Some (m !! k)) /\
    (forall y, y ∈ drop (q * concurrency) items -> is_Some (m !! key y)).
Proof.
  induction 1 as [q now results Hlen
                 |q now results e Hlt Hrej
                 |q now results values later r Hlt Hful Hrun IH]; intros m Hm.
  - cbn in Hm. injection Hm as <-. split; [auto|]. split; [auto|].
    intros y Hy. rewrite drop_ge in Hy by exact Hlen. inversion Hy.
  - discriminate Hm.
  - destruct (IH m Hm) as (Hfrom & Hkeeps & Hsets).
    pose proof (chunk_fulfilled q values Hful) as Hvalues.
    rewrite drop_chunk. split; [|split].
    + intros k v Hk. destruct (Hfrom k v Hk) as [Hin|(y & Hy & Hkey & Hv)].
      * destruct (setAll_lookup _ _ _ _ _ Hvalues Hin) as [Hold|(y & Hy & Hkey & Hv)];
          [left; exact Hold|].
        right. exists y. split; [apply elem_of_app; left; exact Hy | auto].
      * right. exists y. split; [apply elem_of_app; right; exact Hy | auto].
    + intros k Hk. apply Hkeeps, setAll_keeps, Hk.
    + intros y Hy. apply elem_of_app in Hy as [Hy|Hy]; [|apply Hsets, Hy].
      apply Hkeeps. apply setAll_sets; assumption.
Qed.

(** When the work fulfils for every item, the run fulfils, having called
    for every item. *)
Lemma Run_fulfils q now results log r :
  Run key work concurrency items q now results log r ->
  (forall x, x ∈ drop (q * concurrency) items -> fulfils (work x)) ->
  exists m, settled r = Fulfilled m /\ length log = length items - q * concurrency.
Proof.
  induction 1 as [q now results Hlen
                 |q now results e Hlt Hrej
                 |q now results values later r Hlt Hful Hrun IH]; intros Hwork.
  - exists results. split; [reflexivity|]. cbn. lia.
  - exfalso. apply all_rejected in Hrej as (p & Hp & Hrejected).
    apply list_elem_of_fmap_1 in Hp as (x & -> & Hx).
    destruct (Hwork x) as [v Hv]; [|congruence].
    rewrite drop_chunk. apply elem_of_app. left. exact Hx.
  - destruct IH as (m & Hm & Hlength).
    { intros x Hx. apply Hwork. rewrite drop_chunk. apply elem_of_app. right. exact Hx. }
    exists m. split; [exact Hm|].
    rewrite length_app, startAll_length, chunk_length, Hlength. lia.
Qed.

(** When the work rejects for item [k] and fulfils for the items before
    it, the run rejects in the chunk of [k], with the error of an item of
    that chunk, having called for the items up to the end of that chunk
    and for no other. *)
Lemma Run_first_failure q now results log r :
  Run key work concurrency items q now results log r ->
  forall k x e,
    q * concurrency <= k ->
    items !! k = Some x ->
    settled (work x) = Rejected e ->
    (forall j y, q * concurrency <= j < k -> items !! j = Some y -> fulfils (work y)) ->
    length log
      = length items `min` ((k / concurrency + 1) * concurrency) - q * concurrency /\
    exists e' j y,
      settled r = Rejected e' /\ j / concurrency = k / concurrency /\
      items !! j = Some y /\ settled (work y) = Rejected e'.
Proof.
  induction 1 as [q now results Hlen
                 |q now results e0 Hlt Hrej
                 |q now results values later r Hlt Hful Hrun IH];
    intros k x e Hk Hx Hfails Hbefore;
    pose proof (lookup_lt_Some _ _ _ Hx) as Hbound;
    pose proof (chunk_of_index concurrency k positive) as Hchunk.
  - lia.
  - apply all_rejected in Hrej as (p & Hp & Hrejected).
    apply list_elem_of_fmap_1 in Hp as (x' & -> & Hx').
    apply list_elem_of_lookup in Hx' as [j' Hj'].
    apply chunk_lookup in Hj' as [Hj' Hitem].
    assert (k <= q * concurrency + j') as Hle.
    { destruct (decide (k <= q * concurrency + j')) as [|Hgt]; [assumption|].
      destruct (Hbefore (q * concurrency + j') x') as [v Hv]; [lia | exact Hitem | congruence]. }
    assert (k / concurrency = q) as Hq by (apply div_in_chunk; lia).
    split.
    + rewrite startAll_length, chunk_length, Hq. lia.
    + exists e0, (q * concurrency + j'), x'. cbn.
      split; [reflexivity|]. split; [rewrite Hq; apply div_in_chunk; lia | auto].
  - assert (S q * concurrency <= k) as Hnext.
    { destruct (decide (S q * concurrency <= k)) as [|Hin]; [assumption|]. exfalso.
      pose proof (chunk_fulfilled q values Hful) as Hvalues.
      assert (chunk concurrency items q !! (k - q * concurrency) = Some x) as Hpart.
      { apply chunk_lookup. split; [lia|].
        replace (q * concurrency + (k - q * concurrency)) with k by lia. exact Hx. }
      destruct (Forall2_lookup_l _ _ _ _ _ Hvalues Hpart) as (v & _ & Hv). congruence. }
    destruct (IH k x e Hnext Hx Hfails) as (Hlength & Hrejects).
    { intros j y Hj. apply Hbefore. lia. }
    split; [|exact Hrejects].
    rewrite length_app, startAll_length, chunk_length, Hlength. lia.
Qed.

End BatchProperties.

Lemma take_min_length {A} (l : list A) n : take (length l `min` n) l = take n l.
Proof.
  destruct (decide (n <= length l)) as [Hle|Hgt].
  - rewrite Nat.min_r by exact Hle. reflexivity.
  - rewrite Nat.min_l by lia. rewrite !take_ge by lia. reflexivity.
Qed.

Lemma runBatch_Run {T R} (key : T -> string) (work : T -> async R) concurrency items :
  0 < concurrency ->
  exists log r,
    runBatch key work concurrency items = Some (log, r) /\
    Run key work concurrency items 0 0 ∅ log r.
Proof.
  intros Hc. unfold runBatch.
  destruct (batchFrom_total key work concurrency items Hc (length items) 0 0 ∅)
    as [[log r] Hrun]; [lia|].
  exists log, r. split; [exact Hrun|].
  apply (batchFrom_Run key work concurrency items Hc (length items) 0). exact Hrun.
Qed.

(** ** The map that the loop builds, the time it takes and where it stops *)

Lemma setAll_app {T R} (key : T -> string) (results : gmap string R)
    (batch1 batch2 : list T) (values1 values2 : list R) :
  length batch1 = length values1 ->
  setAll key results (batch1 ++ batch2)%list (values1 ++ values2)%list
  = setAll key (setAll key results batch1 values1) batch2 values2.
Proof.
  intros Hlen. unfold setAll. rewrite zip_with_app by exact Hlen. apply foldl_app.
Qed.

Lemma setAll_other {T R} (key : T -> string) (results : gmap string R)
    (batch : list T) (values : list R) k :
  (forall y, y ∈ batch -> key y <> k) ->
  setAll key results batch values !! k = results !! k.
Proof.
  revert results values. induction batch as [|x batch IH]; intros results values Hk.
  - reflexivity.
  - destruct values as [|v values]; [reflexivity|].
    rewrite setAll_cons, IH.
    + apply lookup_insert_ne. apply Hk, elem_of_cons. left. reflexivity.
    + intros y Hy. apply Hk, elem_of_cons. right. exact Hy.
Qed.

(** One assignment per item, in order: the last item with a key decides
    what the map holds under it. *)
Lemma setAll_last {T R} (key : T -> string) (results : gmap string R)
    (batch : list T) (values : list R) i x v :
  batch !! i = Some x ->
  values !! i = Some v ->
  (forall j y, i < j -> batch !! j = Some y -> key y <> key x) ->
  setAll key results batch values !! key x = Some v.
Proof.
  revert results values i. induction batch as [|x0 batch IH];
    intros results values i Hx Hv Hlast; [discriminate Hx|].
  destruct values as [|v0 values]; [discriminate Hv|].
  rewrite setAll_cons. destruct i as [|i].
  - injection Hx as ->. injection Hv as ->.
    rewrite setAll_other; [apply lookup_insert_eq|].
    intros y Hy. apply list_elem_of_lookup in Hy as [j Hj].
    apply (Hlast (S j)); [lia | exact Hj].
  - apply (IH _ values i); [exact Hx | exact Hv |].
    intros j y Hj Hy. apply (Hlast (S j)); [lia | exact Hy].
Qed.

Lemma Forall2_fulfilled_values {T R} (work : T -> async R) (xs : list T) (vs : list R) :
  Forall2 (fun x v => settled (work x) = Fulfilled v) xs vs ->
  vs = Promise.values (work <$> xs).
Proof.
  induction 1 as [|x v xs vs Hx _ IH]; [reflexivity|].
  cbn. rewrite Hx, IH. reflexivity.
Qed.

Lemma sum_list_app_fmap {A} (f : A -> nat) (xs ys : list A) :
  sum_list (f <$> (xs ++ ys)%list) = sum_list (f <$> xs) + sum_list (f <$> ys).
Proof. induction xs as [|x xs IH]; cbn; [reflexivity | rewrite IH; lia]. Qed.

Lemma max_list_le_sum_list ns : max_list ns <= sum_list ns.
Proof. induction ns as [|n ns IH]; cbn; lia. Qed.

Lemma all_elapsed_le_sum {A} (ps : list (async A)) :
  elapsed (Promise.all ps) <= sum_list (elapsed <$> ps).
Proof.
  unfold Promise.all. destruct (Promise.first_rejection ps) as [[t e]|] eqn:Hfirst; cbn.
  - apply first_rejection_Some in Hfirst as (p & Hp & _ & <-).
    transitivity (max_list (elapsed <$> ps)); [|apply max_list_le_sum_list].
    apply max_list_elem_of_le, list_elem_of_fmap. eauto.
  - apply max_list_le_sum_list.
Qed.

Section BatchResults.

Context {T R : Type}.
Variable key : T -> string.
Variable work : T -> async R.
Variable concurrency : nat.
Variable items : list T.
Hypothesis positive : 0 < concurrency.

(** The map that a run returns is the map it was entered with, assigned
    the results of the items from chunk [q] on, one after the other. *)
Lemma Run_assigns q now results log r :
  Run key work concurrency items q now results log r ->
  forall m, settled r = Fulfilled m ->
    m = setAll key results (drop (q * concurrency) items)
          (Promise.values (work <$> drop (q * concurrency) items)) /\
    Forall2 (fun x v => settled (work x) = Fulfilled v)
      (drop (q * concurrency) items)
      (Promise.values (work <$> drop (q * concurrency) items)).
Proof.
  induction 1 as [q now results Hlen
                 |q now results e Hlt Hrej
                 |q now results values later r Hlt Hful Hrun IH]; intros m Hm.
  - cbn in Hm. injection Hm as <-. rewrite drop_ge by exact Hlen.
    split; [reflexivity | constructor].
  - discriminate Hm.
  - destruct (IH m Hm) as (-> & Hlater).
    pose proof (chunk_fulfilled work concurrency items q values Hful) as Hvalues.
    assert (Forall2 (fun x v => settled (work x) = Fulfilled v)
              (drop (q * concurrency) items)
              (values ++ Promise.values (work <$> drop (S q * concurrency) items))%list)
      as Hall.
    { rewrite (drop_chunk concurrency items positive q).
      apply Forall2_app; assumption. }
    rewrite <- (Forall2_fulfilled_values _ _ _ Hall). split; [|exact Hall].
    rewrite (drop_chunk concurrency items positive q) at 1.
    symmetry. apply setAll_app. eapply Forall2_length, Hvalues.
Qed.

(** A run ends at or after the instant it is entered, and within the sum
    of the times of its items; when it fulfils, not before any of its
    items has settled. *)
Lemma Run_elapsed q now results log r :
  Run key work concurrency items q now results log r ->
  now <= elapsed r
      <= now + sum_list ((fun x => elapsed (work x)) <$> drop (q * concurrency) items) /\
  (fulfils r ->
   forall x, x ∈ drop (q * concurrency) items -> now + elapsed (work x) <= elapsed r).
Proof.
  induction 1 as [q now results Hlen
                 |q now results e Hlt Hrej
                 |q now results values later r Hlt Hful Hrun IH].
  - cbn. split; [lia|]. intros _ x Hx.
    rewrite drop_ge in Hx by exact Hlen. inversion Hx.
  - cbn. split.
    + pose proof (all_elapsed_le_sum (work <$> chunk concurrency items q)) as Hle.
      rewrite <- list_fmap_compose in Hle.
      rewrite (drop_chunk concurrency items positive q), sum_list_app_fmap.
      unfold compose in Hle. lia.
    + intros [m Hm]. discriminate Hm.
  - destruct IH as (Hbounds & Hlower).
    pose proof (all_elapsed_le_sum (work <$> chunk concurrency items q)) as Hle.
    rewrite <- list_fmap_compose in Hle. unfold compose in Hle.
    rewrite (drop_chunk concurrency items positive q), sum_list_app_fmap.
    split; [lia|].
    intros Hr x Hx. apply elem_of_app in Hx as [Hx|Hx].
    + pose proof (chunk_settles work concurrency items q x values Hful Hx). lia.
    + specialize (Hlower Hr x Hx). lia.
Qed.

End BatchResults.

Section BatchCoverage.

Context {T R : Type}.
Variable key : T -> string.
Variable work : T -> async R.
Variable concurrency : nat.
Variable items : list T.
Hypothesis positive : 0 < concurrency.

(** A run stops only at the end of the items, or at the end of a chunk
    whose [Promise.all] rejects: the chunks that it starts, it starts in
    full. *)
Lemma Run_stops q now results log r :
  Run key work concurrency items q now results log r ->
  (fulfils r /\ length log = length items - q * concurrency) \/
  (exists n e,
     q < n /\ settled r = Rejected e /\
     q * concurrency + length log = length items `min` (n * concurrency)).
Proof.
  induction 1 as [q now results Hlen
                 |q now results e Hlt Hrej
                 |q now results values later r Hlt Hful Hrun IH].
  - left. split; [eexists; reflexivity | cbn; lia].
  - right. exists (S q), e. split; [lia|]. split; [reflexivity|].
    rewrite startAll_length, (chunk_length concurrency items positive). lia.
  - rewrite length_app, startAll_length, (chunk_length concurrency items positive).
    destruct IH as [[Hr Hlength]|(n & e & Hn & Hr & Hlength)].
    + left. split; [exact Hr | lia].
    + right. exists n, e. split; [lia|]. split; [exact Hr|].
      assert (S q * concurrency <= n * concurrency) by (apply Nat.mul_le_mono_r; lia).
      lia.
Qed.

End BatchCoverage.

(** Among items with distinct ids, every item is the last one with its id. *)
Lemma NoDup_keys_last {T} (key : T -> string) (items : list T) i x :
  NoDup (key <$> items) ->
  items !! i = Some x ->
  forall j y, i < j -> items !! j = Some y -> key y <> key x.
Proof.
  intros Hnodup Hx j y Hj Hy Heq.
  assert (i = j); [|lia].
  apply (NoDup_lookup (key <$> items) i j (key x)); [exact Hnodup| |];
    rewrite list_lookup_fmap; [rewrite Hx | rewrite Hy; cbn; rewrite Heq]; reflexivity.
Qed.

(** C4. A batch run takes the items in consecutive chunks of
    [concurrency] items, in input order: the calls of the work function
    that it starts are the calls for the items in order; the calls of one
    chunk start together; a call of a later chunk starts only when every
    call of an earlier chunk has settled; so at most [concurrency] calls
    are in flight at any instant.  Every chunk that is started is started
    in full, and the run goes through all the items unless the
    [Promise.all] of a chunk rejects: it either fulfils, having called for
    every item, or rejects, having called for the items up to the end of a
    chunk; when the work fulfils for every item it fulfils. *)
Theorem runBatch_chunked {T R} (key : T -> string) (work : T -> async R)
    (concurrency : nat) (items : list T) :
  0 < concurrency ->
  exists log r,
    runBatch key work concurrency items = Some (log, r) /\
    (forall k c, log !! k = Some c ->
       call_index c = k /\
       exists x, items !! k = Some x /\ call_item c = key x /\
                 call_end c = call_start c + elapsed (work x)) /\
    (forall a b, a ∈ log -> b ∈ log ->
       (call_index a / concurrency = call_index b / concurrency ->
        call_start a = call_start b) /\
       (call_index a / concurrency < call_index b / concurrency ->
        call_end a <= call_start b)) /\
    (forall at_, in_flight log at_ <= concurrency) /\
    ((fulfils r /\ length log = length items) \/
     (exists n e,
        0 < n /\ settled r = Rejected e /\
        length log = length items `min` (n * concurrency))) /\
    ((forall x, x ∈ items -> fulfils (work x)) ->
     fulfils r /\ length log = length items).
Proof.
  intros Hc. destruct (runBatch_Run key work concurrency items Hc) as (log & r & Heq & Hrun).
  exists log, r. split; [exact Heq|]. split; [|split; [|split; [|split]]].
  - intros k c Hk.
    destruct (Run_log key work concurrency items Hc 0 0 ∅ log r Hrun k c Hk)
      as (Hidx & _ & Hitem).
    split; [exact Hidx | exact Hitem].
  - eapply Run_chunks; eassumption.
  - eapply Run_in_flight; eassumption.
  - destruct (Run_stops key work concurrency items Hc 0 0 ∅ log r Hrun)
      as [[Hr Hlength]|(n & e & Hn & Hr & Hlength)].
    + left. split; [exact Hr | lia].
    + right. exists n, e. split; [exact Hn|]. split; [exact Hr | exact Hlength].
  - intros Hwork.
    destruct (Run_fulfils key work concurrency items Hc 0 0 ∅ log r Hrun Hwork)
      as (m & Hm & Hlength).
    split; [exists m; exact Hm | lia].
Qed.

Lemma runBatch_chunked_witness :
  (0 < 5 /\
   exists log r,
     enrichIndustriesBatch steadyAI sixIndustries noOptions = Some (log, r) /\
     length log = 6 /\
     forall at_, in_flight log at_ <= 5) /\
  (0 < 3 /\
   exists log r,
     enrichOccupationsBatch nameOccupation fourOccupations () = Some (log, r) /\
     length log = 4 /\
     forall at_, in_flight log at_ <= 3).
Proof.
  split; (split; [apply Nat.lt_0_succ|]).
  - destruct (runBatch_chunked Industry.id
                (fun industry => enrichIndustry steadyAI industry noOptions)
                5 sixIndustries (Nat.lt_0_succ 4))
      as (log & r & Heq & _ & _ & Hflight & _ & Hall).
    destruct Hall as [_ Hlength].
    { intros x _. apply enrichIndustry_returns, steadyAI_answers. }
    exists log, r. split; [exact Heq|]. split; [exact Hlength | exact Hflight].
  - destruct (runBatch_chunked Occupation.id
                (fun occupation => nameOccupation occupation ())
                3 fourOccupations (Nat.lt_0_succ 2))
      as (log & r & Heq & _ & _ & Hflight & _ & Hall).
    destruct Hall as [_ Hlength].
    { intros x _. eexists. reflexivity. }
    exists log, r. split; [exact Heq|]. split; [exact Hlength | exact Hflight].
Defined.

(** That run: five calls from instant 0 to 8, the sixth from 8 to 16. *)
Example enrichIndustriesBatch_steady_log :
  match enrichIndustriesBatch steadyAI sixIndustries noOptions with
  | Some (log, r) =>
      Some ((fun c => (call_item c, call_start c, call_end c)) <$> log, elapsed r)
  | None => None
  end
  = Some ([("Healthcare", 0, 8); ("Mining", 0, 8); ("Retail", 0, 8);
           ("Utilities", 0, 8); ("Finance", 0, 8); ("Education", 8, 16)], 16).
Proof. vm_compute. reflexivity. Qed.

Example enrichIndustriesBatch_steady_in_flight :
  match enrichIndustriesBatch steadyAI sixIndustries noOptions with
  | Some (log, _) => [in_flight log 0; in_flight log 7; in_flight log 8; in_flight log 16]
  | None => []
  end
  = [5; 5; 1; 0].
Proof. vm_compute. reflexivity. Qed.

(** C1, as stated, fails: the enrichment of the Mining industry fails;
    the batch call is rejected with that error and returns no map,
    although the four other industries of the chunk were started and
    their enrichment fulfils; the Education industry, of the next chunk,
    is never started. *)
Lemma enrichIndustriesBatch_rejects_whole_batch :
  exists log r,
    enrichIndustriesBatch flakyAI sixIndustries noOptions = Some (log, r) /\
    settled r = Rejected "model unavailable" /\
    call_item <$> log = ["Healthcare"; "Mining"; "Retail"; "Utilities"; "Finance"] /\
    fulfils (enrichIndustry flakyAI (sampleIndustry "Healthcare" "Healthcare") noOptions) /\
    fulfils (enrichIndustry flakyAI (sampleIndustry "Education" "Educational Services") noOptions).
Proof.
  eexists _, _. split; [vm_compute; reflexivity|].
  split; [reflexivity|]. split; [reflexivity|].
  split; eexists; vm_compute; reflexivity.
Qed.

(** C1, amended. A batch run is all or nothing.  When the work fulfils
    for every item, every item is called for and the returned map has an
    entry exactly under the ids of the items; under an id it holds the
    result of the last item of the input with that id, which is each
    item's own result when the ids are distinct.  When the work rejects
    for an item, the items of its chunk have all been started, but the
    batch call itself rejects, with the error of an item of the first
    chunk that holds a failing item: the error is thrown to the caller,
    no map is returned and no later chunk is started. *)
Theorem runBatch_all_or_nothing {T R} (key : T -> string) (work : T -> async R)
    (concurrency : nat) (items : list T) :
  0 < concurrency ->
  exists log r,
    runBatch key work concurrency items = Some (log, r) /\
    ((forall x, x ∈ items -> fulfils (work x)) ->
     call_item <$> log = key <$> items /\
     exists m, settled r = Fulfilled m /\
       (forall k, is_Some (m !! k) <-> exists x, x ∈ items /\ key x = k) /\
       (forall i x v,
          items !! i = Some x ->
          settled (work x) = Fulfilled v ->
          (forall j y, i < j -> items !! j = Some y -> key y <> key x) ->
          m !! key x = Some v) /\
       (NoDup (key <$> items) ->
        forall x v, x ∈ items -> settled (work x) = Fulfilled v -> m !! key x = Some v)) /\
    (forall k x e,
       items !! k = Some x ->
       settled (work x) = Rejected e ->
       (forall j y, j < k -> items !! j = Some y -> fulfils (work y)) ->
       call_item <$> log = key <$> take ((k / concurrency + 1) * concurrency) items /\
       exists e' j y,
         settled r = Rejected e' /\ j / concurrency = k / concurrency /\
         items !! j = Some y /\ settled (work y) = Rejected e').
Proof.
  intros Hc. destruct (runBatch_Run key work concurrency items Hc) as (log & r & Heq & Hrun).
  pose proof (Run_items key work concurrency items Hc 0 0 ∅ log r Hrun) as Hitems.
  change (drop (0 * concurrency) items) with items in Hitems.
  exists log, r. split; [exact Heq|]. split.
  - intros Hwork.
    destruct (Run_fulfils key work concurrency items Hc 0 0 ∅ log r Hrun Hwork)
      as (m & Hm & Hlength).
    split.
    + rewrite Hitems, Hlength, take_ge by lia. reflexivity.
    + exists m. split; [exact Hm|].
      destruct (Run_map key work concurrency items Hc 0 0 ∅ log r Hrun m Hm)
        as (Hfrom & _ & Hsets).
      destruct (Run_assigns key work concurrency items Hc 0 0 ∅ log r Hrun m Hm)
        as (Hmap & Hvalues).
      change (drop (0 * concurrency) items) with items in *.
      assert (forall i x v,
                items !! i = Some x ->
                settled (work x) = Fulfilled v ->
                (forall j y, i < j -> items !! j = Some y -> key y <> key x) ->
                m !! key x = Some v) as Hlast.
      { intros i x v Hx Hv Hlater. rewrite Hmap.
        apply (setAll_last key ∅ items _ i x v); [exact Hx | | exact Hlater].
        destruct (Forall2_lookup_l _ _ _ _ _ Hvalues Hx) as (v' & Hv' & Hsettled).
        rewrite Hv'. congruence. }
      split; [|split; [exact Hlast|]].
      * intros k. split.
        -- intros [v Hv]. destruct (Hfrom k v Hv) as [Hempty|(y & Hy & Hkey & _)].
           ++ rewrite lookup_empty in Hempty. discriminate Hempty.
           ++ eauto.
        -- intros (x & Hx & <-). apply Hsets, Hx.
      * intros Hnodup x v Hx Hv. apply list_elem_of_lookup in Hx as [i Hi].
        apply (Hlast i x v Hi Hv). apply NoDup_keys_last; assumption.
  - intros k x e Hx Hfails Hbefore.
    destruct (Run_first_failure key work concurrency items Hc 0 0 ∅ log r Hrun k x e)
      as (Hlength & Hrejects); [lia | exact Hx | exact Hfails | |].
    { intros j y Hj. apply Hbefore. lia. }
    split; [|exact Hrejects].
    rewrite Hitems, Hlength, Nat.sub_0_r, take_min_length. reflexivity.
Qed.

Lemma runBatch_all_or_nothing_witness :
  (0 < 5 /\
   exists log r,
     enrichIndustriesBatch steadyAI sixIndustries noOptions = Some (log, r) /\
     call_item <$> log = Industry.id <$> sixIndustries /\
     exists m v,
       settled r = Fulfilled m /\
       settled (enrichIndustry steadyAI (sampleIndustry "Education" "Educational Services")
                  noOptions) = Fulfilled v /\
       m !! "Education" = Some v) /\
  (0 < 3 /\
   exists log r,
     enrichProcessesBatch payFails fourProcesses () = Some (log, r) /\
     call_item <$> log = ["Plan"; "Bill"; "Pay"] /\
     exists e, settled r = Rejected e).
Proof.
  split; (split; [apply Nat.lt_0_succ|]).
  - destruct (runBatch_all_or_nothing Industry.id
                (fun industry => enrichIndustry steadyAI industry noOptions)
                5 sixIndustries (Nat.lt_0_succ 4))
      as (log & r & Heq & Hfulfilled & _).
    destruct Hfulfilled as (Hlog & m & Hm & _ & Hlast & _).
    { intros x _. apply enrichIndustry_returns, steadyAI_answers. }
    exists log, r. split; [exact Heq|]. split; [exact Hlog|].
    destruct (enrichIndustry_returns steadyAI
                (sampleIndustry "Education" "Educational Services") noOptions
                steadyAI_answers) as [v Hv].
    exists m, v. split; [exact Hm|]. split; [exact Hv|].
    apply (Hlast 5 (sampleIndustry "Education" "Educational Services") v eq_refl Hv).
    intros j y Hj Hy.
    assert (sixIndustries !! j = None) as Hnone by (apply lookup_ge_None_2; cbn; lia).
    congruence.
  - destruct (runBatch_all_or_nothing Process.id
                (fun process => payFails process ())
                3 fourProcesses (Nat.lt_0_succ 2))
      as (log & r & Heq & _ & Hrejected).
    destruct (Hrejected 2 (sampleProcess "Pay" "Pay the Suppliers") "model unavailable")
      as (Hlog & e & _ & _ & He & _).
    { reflexivity. }
    { reflexivity. }
    { intros j y Hj Hy. destruct j as [|[|j]]; [| |lia];
        injection Hy as <-; eexists; reflexivity. }
    exists log, r. split; [exact Heq|]. split; [exact Hlog|].
    exists e. exact He.
Defined.

(** * Properties of the rest of the code *)

(** ** Awaited calls *)

Lemma signal_fmap {A B} (f : A -> B) (m : async A) : signal (f <$> m) = signal m.
Proof.
  destruct m as [t [a|e]]; unfold signal, fmap, async_fmap, mbind, async_bind; cbn;
    [rewrite Nat.add_0_r|]; reflexivity.
Qed.

(** The calls that all fulfil take the sum of their times. *)
Lemma awaitEach_fulfilled calls :
  Forall (fun c => c.2 = None) calls ->
  awaitEach calls = (sum_list (fst <$> calls), None).
Proof.
  induction 1 as [|[t r] calls Hr _ IH]; [reflexivity|].
  cbn in Hr. subst r. cbn. rewrite IH. reflexivity.
Qed.

(** The first call that rejects ends the sequence, at the sum of the
    times of the calls before it and its own. *)
Lemma awaitEach_rejected before t e after :
  Forall (fun c => c.2 = None) before ->
  awaitEach (before ++ (t, Some e) :: after)%list = (sum_list (fst <$> before) + t, Some e).
Proof.
  induction 1 as [|[t0 r] before Hr _ IH]; [reflexivity|].
  cbn in Hr. subst r. cbn. rewrite IH. f_equal. lia.
Qed.

(** [const a = await m; k a], where [k] goes on to await [rest]. *)
Lemma signal_await_call {A B} (m : async A) (k : A -> async B) rest :
  (forall a, signal (k a) = awaitEach rest) ->
  signal (m ≫= k) = awaitEach (signal m :: rest).
Proof.
  intros Hk. destruct m as [t [a|e]]; unfold signal at 2; cbn; [|reflexivity].
  rewrite <- (Hk a). reflexivity.
Qed.

Lemma signal_await_fmap {A A' B} (f : A -> A') (m : async A) (k : A' -> async B) rest :
  (forall a, signal (k (f a)) = awaitEach rest) ->
  signal ((f <$> m) ≫= k) = awaitEach (signal m :: rest).
Proof.
  intros Hk. destruct m as [t [a|e]]; unfold signal at 2; cbn; [|reflexivity].
  rewrite <- (Hk a). unfold signal. cbn. rewrite Nat.add_0_r. reflexivity.
Qed.

(** The last step, when it awaits a function that awaits [calls]. *)
Lemma signal_await_last {A A' B} (f : A -> A') (m : async A) (k : A' -> async B) calls :
  signal m = awaitEach calls ->
  (forall a, signal (k (f a)) = awaitEach []) ->
  signal ((f <$> m) ≫= k) = awaitEach calls.
Proof.
  intros <- Hk. destruct m as [t [a|e]]; [|reflexivity].
  specialize (Hk a). unfold signal in *. cbn in *.
  destruct (settled (k (f a))); injection Hk as Hk; [|discriminate].
  rewrite Hk, !Nat.add_0_r. reflexivity.
Qed.

(** A step that awaits nothing. *)
Lemma signal_await_skip {A B} (v : A) (k : A -> async B) rest :
  signal (k v) = awaitEach rest -> signal (mret v ≫= k) = awaitEach rest.
Proof. intros <-. reflexivity. Qed.

Lemma signal_await_ret {A} (v : A) : signal (mret v : async A) = awaitEach [].
Proof. reflexivity. Qed.

Ltac await_calls :=
  repeat match goal with
  | |- signal (mret _) = _ => apply signal_await_ret
  | |- signal (mret _ ≫= _) = _ => apply signal_await_skip
  | |- signal ((_ <$> _) ≫= _) = _ => apply signal_await_fmap; intros ?
  | |- signal (_ ≫= _) = _ => apply signal_await_call; intros ?
  end.

(** ** enrichIndustry and its helpers *)

Lemma elem_of_concat {A} (x : A) (ls : list (list A)) :
  x ∈ concat ls <-> exists l, x ∈ l /\ l ∈ ls.
Proof.
  induction ls as [|l ls IH]; cbn.
  - split; [intros H; inversion H | intros (l & _ & H); inversion H].
  - rewrite elem_of_app, IH. split.
    + intros [H|(l' & Hx & Hl)]; [exists l | exists l'];
        (split; [assumption|]); [left | right; exact Hl].
    + intros (l' & Hx & Hl). apply elem_of_cons in Hl as [->|Hl]; [left; exact Hx|].
      right. eauto.
Qed.

Lemma set_order_spec seen xs :
  NoDup (JS.set_order seen xs) /\
  sublist (JS.set_order seen xs) xs /\
  forall x, x ∈ JS.set_order seen xs <-> x ∈ xs /\ x ∉ seen.
Proof.
  revert seen. induction xs as [|x xs IH]; intros seen; cbn.
  - split; [constructor|]. split; [constructor|].
    intros y. split; [intros Hy; inversion Hy | intros [Hy _]; inversion Hy].
  - case_bool_decide as Hseen.
    + destruct (IH seen) as (Hnodup & Hsub & Hmem).
      split; [exact Hnodup|]. split; [apply sublist_cons, Hsub|].
      intros y. rewrite Hmem, elem_of_cons. split; [tauto|].
      intros [[->|Hy] Hout]; [contradiction | auto].
    + destruct (IH (x :: seen)) as (Hnodup & Hsub & Hmem).
      split; [|split].
      * constructor; [|exact Hnodup].
        rewrite Hmem, elem_of_cons. tauto.
      * apply sublist_skip, Hsub.
      * intros y. rewrite !elem_of_cons, Hmem, elem_of_cons.
        destruct (decide (y = x)) as [->|Hne]; [tauto|]. tauto.
Qed.

Lemma precedes_cons a b x l :
  precedes a b (x :: l) <-> x = a \/ (x <> a /\ x <> b /\ precedes a b l).
Proof.
  split.
  - intros (before & after & Heq & Ha & Hb). destruct before as [|y before].
    + injection Heq as -> _. left. reflexivity.
    + injection Heq as <- ->. right.
      apply not_elem_of_cons in Ha as [Hxa Ha]. apply not_elem_of_cons in Hb as [Hxb Hb].
      split; [congruence|]. split; [congruence|]. exists before, after. auto.
  - intros [->|(Hxa & Hxb & before & after & -> & Ha & Hb)].
    + exists [], l. split; [reflexivity|]. split; apply not_elem_of_nil.
    + exists (x :: before), after. split; [reflexivity|].
      split; apply not_elem_of_cons; split; congruence.
Qed.

Lemma precedes_nil a b : ~ precedes a b [].
Proof. intros (before & after & Heq & _). destruct before; discriminate Heq. Qed.

Lemma precedes_elem_of a b l : precedes a b l -> a ∈ l.
Proof. intros (before & after & -> & _). apply elem_of_app. right. apply elem_of_cons. auto. Qed.

Lemma set_order_precedes seen xs a b :
  a ∉ seen -> b ∉ seen ->
  precedes a b (JS.set_order seen xs) <-> precedes a b xs.
Proof.
  revert seen. induction xs as [|x xs IH]; intros seen Ha Hb; cbn; [reflexivity|].
  case_bool_decide as Hseen.
  - rewrite IH by assumption. rewrite precedes_cons.
    assert (x <> a) by (intros ->; contradiction).
    assert (x <> b) by (intros ->; contradiction). tauto.
  - rewrite !precedes_cons.
    destruct (decide (x = a)) as [->|Hxa]; [tauto|].
    destruct (decide (x = b)) as [->|Hxb]; [tauto|].
    rewrite IH; [tauto| |]; apply not_elem_of_cons; split; congruence.
Qed.

(** Two lists without duplicates in which the same elements come in the
    same order are equal. *)
Lemma precedes_unique l : forall l',
  NoDup l -> NoDup l' ->
  (forall a b, precedes a b l <-> precedes a b l') -> l = l'.
Proof.
  induction l as [|x l IH]; intros l' Hl Hl' Hsame.
  - destruct l' as [|y l']; [reflexivity|]. exfalso.
    apply (precedes_nil y y), Hsame, precedes_cons. left. reflexivity.
  - destruct l' as [|y l'].
    { exfalso. apply (precedes_nil x x), Hsame, precedes_cons. left. reflexivity. }
    assert (y = x) as ->.
    { assert (precedes x y (y :: l')) as H by (apply Hsame, precedes_cons; left; reflexivity).
      apply precedes_cons in H as [H|(_ & H & _)]; congruence. }
    f_equal. apply NoDup_cons in Hl as [Hx Hl]. apply NoDup_cons in Hl' as [Hx' Hl'].
    apply IH; [assumption | assumption |].
    assert (forall a b t, b ∉ t -> precedes a b t <-> precedes a a t) as Hfree.
    { intros a b t Ht. split; intros (before & after & -> & Ha & Hb).
      - exists before, after. auto.
      - exists before, after. split; [reflexivity|]. split; [assumption|].
        intros Hin. apply Ht, elem_of_app. left. exact Hin. }
    intros a b. pose proof (Hsame a b) as Hab. pose proof (Hsame a a) as Haa.
    rewrite !precedes_cons in Hab, Haa.
    destruct (decide (x = a)) as [->|Hxa].
    { split; intros H; apply precedes_elem_of in H; contradiction. }
    destruct (decide (x = b)) as [->|Hxb]; [|tauto].
    rewrite (Hfree a b l Hx), (Hfree a b l' Hx'). tauto.
Qed.

(** X1. The pain points that [extractPainPoints] reads off a canvas are
    the pains of its value propositions, each of them once, in the order
    of their first occurrence: one pain comes before another in the
    result exactly when its first occurrence among the pains of the value
    propositions, in their order, comes before every occurrence of the
    other.  No other list without duplicates has that order. *)
Theorem extractPainPoints_distinct_pains (canvas : BusinessModelCanvas.t) :
  let pains :=
    concat (ValuePropositionCanvas.pains <$> BusinessModelCanvas.valuePropositions canvas) in
  NoDup (extractPainPoints canvas) /\
  sublist (extractPainPoints canvas) pains /\
  (forall pain,
     pain ∈ extractPainPoints canvas <->
     exists vp, vp ∈ BusinessModelCanvas.valuePropositions canvas /\
                pain ∈ ValuePropositionCanvas.pains vp) /\
  (forall a b, precedes a b (extractPainPoints canvas) <-> precedes a b pains) /\
  (forall l, NoDup l -> (forall a b, precedes a b l <-> precedes a b pains) ->
             l = extractPainPoints canvas).
Proof.
  intros pains. unfold extractPainPoints. fold pains.
  destruct (set_order_spec [] pains) as (Hnodup & Hsub & Hmem).
  assert (forall a b, precedes a b (JS.set_order [] pains) <-> precedes a b pains) as Horder.
  { intros a b. apply set_order_precedes; apply not_elem_of_nil. }
  split; [exact Hnodup|]. split; [exact Hsub|]. split; [|split; [exact Horder|]].
  - intros pain. rewrite Hmem. unfold pains. rewrite elem_of_concat. split.
    + intros [(pains' & Hpain & Hpains) _].
      apply list_elem_of_fmap in Hpains as (vp & -> & Hvp). eauto.
    + intros (vp & Hvp & Hpain). split; [|apply not_elem_of_nil].
      exists (ValuePropositionCanvas.pains vp). split; [exact Hpain|].
      apply list_elem_of_fmap. eauto.
  - intros l Hl Hsame. apply precedes_unique; [exact Hl | exact Hnodup |].
    intros a b. rewrite Hsame, Horder. reflexivity.
Qed.

Lemma extractRegulations_filter (businessTypes : list BusinessType.t) :
  extractRegulations businessTypes
  = (fun bt => BusinessType.name bt +:+ ": Significant regulatory requirements")
      <$> filter regulated businessTypes.
Proof.
  induction businessTypes as [|bt bts IH]; [reflexivity|].
  unfold extractRegulations in *. cbn [omap list_omap].
  rewrite filter_cons. unfold regulated at 1.
  destruct (decide _) as [Hreg|Hno].
  - assert (bool_decide (MarketDynamics.regulation (BusinessType.marketDynamics bt) = "heavy")
            || bool_decide (MarketDynamics.regulation (BusinessType.marketDynamics bt) = "moderate")
            = true) as ->.
    { destruct Hreg as [H|H]; rewrite H; reflexivity. }
    cbn. f_equal. exact IH.
  - assert (bool_decide (MarketDynamics.regulation (BusinessType.marketDynamics bt) = "heavy")
            || bool_decide (MarketDynamics.regulation (BusinessType.marketDynamics bt) = "moderate")
            = false) as ->.
    { apply orb_false_iff. split; apply bool_decide_eq_false; tauto. }
    exact IH.
Qed.

(** X2. The record that [enrichIndustry] returns is coherent with
    itself: its pain points are those of its own canvas, and its
    regulations are one line per business type of its own list that is
    under heavy or moderate regulation, in the order of that list
    (regulations, unlike pain points, are not deduplicated). *)
Theorem enrichIndustry_derived_fields industryAI industry options e :
  settled (enrichIndustry industryAI industry options) = Fulfilled e ->
  EnrichedIndustry.painPoints e = extractPainPoints (EnrichedIndustry.businessModelCanvas e) /\
  EnrichedIndustry.regulations e
  = (fun bt => BusinessType.name bt +:+ ": Significant regulatory requirements")
      <$> filter regulated (EnrichedIndustry.businessTypes e) /\
  length (EnrichedIndustry.regulations e) <= length (EnrichedIndustry.businessTypes e).
Proof.
  intros H. unfold enrichIndustry in H.
  apply settled_bind_fulfilled in H as (businessTypes & _ & H).
  apply settled_bind_fulfilled in H as (canvas & _ & H).
  apply settled_bind_fulfilled in H as (landscape & _ & H).
  apply settled_bind_fulfilled in H as (trends & _ & H).
  apply settled_bind_fulfilled in H as (readiness & _ & H).
  apply settled_bind_fulfilled in H as (marketSize & _ & H).
  apply settled_ret in H. subst e.
  cbn [EnrichedIndustry.painPoints EnrichedIndustry.regulations
       EnrichedIndustry.businessModelCanvas EnrichedIndustry.businessTypes].
  split; [reflexivity|]. rewrite extractRegulations_filter. split; [reflexivity|].
  rewrite length_fmap. apply length_filter.
Qed.

Lemma enrichIndustry_derived_fields_witness :
  exists e,
    settled (enrichIndustry steadyAI (sampleIndustry "Healthcare" "Healthcare") noOptions)
      = Fulfilled e /\
    EnrichedIndustry.regulations e = ["Clinics: Significant regulatory requirements"].
Proof.
  destruct (enrichIndustry_returns steadyAI (sampleIndustry "Healthcare" "Healthcare") noOptions
              steadyAI_answers) as [e He].
  exists e. split; [exact He|].
  destruct (enrichIndustry_derived_fields _ _ _ e He) as (_ & Hregulations & _).
  rewrite Hregulations. vm_compute in He. injection He as <-. reflexivity.
Defined.

(** X3. The technology adoption of the returned record is computed from
    the AI readiness that the collaborator answered; when the AI analysis
    is switched off it is [early_majority], although the adoption level
    [experimenting] of the default readiness in the same record is one
    that [determineTechAdoption] maps to [late_majority]. *)
Theorem enrichIndustry_technologyAdoption industryAI industry options e :
  settled (enrichIndustry industryAI industry options) = Fulfilled e ->
  (EnrichIndustryOptions.includeAIAnalysis options <> Some false ->
   EnrichedIndustry.technologyAdoption e
   = determineTechAdoption (Some (EnrichedIndustry.aiReadiness e))) /\
  (EnrichIndustryOptions.includeAIAnalysis options = Some false ->
   EnrichedIndustry.technologyAdoption e = early_majority /\
   determineTechAdoption (Some (EnrichedIndustry.aiReadiness e)) = late_majority).
Proof.
  intros H. unfold enrichIndustry in H.
  apply settled_bind_fulfilled in H as (businessTypes & _ & H).
  apply settled_bind_fulfilled in H as (canvas & _ & H).
  apply settled_bind_fulfilled in H as (landscape & _ & H).
  apply settled_bind_fulfilled in H as (trends & _ & H).
  apply settled_bind_fulfilled in H as (readiness & Hreadiness & H).
  apply settled_bind_fulfilled in H as (marketSize & _ & H).
  apply settled_ret in H. subst e.
  cbn [EnrichedIndustry.technologyAdoption EnrichedIndustry.aiReadiness].
  split.
  - intros Hon.
    destruct (EnrichIndustryOptions.includeAIAnalysis options) as [[|]|];
      [|contradiction|];
      apply settled_fmap_fulfilled in Hreadiness as (r & _ & ->); reflexivity.
  - intros Hoff. rewrite Hoff in Hreadiness. cbn in Hreadiness.
    injection Hreadiness as <-. split; reflexivity.
Qed.

Lemma enrichIndustry_technologyAdoption_witness :
  exists e,
    settled (enrichIndustry steadyAI (sampleIndustry "Healthcare" "Healthcare") bareOptions)
      = Fulfilled e /\
    EnrichedIndustry.technologyAdoption e = early_majority /\
    determineTechAdoption (Some (EnrichedIndustry.aiReadiness e)) = late_majority.
Proof.
  destruct (enrichIndustry_returns steadyAI (sampleIndustry "Healthcare" "Healthcare") bareOptions
              steadyAI_answers) as [e He].
  exists e. split; [exact He|].
  exact (proj2 (enrichIndustry_technologyAdoption _ _ _ e He) eq_refl).
Defined.

(** X4. [enrichIndustry] awaits its calls one after the other, in the
    order business types, canvas, competitive landscape, trends, AI
    readiness, market size, leaving out the analyses that the options
    switch off: it rejects with the error of the first call that rejects,
    at the instant that call rejects and without the calls after it, and
    otherwise fulfils after the sum of the times of its calls. *)
Theorem enrichIndustry_sequential industryAI industry options :
  signal (enrichIndustry industryAI industry options)
  = awaitEach (industryCalls industryAI industry options).
Proof.
  unfold enrichIndustry, industryCalls. cbv zeta.
  destruct (default true (EnrichIndustryOptions.includeCompetitors options)),
           (default true (EnrichIndustryOptions.includeTrends options)),
           (default true (EnrichIndustryOptions.includeAIAnalysis options));
    cbn [app]; await_calls.
Qed.

(** X5. The collaborator's analyses that the options switch off are not
    consulted: two collaborators that agree on the calls that
    [enrichIndustry] makes under the given options give the same
    enrichment, whatever they would answer to the other calls. *)
Theorem enrichIndustry_skips_disabled industryAI industryAI' industry options :
  (forall prompt, IndustryAI.businessTypes industryAI prompt
                  = IndustryAI.businessTypes industryAI' prompt) ->
  (forall prompt, IndustryAI.businessModelCanvas industryAI prompt
                  = IndustryAI.businessModelCanvas industryAI' prompt) ->
  (forall prompt, IndustryAI.marketSize industryAI prompt
                  = IndustryAI.marketSize industryAI' prompt) ->
  (EnrichIndustryOptions.includeCompetitors options <> Some false ->
   forall prompt, IndustryAI.competitiveLandscape industryAI prompt
                  = IndustryAI.competitiveLandscape industryAI' prompt) ->
  (EnrichIndustryOptions.includeTrends options <> Some false ->
   forall prompt, IndustryAI.industryTrends industryAI prompt
                  = IndustryAI.industryTrends industryAI' prompt) ->
  (EnrichIndustryOptions.includeAIAnalysis options <> Some false ->
   forall prompt, IndustryAI.aiReadiness industryAI prompt
                  = IndustryAI.aiReadiness industryAI' prompt) ->
  enrichIndustry industryAI industry options = enrichIndustry industryAI' industry options.
Proof.
  intros Htypes Hcanvas Hsize Hlandscape Htrends Hreadiness.
  unfold enrichIndustry. rewrite Htypes, Hcanvas, Hsize.
  destruct (EnrichIndustryOptions.includeCompetitors options) as [[|]|];
    cbn [default]; rewrite ?Hlandscape by discriminate;
    destruct (EnrichIndustryOptions.includeTrends options) as [[|]|];
    cbn [default]; rewrite ?Htrends by discriminate;
    destruct (EnrichIndustryOptions.includeAIAnalysis options) as [[|]|];
    cbn [default]; rewrite ?Hreadiness by discriminate; reflexivity.
Qed.

Lemma enrichIndustry_skips_disabled_witness :
  enrichIndustry steadyAI (sampleIndustry "Healthcare" "Healthcare") bareOptions
  = enrichIndustry coreOnlyAI (sampleIndustry "Healthcare" "Healthcare") bareOptions.
Proof.
  apply (enrichIndustry_skips_disabled steadyAI coreOnlyAI
           (sampleIndustry "Healthcare" "Healthcare") bareOptions);
    first [ reflexivity | intros Hon; exfalso; apply Hon; reflexivity ].
Defined.

(** ** The batch loop: the map it returns and the time it takes *)

(** X6. When the work fulfils for every item, the map that a batch run
    returns has an entry under a key exactly when an item has that key,
    and under the key of an item it holds the result of the last item of
    the input with that key: items that share an id overwrite one
    another, in input order. *)
Theorem runBatch_last_write_wins {T R} (key : T -> string) (work : T -> async R)
    (concurrency : nat) (items : list T) :
  0 < concurrency ->
  (forall x, x ∈ items -> fulfils (work x)) ->
  exists log m t,
    runBatch key work concurrency items = Some (log, Async t (Fulfilled m)) /\
    (forall k, is_Some (m !! k) <-> exists x, x ∈ items /\ key x = k) /\
    (forall i x v,
       items !! i = Some x ->
       settled (work x) = Fulfilled v ->
       (forall j y, i < j -> items !! j = Some y -> key y <> key x) ->
       m !! key x = Some v).
Proof.
  intros Hc Hwork.
  destruct (runBatch_Run key work concurrency items Hc) as (log & r & Heq & Hrun).
  destruct (Run_fulfils key work concurrency items Hc 0 0 ∅ log r Hrun Hwork)
    as (m & Hm & _).
  destruct r as [t s]. cbn in Hm. subst s.
  exists log, m, t. split; [exact Heq|].
  destruct (Run_map key work concurrency items Hc 0 0 ∅ log _ Hrun m eq_refl)
    as (Hfrom & _ & Hsets).
  destruct (Run_assigns key work concurrency items Hc 0 0 ∅ log _ Hrun m eq_refl)
    as (Hmap & Hvalues).
  change (drop (0 * concurrency) items) with items in *.
  split.
  - intros k. split.
    + intros [v Hv]. destruct (Hfrom k v Hv) as [Hempty|(y & Hy & Hkey & _)].
      * rewrite lookup_empty in Hempty. discriminate Hempty.
      * eauto.
    + intros (x & Hx & <-). apply Hsets, Hx.
  - intros i x v Hx Hv Hlast. rewrite Hmap.
    apply (setAll_last key ∅ items _ i x v); [exact Hx | | exact Hlast].
    destruct (Forall2_lookup_l _ _ _ _ _ Hvalues Hx) as (v' & Hv' & Hsettled).
    rewrite Hv'. congruence.
Qed.

Lemma runBatch_last_write_wins_witness :
  0 < 3 /\
  exists log m t,
    enrichOccupationsBatch nameOccupation twoAccountants () = Some (log, Async t (Fulfilled m)) /\
    m !! "Accountant" = Some "Senior Accountant".
Proof.
  split; [apply Nat.lt_0_succ|].
  destruct (runBatch_last_write_wins Occupation.id
              (fun occupation => nameOccupation occupation ()) 3 twoAccountants
              (Nat.lt_0_succ 2))
    as (log & m & t & Heq & _ & Hlast).
  { intros x _. eexists. reflexivity. }
  exists log, m, t. split; [exact Heq|].
  apply (Hlast 2 (sampleOccupation "Accountant" "Senior Accountant") "Senior Accountant");
    [reflexivity | reflexivity |].
  intros j y Hj Hy. destruct j as [|[|[|j]]]; [lia | lia | lia | discriminate Hy].
Defined.

(** X7. The size of the chunks has no effect on what a batch run
    returns when the work fulfils for every item: for any two positive
    chunk sizes the same calls are made, in the same order, and the same
    map is returned.  Only the instants differ. *)
Theorem runBatch_result_independent_of_concurrency {T R} (key : T -> string)
    (work : T -> async R) (concurrency concurrency' : nat) (items : list T) :
  0 < concurrency ->
  0 < concurrency' ->
  (forall x, x ∈ items -> fulfils (work x)) ->
  exists log log' r r',
    runBatch key work concurrency items = Some (log, r) /\
    runBatch key work concurrency' items = Some (log', r') /\
    settled r = settled r' /\
    call_item <$> log = call_item <$> log'.
Proof.
  intros Hc Hc' Hwork.
  destruct (runBatch_Run key work concurrency items Hc) as (log & r & Heq & Hrun).
  destruct (runBatch_Run key work concurrency' items Hc') as (log' & r' & Heq' & Hrun').
  destruct (Run_fulfils key work concurrency items Hc 0 0 ∅ log r Hrun Hwork)
    as (m & Hm & Hlength).
  destruct (Run_fulfils key work concurrency' items Hc' 0 0 ∅ log' r' Hrun' Hwork)
    as (m' & Hm' & Hlength').
  exists log, log', r, r'. split; [exact Heq|]. split; [exact Heq'|].
  destruct (Run_assigns key work concurrency items Hc 0 0 ∅ log r Hrun m Hm) as [Hmap _].
  destruct (Run_assigns key work concurrency' items Hc' 0 0 ∅ log' r' Hrun' m' Hm')
    as [Hmap' _].
  change (drop (0 * concurrency) items) with items in *.
  change (drop (0 * concurrency') items) with items in *.
  split; [rewrite Hm, Hm', Hmap, Hmap'; reflexivity|].
  rewrite (Run_items key work concurrency items Hc 0 0 ∅ log r Hrun).
  rewrite (Run_items key work concurrency' items Hc' 0 0 ∅ log' r' Hrun').
  rewrite Hlength, Hlength'. reflexivity.
Qed.

Lemma runBatch_result_independent_of_concurrency_witness :
  0 < 3 /\ 0 < 5 /\
  exists log log' r r',
    enrichOccupationsBatch nameOccupation fourOccupations () = Some (log, r) /\
    runBatch Occupation.id (fun occupation => nameOccupation occupation ()) 5 fourOccupations
    = Some (log', r') /\
    settled r = settled r' /\
    call_item <$> log = call_item <$> log'.
Proof.
  split; [apply Nat.lt_0_succ|]. split; [apply Nat.lt_0_succ|].
  apply (runBatch_result_independent_of_concurrency Occupation.id
           (fun occupation => nameOccupation occupation ()) 3 5 fourOccupations
           (Nat.lt_0_succ 2) (Nat.lt_0_succ 4)).
  intros x _. eexists. reflexivity.
Defined.

(** X8. A batch run never takes longer than its items one after the
    other would; when it fulfils it takes at least as long as its slowest
    item; and when the items fit in one chunk it takes exactly the time of
    [Promise.all] over all of them. *)
Theorem runBatch_elapsed_bounds {T R} (key : T -> string) (work : T -> async R)
    (concurrency : nat) (items : list T) :
  0 < concurrency ->
  exists log r,
    runBatch key work concurrency items = Some (log, r) /\
    elapsed r <= sum_list ((fun x => elapsed (work x)) <$> items) /\
    (fulfils r -> forall x, x ∈ items -> elapsed (work x) <= elapsed r) /\
    (length items <= concurrency -> elapsed r = elapsed (Promise.all (work <$> items))).
Proof.
  intros Hc.
  destruct (runBatch_Run key work concurrency items Hc) as (log & r & Heq & Hrun).
  exists log, r. split; [exact Heq|].
  destruct (Run_elapsed key work concurrency items Hc 0 0 ∅ log r Hrun) as (Hbounds & Hlower).
  change (drop (0 * concurrency) items) with items in *.
  split; [lia|]. split; [intros Hr x Hx; specialize (Hlower Hr x Hx); lia|].
  intros Hfit.
  assert (chunk concurrency items 0 = items) as Hchunk.
  { rewrite (chunk_take concurrency items Hc). cbn. apply take_ge. exact Hfit. }
  inversion Hrun as [q now results Hlen
                    |q now results e Hlt Hrej
                    |q now results values later r0 Hlt Hful Hnext]; subst.
  - cbn in Hlen. destruct items; [reflexivity | cbn in Hlen; lia].
  - rewrite Hchunk. reflexivity.
  - rewrite Hchunk in *.
    inversion Hnext as [q now results Hlen| |]; subst; [reflexivity| |]; cbn in *; lia.
Qed.

Lemma runBatch_elapsed_bounds_witness :
  0 < 3 /\
  exists log r,
    enrichProcessesBatch payFails fourProcesses () = Some (log, r) /\
    elapsed r <= 20.
Proof.
  split; [apply Nat.lt_0_succ|].
  destruct (runBatch_elapsed_bounds Process.id (fun process => payFails process ()) 3
              fourProcesses (Nat.lt_0_succ 2)) as (log & r & Heq & Hupper & _).
  exists log, r. split; [exact Heq | exact Hupper].
Defined.

(** ** generateConceptId *)

Lemma toLowerCase_cons a rest :
  JS.toLowerCase (String a rest)
  = let n := N_of_ascii a in
    if JS.is_upper n then String (ascii_of_N (n + 32)) (JS.toLowerCase rest)
    else if (n =? 226)%N then
      match rest with
      | String b (String c rest') =>
          if ((N_of_ascii b =? 132) && (N_of_ascii c =? 170))%N
          then String "k" (JS.toLowerCase rest')
          else String a (JS.toLowerCase rest)
      | _ => String a (JS.toLowerCase rest)
      end
    else if (n =? 196)%N then
      match rest with
      | String b rest' =>
          if (N_of_ascii b =? 176)%N
          then String "i" (String (ascii_of_N 204)
                 (String (ascii_of_N 135) (JS.toLowerCase rest')))
          else String a (JS.toLowerCase rest)
      | EmptyString => String a (JS.toLowerCase rest)
      end
    else String a (JS.toLowerCase rest).
Proof.
  destruct a as [[] [] [] [] [] [] [] []]; try reflexivity;
    destruct rest as [|b [|c rest']]; reflexivity.
Qed.

Lemma append_cons c a x : String c a +:+ x = String c (a +:+ x).
Proof. reflexivity. Qed.

Lemma append_nil_l x : "" +:+ x = x.
Proof. reflexivity. Qed.

Lemma append_assoc a b c : (a +:+ b) +:+ c = a +:+ (b +:+ c).
Proof.
  induction a as [|x a IH]; [reflexivity|]. rewrite !append_cons, IH. reflexivity.
Qed.

Lemma append_nil_r a : a +:+ "" = a.
Proof.
  induction a as [|x a IH]; [reflexivity|]. rewrite append_cons, IH. reflexivity.
Qed.

Lemma length_append a b : String.length (a +:+ b) = String.length a + String.length b.
Proof.
  induction a as [|x a IH]; [reflexivity|]. rewrite append_cons. cbn. rewrite IH. reflexivity.
Qed.

Ltac push_append := rewrite ?append_cons, ?append_nil_l.

(** Lower-casing does not reach across a hyphen. *)
Lemma toLowerCase_hyphen n : forall a b,
  String.length a <= n ->
  JS.toLowerCase (a +:+ String "-" b) = JS.toLowerCase a +:+ String "-" (JS.toLowerCase b).
Proof.
  induction n as [|n IH]; intros a b Hlen.
  - destruct a; [reflexivity | cbn in Hlen; lia].
  - destruct a as [|c a]; [reflexivity|].
    cbn in Hlen. push_append.
    rewrite (toLowerCase_cons c (a +:+ String "-" b)), (toLowerCase_cons c a). cbv zeta.
    destruct (JS.is_upper (N_of_ascii c)).
    { push_append. rewrite IH by lia. reflexivity. }
    destruct (N_of_ascii c =? 226)%N.
    { destruct a as [|b0 [|c0 a]]; push_append.
      - destruct b as [|c1 b]; reflexivity.
      - replace (N_of_ascii b0 =? 132)%N with (N_of_ascii b0 =? 132)%N by reflexivity.
        change (N_of_ascii "-" =? 170)%N with false. rewrite andb_false_r.
        f_equal. apply (IH (String b0 "") b). cbn in *. lia.
      - destruct ((N_of_ascii b0 =? 132) && (N_of_ascii c0 =? 170))%N;
          push_append; f_equal.
        + apply IH. cbn in Hlen. lia.
        + apply (IH (String b0 (String c0 a)) b). cbn in *. lia. }
    destruct (N_of_ascii c =? 196)%N.
    { destruct a as [|b0 a]; push_append; [reflexivity|].
      destruct (N_of_ascii b0 =? 176)%N; push_append; f_equal.
      - do 2 f_equal. apply IH. cbn in Hlen. lia.
      - apply (IH (String b0 a) b). cbn in *. lia. }
    push_append. f_equal. apply IH. lia.
Qed.

Lemma strip_app a b : JS.strip (a +:+ b) = JS.strip a +:+ JS.strip b.
Proof.
  induction a as [|c a IH]; [reflexivity|]. rewrite append_cons. cbn [JS.strip].
  destruct (JS.keeps c); rewrite ?append_cons, IH; reflexivity.
Qed.

Lemma cleaned_hyphen a b : cleaned (a +:+ "-" +:+ b) = cleaned a +:+ "-" +:+ cleaned b.
Proof.
  change ("-" +:+ b) with (String "-" b). unfold cleaned.
  rewrite (toLowerCase_hyphen (String.length a)) by lia.
  rewrite strip_app. reflexivity.
Qed.

Lemma strip_kept s : Forall (fun c => JS.keeps c = true) (list_ascii_of_string (JS.strip s)).
Proof.
  induction s as [|c s IH]; cbn; [constructor|].
  destruct (JS.keeps c) eqn:Hc; [|exact IH]. cbn. constructor; assumption.
Qed.

(** Text of lower-case letters, digits and hyphens is left as it is. *)
Lemma cleaned_kept s :
  Forall (fun c => JS.keeps c = true) (list_ascii_of_string s) -> cleaned s = s.
Proof.
  unfold cleaned. induction s as [|c s IH]; intros Hs; [reflexivity|].
  cbn in Hs. apply Forall_cons in Hs as [Hc Hs].
  rewrite toLowerCase_cons. cbv zeta.
  assert (JS.is_upper (N_of_ascii c) = false /\ (N_of_ascii c =? 226)%N = false /\
          (N_of_ascii c =? 196)%N = false) as (-> & -> & ->).
  { unfold JS.keeps, JS.is_lower, JS.is_digit, JS.is_upper in *.
    rewrite !orb_true_iff, !andb_true_iff, !N.leb_le, N.eqb_eq in Hc.
    rewrite andb_false_iff, !N.leb_gt, !N.eqb_neq. lia. }
  cbn. rewrite Hc, IH by exact Hs. reflexivity.
Qed.

Lemma digit36_kept d : (d < 36)%N -> JS.keeps (JS.digit36 d) = true.
Proof.
  intros Hd. unfold JS.keeps, JS.digit36, JS.is_lower, JS.is_digit.
  destruct (d <? 10)%N eqn:Hlt; rewrite N_ascii_embedding.
  - apply N.ltb_lt in Hlt.
    rewrite !orb_true_iff, !andb_true_iff, !N.leb_le. lia.
  - apply N.ltb_lt in Hlt. lia.
  - apply N.ltb_ge in Hlt.
    rewrite !orb_true_iff, !andb_true_iff, !N.leb_le. lia.
  - lia.
Qed.

Lemma digitValue_digit36 d : (d < 36)%N -> JSText.digitValue (JS.digit36 d) = d.
Proof.
  intros Hd. unfold JSText.digitValue, JS.digit36, JS.is_digit.
  destruct (d <? 10)%N eqn:Hlt; rewrite N_ascii_embedding.
  - apply N.ltb_lt in Hlt.
    replace ((48 <=? 48 + d) && (48 + d <=? 57))%N with true; [lia|].
    symmetry. rewrite andb_true_iff, !N.leb_le. lia.
  - apply N.ltb_lt in Hlt. lia.
  - apply N.ltb_ge in Hlt.
    replace ((48 <=? 87 + d) && (87 + d <=? 57))%N with false; [lia|].
    symmetry. rewrite andb_false_iff, !N.leb_gt. lia.
  - lia.
Qed.

Lemma parse36_app a b v : JSText.parse36 (a +:+ b) v = JSText.parse36 b (JSText.parse36 a v).
Proof.
  revert v. induction a as [|c a IH]; intros v; [reflexivity|].
  rewrite append_cons. apply IH.
Qed.

Lemma list_ascii_app a b :
  list_ascii_of_string (a +:+ b) = (list_ascii_of_string a ++ list_ascii_of_string b)%list.
Proof.
  induction a as [|c a IH]; [reflexivity|].
  rewrite append_cons. cbn. rewrite IH. reflexivity.
Qed.

(** The digits that [toString36_aux] writes in front of [acc]: they are
    digits of base 36, and read back they give the number. *)
Lemma toString36_aux_digits fuel : forall n acc,
  (n < 2 ^ N.of_nat (S fuel))%N ->
  exists digits,
    JS.toString36_aux (S fuel) n acc = digits +:+ acc /\
    Forall (fun c => JS.keeps c = true) (list_ascii_of_string digits) /\
    forall v, JSText.parse36 digits v = (v * 36 ^ N.of_nat (String.length digits) + n)%N.
Proof.
  induction fuel as [|fuel IH]; intros n acc Hn.
  - assert (n < 36)%N as Hlt by (cbn in Hn; lia).
    exists (String (JS.digit36 n) "").
    cbn [JS.toString36_aux]. rewrite N.mod_small by exact Hlt.
    apply N.ltb_lt in Hlt as Hb. rewrite Hb. split; [reflexivity|]. split.
    + cbn. constructor; [apply digit36_kept; exact Hlt | constructor].
    + intros v. cbn [JSText.parse36 String.length].
      rewrite digitValue_digit36 by exact Hlt. change (36 ^ N.of_nat 1)%N with 36%N. lia.
  - change (JS.toString36_aux (S (S fuel)) n acc)
      with (let acc' := String (JS.digit36 (n mod 36)) acc in
            if (n <? 36)%N then acc' else JS.toString36_aux (S fuel) (n / 36) acc').
    cbv zeta. destruct (n <? 36)%N eqn:Hb.
    + apply N.ltb_lt in Hb. exists (String (JS.digit36 n) "").
      rewrite N.mod_small by exact Hb. split; [reflexivity|]. split.
      * cbn. constructor; [apply digit36_kept; exact Hb | constructor].
      * intros v. cbn [JSText.parse36 String.length].
        rewrite digitValue_digit36 by exact Hb. change (36 ^ N.of_nat 1)%N with 36%N. lia.
    + apply N.ltb_ge in Hb.
      assert (n mod 36 < 36)%N as Hmod by (apply N.mod_lt; lia).
      destruct (IH (n / 36)%N (String (JS.digit36 (n mod 36)) acc))
        as (digits & Heq & Hkept & Hparse).
      { apply N.Div0.div_lt_upper_bound.
        rewrite Nat2N.inj_succ, N.pow_succ_r' in Hn. lia. }
      exists (digits +:+ String (JS.digit36 (n mod 36)) "").
      split; [|split].
      * rewrite Heq, append_assoc. reflexivity.
      * rewrite list_ascii_app. apply Forall_app. split; [exact Hkept|].
        cbn. constructor; [apply digit36_kept; exact Hmod | constructor].
      * intros v. rewrite parse36_app. cbn [JSText.parse36].
        rewrite Hparse, digitValue_digit36 by exact Hmod.
        rewrite length_append. cbn [String.length].
        rewrite Nat2N.inj_add, N.pow_add_r. change (36 ^ N.of_nat 1)%N with 36%N.
        pose proof (N.div_mod n 36). nia.
Qed.

Lemma toString36_digits n :
  Forall (fun c => JS.keeps c = true) (list_ascii_of_string (JS.toString36 n)) /\
  JSText.parse36 (JS.toString36 n) 0 = n.
Proof.
  unfold JS.toString36.
  destruct (toString36_aux_digits (N.to_nat (N.log2 n)) n "") as (digits & Heq & Hkept & Hparse).
  { rewrite Nat2N.inj_succ, N2Nat.id.
    destruct n as [|p]; [reflexivity|]. apply N.log2_spec. lia. }
  rewrite Heq, append_nil_r.
  split; [exact Hkept|]. rewrite Hparse. lia.
Qed.

Lemma generateConceptId_parts input now :
  generateConceptId input now
  = JS.join "-" (cleaned <$> conceptParts input) +:+ "-" +:+ JS.toString36 now.
Proof.
  unfold generateConceptId, conceptParts.
  change (JS.strip (JS.toLowerCase ?s)) with (cleaned s).
  cbn [JS.join fmap list_fmap].
  rewrite !cleaned_hyphen.
  rewrite (cleaned_kept (JS.toString36 now)) by apply toString36_digits.
  rewrite !append_assoc. reflexivity.
Qed.

(** X9. A concept id is made of lower-case letters, digits and hyphens
    only, whatever the ids of the hypothesis and of the entities. *)
Theorem generateConceptId_alphabet input now :
  Forall (fun c => JS.keeps c = true) (list_ascii_of_string (generateConceptId input now)).
Proof. unfold generateConceptId. apply strip_kept. Qed.

(** X10. A concept id is the hypothesis id and the ids of the
    occupation, the industry and the process (["gen"] for one that is
    missing or has an empty id), each lower-cased and stripped of every
    character outside [a-z0-9-] on its own, then the clock reading in
    base 36, joined by hyphens: the cleaning neither removes a hyphen
    that separates two parts nor changes the clock suffix. *)
Theorem generateConceptId_shape input now :
  generateConceptId input now
  = JS.join "-" ((cleaned <$> conceptParts input) ++ [JS.toString36 now]).
Proof.
  rewrite generateConceptId_parts. unfold conceptParts.
  cbn [JS.join fmap list_fmap app]. rewrite !append_assoc. reflexivity.
Qed.

(** X11. For one seed, two different clock readings give two different
    ids: the suffix [Date.now().toString(36)] loses nothing of the clock
    reading, so the id tells two calls apart as long as the clock has
    moved between them. *)
Theorem generateConceptId_distinct_clock input (now now' : N) :
  now <> now' -> generateConceptId input now <> generateConceptId input now'.
Proof.
  intros Hne Heq. apply Hne. rewrite !generateConceptId_parts in Heq.
  apply (inj (String.append _)) in Heq. apply (inj (String.append _)) in Heq.
  rewrite <- (proj2 (toString36_digits now)), <- (proj2 (toString36_digits now')), Heq.
  reflexivity.
Qed.

Lemma generateConceptId_distinct_clock_witness :
  generateConceptId sampleConceptInput 1700000000000
  <> generateConceptId sampleConceptInput 1700000000001.
Proof. apply generateConceptId_distinct_clock. lia. Defined.

(** X12. The id depends on the hypothesis and entity ids only through
    their cleaned forms: two seeds whose ids differ in case, or in
    characters outside [a-z0-9-], get the same concept id at the same
    clock reading. *)
Theorem generateConceptId_same_cleaned_parts input input' now :
  cleaned <$> conceptParts input = cleaned <$> conceptParts input' ->
  generateConceptId input now = generateConceptId input' now.
Proof. intros Heq. rewrite !generateConceptId_parts, Heq. reflexivity. Qed.

Lemma generateConceptId_same_cleaned_parts_witness :
  generateConceptId sampleConceptInput 1700000000000
  = generateConceptId sampleConceptInputLoud 1700000000000.
Proof. apply generateConceptId_same_cleaned_parts. vm_compute. reflexivity. Defined.

(** ** generateStartupIdeas *)

Lemma dimensionLine_take label (names : list string) :
  dimensionLine label (take 20 names) = dimensionLine label names.
Proof.
  unfold dimensionLine, JS.slice. rewrite Nat.sub_0_r, !drop_0, take_take.
  destruct names as [|name names]; reflexivity.
Qed.

(** X13. Of each candidate list, only the first twenty entries reach
    the collaborator: [generateStartupIdeas] gives the same result on the
    input whose lists are cut after their 20th entry. *)
Theorem generateStartupIdeas_first_twenty startupAI input :
  generateStartupIdeas startupAI input = generateStartupIdeas startupAI (firstTwenty input).
Proof.
  unfold generateStartupIdeas. f_equal. f_equal.
  unfold ideasPrompt, firstTwenty. cbn [GenerateIdeasInput.hypothesis
    GenerateIdeasInput.occupations GenerateIdeasInput.industries
    GenerateIdeasInput.processes GenerateIdeasInput.count].
  destruct (GenerateIdeasInput.occupations input) as [occupations|],
           (GenerateIdeasInput.industries input) as [industries|],
           (GenerateIdeasInput.processes input) as [processes|];
    unfold default; cbn [fmap option_fmap option_map from_option id];
    rewrite ?fmap_take, ?dimensionLine_take; reflexivity.
Qed.

(** ** generateProcessDiagrams and enrichProcess *)

Lemma values_length {A} (ps : list (async A)) :
  (forall p, p ∈ ps -> fulfils p) -> length (Promise.values ps) = length ps.
Proof.
  induction ps as [|p ps IH]; intros Hps; [reflexivity|]. cbn.
  destruct (Hps p) as [a Ha]; [apply elem_of_cons; left; reflexivity|].
  rewrite Ha. cbn. f_equal. apply IH. intros p' Hp'. apply Hps, elem_of_cons. right. exact Hp'.
Qed.

Lemma generateProcessDiagrams_all processAI process context :
  signal (generateProcessDiagrams processAI process context)
  = signal (Promise.all (diagramCalls processAI process context)) /\
  forall d, settled (generateProcessDiagrams processAI process context) = Fulfilled d ->
    Forall (fun slot => MermaidDiagram.type slot.1 = slot.2) (processDiagramSlots d).
Proof.
  unfold generateProcessDiagrams.
  destruct (Promise.all (diagramCalls processAI process context)) as [t [values|e]] eqn:Hall.
  - assert (settled (Promise.all (diagramCalls processAI process context)) = Fulfilled values)
      as Hvalues by (rewrite Hall; reflexivity).
    apply all_fulfilled in Hvalues as (Hcalls & Hvalues & _).
    apply values_length in Hcalls. rewrite <- Hvalues in Hcalls. cbn in Hcalls.
    destruct values as [|v1 [|v2 [|v3 [|v4 [|v5 [|v6 values]]]]]]; try discriminate Hcalls.
    unfold signal, mbind, async_bind, mret, async_ret. cbn.
    split; [rewrite Nat.add_0_r; reflexivity|].
    intros d Hd. injection Hd as <-. repeat constructor.
  - unfold signal, mbind, async_bind. cbn. split; [reflexivity|]. intros d Hd. discriminate Hd.
Qed.

(** X14. [generateProcessDiagrams] starts its five calls together and
    settles as their [Promise.all]: when all five fulfil, after the time of
    the slowest of them; otherwise with the error of one of the five, at
    the instant that call rejects. *)
Theorem generateProcessDiagrams_parallel processAI process context :
  let calls := diagramCalls processAI process context in
  let diagrams := generateProcessDiagrams processAI process context in
  signal diagrams = signal (Promise.all calls) /\
  ((forall c, c ∈ calls -> fulfils c) ->
   fulfils diagrams /\ elapsed diagrams = max_list (elapsed <$> calls)) /\
  (forall e, settled diagrams = Rejected e ->
     exists c, c ∈ calls /\ settled c = Rejected e /\ elapsed c = elapsed diagrams).
Proof.
  intros calls diagrams.
  destruct (generateProcessDiagrams_all processAI process context) as [Hsignal _].
  fold calls diagrams in Hsignal. split; [exact Hsignal|].
  clearbody calls diagrams. unfold signal in Hsignal. injection Hsignal as Helapsed Hsettled. split.
  - intros Hcalls. destruct (all_fulfils calls Hcalls) as [values Hvalues].
    rewrite Hvalues in Hsettled.
    destruct (settled diagrams) as [d|e] eqn:Hd; [|discriminate Hsettled].
    split; [exists d; exact Hd|].
    rewrite Helapsed. apply (all_fulfilled calls values Hvalues).
  - intros e He. rewrite He in Hsettled. rewrite Helapsed.
    unfold Promise.all in *.
    destruct (Promise.first_rejection calls) as [[t e']|] eqn:Hfirst; cbn in *;
      [|discriminate Hsettled].
    injection Hsettled as ->.
    apply first_rejection_Some in Hfirst as (c & Hc & Hrejected & Ht). eauto.
Qed.

(** X15. Whatever the collaborator answers and whatever the options,
    each of the five diagrams of an enriched process carries the diagram
    type of its slot. *)
Theorem enrichProcess_diagram_types processAI process options e :
  settled (enrichProcess processAI process options) = Fulfilled e ->
  Forall (fun slot => MermaidDiagram.type slot.1 = slot.2)
    (processDiagramSlots (EnrichedProcess.diagrams e)).
Proof.
  intros H. unfold enrichProcess in H.
  apply settled_bind_fulfilled in H as (characteristics & _ & H).
  apply settled_bind_fulfilled in H as (bottlenecks & _ & H).
  apply settled_bind_fulfilled in H as (automation & _ & H).
  apply settled_bind_fulfilled in H as (diagrams & Hdiagrams & H).
  apply settled_ret in H. subst e. cbn [EnrichedProcess.diagrams].
  destruct (default true (EnrichProcessOptions.includeDiagrams options)).
  - apply settled_fmap_fulfilled in Hdiagrams as (d & Hd & ->). cbn [default].
    eapply generateProcessDiagrams_all, Hd.
  - apply settled_ret in Hdiagrams. subst diagrams. repeat constructor.
Qed.

Lemma enrichProcess_diagram_types_witness :
  exists e,
    settled (enrichProcess steadyProcessAI (sampleProcess "Bill" "Bill the Customers")
               processDefaults) = Fulfilled e /\
    MermaidDiagram.type (ProcessDiagrams.erDiagram (EnrichedProcess.diagrams e))
    = MermaidDiagramType.erDiagram.
Proof.
  destruct (enrichProcess steadyProcessAI (sampleProcess "Bill" "Bill the Customers")
              processDefaults) as [t [e|err]] eqn:Hrun.
  - exists e. split; [reflexivity|].
    assert (settled (enrichProcess steadyProcessAI (sampleProcess "Bill" "Bill the Customers")
                       processDefaults) = Fulfilled e) as He by (rewrite Hrun; reflexivity).
    pose proof (enrichProcess_diagram_types _ _ _ e He) as Htypes.
    exact (Forall_lookup_1 _ _ 3
             (ProcessDiagrams.erDiagram (EnrichedProcess.diagrams e),
              MermaidDiagramType.erDiagram) Htypes eq_refl).
  - vm_compute in Hrun. discriminate Hrun.
Defined.

(** X16. [enrichProcess] awaits the process characteristics, the
    bottlenecks and the automation opportunities one after the other, and
    then, unless the diagrams are switched off, the five diagrams
    together: it rejects with the first of these that rejects, and
    otherwise takes the sum of the three analyses and of the slowest
    diagram. *)
Theorem enrichProcess_sequential processAI process options :
  signal (enrichProcess processAI process options)
  = awaitEach (processCalls processAI process options).
Proof.
  unfold enrichProcess, processCalls. cbv zeta.
  destruct (generateProcessDiagrams_all processAI process
              (processContext process (EnrichProcessOptions.industryContext options)
                 (EnrichProcessOptions.occupationContext options))) as [<- _].
  destruct (default true (EnrichProcessOptions.includeDiagrams options));
    cbn [app]; await_calls.
Qed.

(** X17. The [depth] option has no effect on the enrichment of a
    process or of a task: neither function reads it. *)
Theorem enrichProcess_enrichTask_ignore_depth processAI taskAI process task
    processOptions taskOptions depth :
  enrichProcess processAI process (processOptionsAt depth processOptions)
  = enrichProcess processAI process processOptions /\
  enrichTask taskAI task (taskOptionsAt depth taskOptions)
  = enrichTask taskAI task taskOptions.
Proof. split; reflexivity. Qed.

(** ** enrichTask and generateTaskDiagrams *)

Lemma prefix_spec p : forall s,
  String.prefix p s = true <-> exists post, s = p +:+ post.
Proof.
  induction p as [|a p IH]; intros s.
  - split; [intros _; exists s; reflexivity | intros _; destruct s; reflexivity].
  - destruct s as [|b s]; cbn [String.prefix].
    + split; [discriminate | intros [post Hpost]; discriminate Hpost].
    + destruct (ascii_dec a b) as [->|Hne].
      * rewrite IH. split; intros [post Hpost]; exists post.
        -- rewrite append_cons, Hpost. reflexivity.
        -- rewrite append_cons in Hpost. injection Hpost as ->. reflexivity.
      * split; [discriminate|]. intros [post Hpost].
        rewrite append_cons in Hpost. injection Hpost as -> _. contradiction.
Qed.

(** [includes] finds a pattern exactly in the texts that hold it
    somewhere. *)
Lemma includes_spec p s :
  JSText.includes p s = true <-> exists pre post, s = pre +:+ p +:+ post.
Proof.
  induction s as [|a s IH].
  - cbn [JSText.includes]. rewrite orb_false_r, prefix_spec. split.
    + intros [post Hpost]. exists "", post. exact Hpost.
    + intros (pre & post & Heq). destruct pre as [|c pre]; [exists post; exact Heq|].
      rewrite append_cons in Heq. discriminate Heq.
  - cbn [JSText.includes]. rewrite orb_true_iff, prefix_spec, IH. split.
    + intros [[post Hpost]|(pre & post & Heq)].
      * exists "", post. exact Hpost.
      * exists (String a pre), post. rewrite append_cons, Heq. reflexivity.
    + intros (pre & post & Heq). destruct pre as [|c pre].
      * left. exists post. exact Heq.
      * right. rewrite append_cons in Heq. injection Heq as -> ->. eauto.
Qed.

(** A text that holds a pattern holds every part of the pattern. *)
Lemma includes_part before p after s :
  JSText.includes (before +:+ p +:+ after) s = true -> JSText.includes p s = true.
Proof.
  rewrite !includes_spec. intros (pre & post & ->).
  exists (pre +:+ before), (after +:+ post). rewrite !append_assoc. reflexivity.
Qed.

(** X18. [generateTaskDiagrams] takes a task to involve several actors
    exactly when its description, in lower case, holds one of the words
    coordinate, collaborate, communicate somewhere, also inside a longer
    word. *)
Theorem involvesActors_substring task :
  involvesActors task = true <->
  exists word pre post,
    word ∈ actorWords /\
    JS.toLowerCase (Task.description task) = pre +:+ word +:+ post.
Proof.
  unfold involvesActors, actorWords. cbv zeta.
  rewrite !orb_true_iff, !includes_spec. split.
  - intros [[(pre & post & Heq)|(pre & post & Heq)]|(pre & post & Heq)];
      eexists _, pre, post; (split; [|exact Heq]);
      rewrite !elem_of_cons; auto.
  - intros (word & pre & post & Hword & Heq).
    rewrite !elem_of_cons, elem_of_nil in Hword.
    destruct Hword as [->|[->|[->|[]]]]; eauto 6.
Qed.

Lemma generateTaskDiagrams_fulfilled taskAI task context d :
  settled (generateTaskDiagrams taskAI task context) = Fulfilled d ->
  MermaidDiagram.type (TaskDiagrams.flowchart d) = MermaidDiagramType.flowchart /\
  TaskDiagrams.stateDiagram d = None /\
  (is_Some (TaskDiagrams.sequence d) <-> involvesActors task = true) /\
  (forall s, TaskDiagrams.sequence d = Some s ->
     MermaidDiagram.type s = MermaidDiagramType.sequence).
Proof.
  intros H. unfold generateTaskDiagrams in H.
  apply settled_bind_fulfilled in H as (flowchart & _ & H).
  apply settled_bind_fulfilled in H as (sequence & Hsequence & H).
  apply settled_ret in H. subst d.
  cbn [TaskDiagrams.flowchart TaskDiagrams.sequence TaskDiagrams.stateDiagram].
  split; [reflexivity|]. split; [reflexivity|].
  destruct (involvesActors task).
  - apply settled_fmap_fulfilled in Hsequence as (s & _ & ->).
    split; [split; [reflexivity | eexists; reflexivity]|].
    intros s' Hs'. injection Hs' as <-. reflexivity.
  - apply settled_ret in Hsequence. subst sequence.
    split; [split; [intros [s Hs]; discriminate Hs | discriminate]|].
    intros s Hs. discriminate Hs.
Qed.

(** X19. Every enriched task carries the id of its task, its flowchart
    carries the type flowchart and there is no state diagram; a sequence
    diagram is there exactly when the diagrams are not switched off and
    the description names several actors, and it then carries the type
    sequence. *)
Theorem enrichTask_diagrams taskAI task options e :
  settled (enrichTask taskAI task options) = Fulfilled e ->
  EnrichedTask.taskId e = Task.id task /\
  MermaidDiagram.type (TaskDiagrams.flowchart (EnrichedTask.diagrams e))
  = MermaidDiagramType.flowchart /\
  TaskDiagrams.stateDiagram (EnrichedTask.diagrams e) = None /\
  (is_Some (TaskDiagrams.sequence (EnrichedTask.diagrams e)) <->
   EnrichTaskOptions.includeDiagrams options <> Some false /\ involvesActors task = true) /\
  (forall s, TaskDiagrams.sequence (EnrichedTask.diagrams e) = Some s ->
     MermaidDiagram.type s = MermaidDiagramType.sequence).
Proof.
  intros H. unfold enrichTask in H.
  apply settled_bind_fulfilled in H as (characteristics & _ & H).
  apply settled_bind_fulfilled in H as (dependencies & _ & H).
  apply settled_bind_fulfilled in H as (automation & _ & H).
  apply settled_bind_fulfilled in H as (diagrams & Hdiagrams & H).
  apply settled_ret in H. subst e. cbn [EnrichedTask.diagrams EnrichedTask.taskId].
  split; [reflexivity|].
  destruct (EnrichTaskOptions.includeDiagrams options) as [[|]|]; cbn [default] in Hdiagrams.
  1, 3: apply settled_fmap_fulfilled in Hdiagrams as (d & Hd & ->); cbn [default];
    apply generateTaskDiagrams_fulfilled in Hd as (Hflow & Hstate & Hseq & Htype);
    (split; [exact Hflow|]); (split; [exact Hstate|]); (split; [|exact Htype]);
    rewrite Hseq; split; [intros Hyes; split; [discriminate | exact Hyes] | tauto].
  apply settled_ret in Hdiagrams. subst diagrams. cbn.
  split; [reflexivity|]. split; [reflexivity|]. split.
  - split; [intros [s Hs]; discriminate Hs | intros [Hon _]; contradiction].
  - intros s Hs. discriminate Hs.
Qed.

Lemma enrichTask_diagrams_witness :
  exists e,
    settled (enrichTask steadyTaskAI
               (sampleTask "PrepareBudget" "Coordinate with department heads on budgets")
               taskDefaults) = Fulfilled e /\
    is_Some (TaskDiagrams.sequence (EnrichedTask.diagrams e)).
Proof.
  destruct (enrichTask steadyTaskAI
              (sampleTask "PrepareBudget" "Coordinate with department heads on budgets")
              taskDefaults) as [t [e|err]] eqn:Hrun.
  - exists e. split; [reflexivity|].
    assert (settled (enrichTask steadyTaskAI
                       (sampleTask "PrepareBudget" "Coordinate with department heads on budgets")
                       taskDefaults) = Fulfilled e) as He by (rewrite Hrun; reflexivity).
    destruct (enrichTask_diagrams _ _ _ e He) as (_ & _ & _ & Hsequence & _).
    apply Hsequence. split; [discriminate | vm_compute; reflexivity].
  - vm_compute in Hrun. discriminate Hrun.
Defined.

Lemma generateTaskDiagrams_sequential taskAI task context :
  signal (generateTaskDiagrams taskAI task context)
  = awaitEach (signal (TaskAI.taskFlowchart taskAI (taskFlowchartPrompt task context))
               :: (if involvesActors task
                   then [signal (TaskAI.taskSequence taskAI (taskSequencePrompt task context))]
                   else [])).
Proof. unfold generateTaskDiagrams. destruct (involvesActors task); await_calls. Qed.

(** X20. [enrichTask] awaits the task characteristics, the
    dependencies and the automation analysis one after the other, then,
    unless the diagrams are switched off, the flowchart and, for a task
    with several actors, the sequence diagram after it: the two task
    diagrams are not requested together. *)
Theorem enrichTask_sequential taskAI task options :
  signal (enrichTask taskAI task options) = awaitEach (taskCalls taskAI task options).
Proof.
  unfold enrichTask, taskCalls. cbv zeta.
  destruct (default true (EnrichTaskOptions.includeDiagrams options));
    cbn [app]; do 3 (apply signal_await_call; intros ?).
  - apply signal_await_last; [apply generateTaskDiagrams_sequential | reflexivity].
  - await_calls.
Qed.

(** ** enrichOccupation and its helpers *)

Lemma vice_president name :
  JSText.includes "vice president" name = true -> JSText.includes "president" name = true.
Proof. apply (includes_part "vice " "president" ""). Qed.

(** X21. The budget authority and the decision role that are read off
    the name of an occupation go together: a decision maker has at least
    moderate authority, an influencer never has large authority, a plain
    user has none or small authority unless the name holds "president",
    large authority comes only with the roles of decision maker and
    economic buyer, and no occupation is given the role of blocker. *)
Theorem determineBudgetAuthority_determineDecisionRole_coherent occupation :
  let authority := determineBudgetAuthority occupation in
  let role := determineDecisionRole occupation in
  role <> DecisionRole.blocker /\
  (role = DecisionRole.decision_maker ->
   authority = BudgetAuthority.unlimited \/ authority = BudgetAuthority.large
   \/ authority = BudgetAuthority.moderate) /\
  (role = DecisionRole.influencer ->
   authority = BudgetAuthority.unlimited \/ authority = BudgetAuthority.moderate
   \/ authority = BudgetAuthority.small) /\
  (role = DecisionRole.user ->
   authority = BudgetAuthority.unlimited \/ authority = BudgetAuthority.small
   \/ authority = BudgetAuthority.none) /\
  (authority = BudgetAuthority.large ->
   role = DecisionRole.decision_maker \/ role = DecisionRole.economic_buyer) /\
  (authority = BudgetAuthority.moderate -> role <> DecisionRole.user).
Proof.
  unfold determineBudgetAuthority, determineDecisionRole. cbv zeta.
  pose proof (vice_president (JS.toLowerCase (Occupation.name occupation))) as Hvice.
  repeat match goal with
  | |- context [JSText.includes ?word ?name] =>
      destruct (JSText.includes word name); cbn [orb];
      try solve [ exfalso; discriminate (Hvice eq_refl)
                | repeat split; intros; first [congruence | auto] ]
  end.
Qed.

(** X22. A name that holds "vice president" holds "president": such an
    occupation is given unlimited budget authority by the first test, and
    the "vice president" alternative of the test for large authority
    never decides. *)
Theorem determineBudgetAuthority_vice_president occupation :
  JSText.includes "vice president" (JS.toLowerCase (Occupation.name occupation)) = true ->
  determineBudgetAuthority occupation = BudgetAuthority.unlimited.
Proof.
  intros Hvice. apply vice_president in Hvice.
  unfold determineBudgetAuthority. cbv zeta. rewrite Hvice, !orb_true_r. reflexivity.
Qed.

Lemma determineBudgetAuthority_vice_president_witness :
  determineBudgetAuthority (sampleOccupation "VicePresidentSales" "Vice President of Sales")
  = BudgetAuthority.unlimited.
Proof. apply determineBudgetAuthority_vice_president. vm_compute. reflexivity. Defined.

(** X23. The record that [enrichOccupation] returns is coherent with
    itself and with the occupation: its top problem and pain point ids
    are the ids of the first three (or fewer) of its own problem stacks
    and pain points, in order; its budget authority and decision role are
    those that the name of the occupation gives, whatever the collaborator
    answered; with the workflows switched off its workflows are empty; and
    with the messaging switched off its messaging hooks are the five empty
    lists. *)
Theorem enrichOccupation_derived_fields occupationAI occupation options e :
  settled (enrichOccupation occupationAI occupation options) = Fulfilled e ->
  EnrichedOccupationRecord.occupationId e = Occupation.id occupation /\
  EnrichedOccupationRecord.topProblemIds e
  = ProblemStack.id <$> take 3 (EnrichedOccupationRecord.problemStacks e) /\
  EnrichedOccupationRecord.topPainPointIds e
  = PainPoint.id <$> take 3 (EnrichedOccupationRecord.painPoints e) /\
  EnrichedOccupationRecord.budgetAuthority e = determineBudgetAuthority occupation /\
  EnrichedOccupationRecord.decisionRole e = determineDecisionRole occupation /\
  (EnrichOccupationOptions.includeWorkflows options = Some false ->
   EnrichedOccupationRecord.workflows e = []) /\
  (EnrichOccupationOptions.includeMessaging options = Some false ->
   EnrichedOccupationRecord.messagingHooks e
   = {| MessagingHooks.headlines := [];
        MessagingHooks.emailSubjects := [];
        MessagingHooks.adCopy := [];
        MessagingHooks.socialPosts := [];
        MessagingHooks.objections := [] |}).
Proof.
  intros H. unfold enrichOccupation in H.
  apply settled_bind_fulfilled in H as (problemStacks & _ & H).
  apply settled_bind_fulfilled in H as (painPoints & _ & H).
  apply settled_bind_fulfilled in H as (workflows & Hworkflows & H).
  apply settled_bind_fulfilled in H as (buyingTriggers & _ & H).
  apply settled_bind_fulfilled in H as (aiOpportunity & _ & H).
  apply settled_bind_fulfilled in H as (dayInLife & _ & H).
  apply settled_bind_fulfilled in H as (toolsAndTech & _ & H).
  apply settled_bind_fulfilled in H as (messagingHooks & Hmessaging & H).
  apply settled_ret in H. subst e.
  cbn [EnrichedOccupationRecord.occupationId EnrichedOccupationRecord.topProblemIds
       EnrichedOccupationRecord.problemStacks EnrichedOccupationRecord.topPainPointIds
       EnrichedOccupationRecord.painPoints EnrichedOccupationRecord.budgetAuthority
       EnrichedOccupationRecord.decisionRole EnrichedOccupationRecord.workflows
       EnrichedOccupationRecord.messagingHooks].
  unfold JS.slice. rewrite !drop_0.
  repeat (split; [reflexivity|]). split.
  - intros Hoff. rewrite Hoff in Hworkflows. apply settled_ret in Hworkflows. auto.
  - intros Hoff. rewrite Hoff in Hmessaging. apply settled_ret in Hmessaging.
    subst messagingHooks. reflexivity.
Qed.

Lemma enrichOccupation_derived_fields_witness :
  exists e,
    settled (enrichOccupation steadyOccupationAI
               (sampleOccupation "FinanceManager" "Finance Manager") occupationDefaults)
    = Fulfilled e /\
    EnrichedOccupationRecord.topProblemIds e = ["late-close"; "manual-entry"; "audit-risk"] /\
    EnrichedOccupationRecord.budgetAuthority e = BudgetAuthority.moderate.
Proof.
  destruct (enrichOccupation steadyOccupationAI
              (sampleOccupation "FinanceManager" "Finance Manager") occupationDefaults)
    as [t [e|err]] eqn:Hrun.
  - exists e. split; [reflexivity|].
    assert (settled (enrichOccupation steadyOccupationAI
                       (sampleOccupation "FinanceManager" "Finance Manager")
                       occupationDefaults) = Fulfilled e) as He by (rewrite Hrun; reflexivity).
    destruct (enrichOccupation_derived_fields _ _ _ e He) as (_ & Htop & _ & Hauthority & _).
    rewrite Htop, Hauthority. vm_compute in Hrun. injection Hrun as _ <-.
    split; reflexivity.
  - vm_compute in Hrun. discriminate Hrun.
Defined.

(** X24. [enrichOccupation] awaits its calls one after the other, in
    the order problem stacks, pain points, workflows, buying triggers, AI
    opportunity, day in the life, tools, messaging hooks, leaving out the
    workflows and the messaging hooks when the options switch them off:
    it rejects with the first call that rejects, and otherwise takes the
    sum of the times of its calls. *)
Theorem enrichOccupation_sequential occupationAI occupation options :
  signal (enrichOccupation occupationAI occupation options)
  = awaitEach (occupationCalls occupationAI occupation options).
Proof.
  unfold enrichOccupation, occupationCalls. cbv zeta.
  destruct (default true (EnrichOccupationOptions.includeWorkflows options)),
           (default true (EnrichOccupationOptions.includeMessaging options));
    cbn [app]; await_calls.
Qed.

(** ** The batch functions over the enrichment functions *)

Lemma runBatch_entries {T R} (key : T -> string) (work : T -> async R) concurrency items
    (P : string -> R -> Prop) :
  0 < concurrency ->
  (forall x v, x ∈ items -> settled (work x) = Fulfilled v -> P (key x) v) ->
  forall log r m,
    runBatch key work concurrency items = Some (log, r) ->
    settled r = Fulfilled m ->
    forall k v, m !! k = Some v -> P k v.
Proof.
  intros Hc Hwork log r m Heq Hm k v Hk.
  destruct (runBatch_Run key work concurrency items Hc) as (log' & r' & Heq' & Hrun).
  rewrite Heq in Heq'. injection Heq' as <- <-.
  destruct (Run_map key work concurrency items Hc 0 0 ∅ log r Hrun m Hm) as (Hfrom & _ & _).
  destruct (Hfrom k v Hk) as [Hempty|(y & Hy & <- & Hv)].
  - rewrite lookup_empty in Hempty. discriminate Hempty.
  - apply (Hwork y v); assumption.
Qed.

Lemma enrichIndustry_industryId industryAI industry options e :
  settled (enrichIndustry industryAI industry options) = Fulfilled e ->
  EnrichedIndustry.industryId e = Industry.id industry.
Proof.
  intros H. unfold enrichIndustry in H.
  do 6 (apply settled_bind_fulfilled in H as (? & _ & H)).
  apply settled_ret in H. subst e. reflexivity.
Qed.

Lemma enrichProcess_processId processAI process options e :
  settled (enrichProcess processAI process options) = Fulfilled e ->
  EnrichedProcess.processId e = Process.id process.
Proof.
  intros H. unfold enrichProcess in H.
  do 4 (apply settled_bind_fulfilled in H as (? & _ & H)).
  apply settled_ret in H. subst e. reflexivity.
Qed.

Lemma enrichTask_taskId taskAI task options e :
  settled (enrichTask taskAI task options) = Fulfilled e ->
  EnrichedTask.taskId e = Task.id task.
Proof.
  intros H. unfold enrichTask in H.
  do 4 (apply settled_bind_fulfilled in H as (? & _ & H)).
  apply settled_ret in H. subst e. reflexivity.
Qed.

Lemma enrichOccupation_occupationId occupationAI occupation options e :
  settled (enrichOccupation occupationAI occupation options) = Fulfilled e ->
  EnrichedOccupationRecord.occupationId e = Occupation.id occupation.
Proof.
  intros H. unfold enrichOccupation in H.
  do 8 (apply settled_bind_fulfilled in H as (? & _ & H)).
  apply settled_ret in H. subst e. reflexivity.
Qed.

(** X25. In the map that a batch function returns, every enrichment is
    stored under the id that it carries itself: this holds for the four
    batch functions, over industries, occupations, processes and tasks,
    also when several items share an id. *)
Theorem batch_entries_under_own_id :
  (forall industryAI industries options log r m k e,
     enrichIndustriesBatch industryAI industries options = Some (log, r) ->
     settled r = Fulfilled m -> m !! k = Some e ->
     EnrichedIndustry.industryId e = k) /\
  (forall occupationAI occupations options log r m k e,
     enrichOccupationsBatch (enrichOccupation occupationAI) occupations options
     = Some (log, r) ->
     settled r = Fulfilled m -> m !! k = Some e ->
     EnrichedOccupationRecord.occupationId e = k) /\
  (forall processAI processes options log r m k e,
     enrichProcessesBatch (enrichProcess processAI) processes options = Some (log, r) ->
     settled r = Fulfilled m -> m !! k = Some e ->
     EnrichedProcess.processId e = k) /\
  (forall taskAI tasks options log r m k e,
     enrichTasksBatch taskAI tasks options = Some (log, r) ->
     settled r = Fulfilled m -> m !! k = Some e ->
     EnrichedTask.taskId e = k).
Proof.
  split; [|split; [|split]].
  - intros industryAI industries options log r m k e Heq Hm Hk.
    apply (runBatch_entries Industry.id
             (fun industry => enrichIndustry industryAI industry options) 5 industries
             (fun k e => EnrichedIndustry.industryId e = k) (Nat.lt_0_succ 4))
      with (log := log) (r := r) (m := m); try assumption.
    intros x v _. apply enrichIndustry_industryId.
  - intros occupationAI occupations options log r m k e Heq Hm Hk.
    apply (runBatch_entries Occupation.id
             (fun occupation => enrichOccupation occupationAI occupation options)
             3 occupations
             (fun k e => EnrichedOccupationRecord.occupationId e = k) (Nat.lt_0_succ 2))
      with (log := log) (r := r) (m := m); try assumption.
    intros x v _. apply enrichOccupation_occupationId.
  - intros processAI processes options log r m k e Heq Hm Hk.
    apply (runBatch_entries Process.id
             (fun process => enrichProcess processAI process options) 3 processes
             (fun k e => EnrichedProcess.processId e = k) (Nat.lt_0_succ 2))
      with (log := log) (r := r) (m := m); try assumption.
    intros x v _. apply enrichProcess_processId.
  - intros taskAI tasks options log r m k e Heq Hm Hk.
    apply (runBatch_entries Task.id
             (fun task => enrichTask taskAI task options) 5 tasks
             (fun k e => EnrichedTask.taskId e = k) (Nat.lt_0_succ 4))
      with (log := log) (r := r) (m := m); try assumption.
    intros x v _. apply enrichTask_taskId.
Qed.

(** ** scoreStartupConcept *)

(** X26. Of the enrichments it is given, [scoreStartupConcept] shows
    the collaborator the market size and growth, the AI adoption, the
    names of the first three trends, the budget authority, the decision
    role, the AI readiness and the first three top problem ids, and
    nothing else: enrichments that agree on these get the same score. *)
Theorem scoreStartupConcept_reads_only startupAI concept
    (ei ei' : EnrichedIndustry.t) (eo eo' : EnrichedOccupation.t) :
  MarketSize.tam (EnrichedIndustry.marketSize ei)
  = MarketSize.tam (EnrichedIndustry.marketSize ei') ->
  MarketSize.growth (EnrichedIndustry.marketSize ei)
  = MarketSize.growth (EnrichedIndustry.marketSize ei') ->
  AIReadiness.aiAdoption (EnrichedIndustry.aiReadiness ei)
  = AIReadiness.aiAdoption (EnrichedIndustry.aiReadiness ei') ->
  IndustryTrend.trend <$> take 3 (EnrichedIndustry.trends ei)
  = IndustryTrend.trend <$> take 3 (EnrichedIndustry.trends ei') ->
  EnrichedOccupation.budgetAuthority eo = EnrichedOccupation.budgetAuthority eo' ->
  EnrichedOccupation.decisionRole eo = EnrichedOccupation.decisionRole eo' ->
  EnrichedOccupation.aiOpportunity_aiReadiness eo
  = EnrichedOccupation.aiOpportunity_aiReadiness eo' ->
  take 3 (EnrichedOccupation.topProblemIds eo) = take 3 (EnrichedOccupation.topProblemIds eo') ->
  scoreStartupConcept startupAI concept (Some ei) (Some eo)
  = scoreStartupConcept startupAI concept (Some ei') (Some eo').
Proof.
  intros Htam Hgrowth Hadoption Htrends Hauthority Hrole Hreadiness Hproblems.
  unfold scoreStartupConcept, scorePrompt, industryIntelligence, occupationIntelligence,
    JS.slice.
  rewrite !drop_0, !Nat.sub_0_r.
  rewrite Htam, Hgrowth, Hadoption, Htrends, Hauthority, Hrole, Hreadiness, Hproblems.
  reflexivity.
Qed.

Lemma scoreStartupConcept_reads_only_witness :
  scoreStartupConcept (cannedStartupAI scenarioScore None) sampleConcept
    (Some (sampleEnrichedIndustry ["Late payments"] [sampleTrend]))
    (Some (sampleEnrichedOccupation ["a"; "b"; "c"; "d"] ["x"]))
  = scoreStartupConcept (cannedStartupAI scenarioScore None) sampleConcept
      (Some (sampleEnrichedIndustry [] [sampleTrend]))
      (Some (sampleEnrichedOccupation ["a"; "b"; "c"; "e"] [])).
Proof. apply scoreStartupConcept_reads_only; reflexivity. Defined.
